(** * Spike-sorting stability evaluation: a shallow embedding

    Embedding of [src/stability/stability_evaluation.py].

    Conventions of the embedding.
    - A spike train is a numpy array of shape [N, 2] with the default integer
      dtype (int64): a list of rows [(time, label)] over [Z]; array arithmetic
      done in place wraps around at 64 bits ([wrap64]).
    - Python exceptions are values of [exn]; code that can raise returns
      [result A]; code that also touches shared mutable objects (the caller's
      spike-train arrays, the cursor of the recording file, the files written)
      runs in the state-and-error monad [M] over [world].
    - An array object owns its rows, except in the module [Shared], where
      array objects are ranges of rows of a buffer, as numpy's basic slices
      are, and two objects can share rows.
    - Recorded samples are float64 numbers; they are embedded as exact
      rationals ([Q]).  Draws of [np.random] are taken from an explicit
      [Draws] record. *)

From Stdlib Require Import ZArith QArith Lia.
From stdpp Require Import base option list sorting gmap strings.

Local Open Scope Z_scope.

(** ** Exceptions and the two monads *)

Inductive exn :=
  | ValueError
  | IndexError
  | AttributeError
  | Dangling.   (* not a Python exception: a reference to no object of the store *)

Definition result (A : Type) : Type := exn + A.

Definition ok {A} (a : A) : result A := inr a.
Definition raise {A} (e : exn) : result A := inl e.
Definition rbind {A B} (r : result A) (k : A → result B) : result B :=
  match r with inl e => inl e | inr a => k a end.

Declare Scope result_scope.
Delimit Scope result_scope with res.
Notation "'let*' x ':=' r 'in' k" := (rbind r (fun x => k))
  (at level 10, x name, r at level 100, k at level 200) : result_scope.
Notation "'let*' ' p ':=' r 'in' k" :=
  (rbind r (fun x => match x with p => k end))
  (at level 10, p pattern, r at level 100, k at level 200,
   only parsing) : result_scope.

(** A spike-train array [spt]: rows [(spt[k, 0], spt[k, 1])]. *)
Definition spt_array : Type := list (Z * Z).

(** A block of a recording, indexed [time][channel]. *)
Abbreviation block A := (list (list A)) (only parsing).

(** The mutable objects shared between caller and callee. *)
Record world := World {
  arrays : gmap positive spt_array;      (* numpy arrays, by identity *)
  cursor : nat;                          (* position in the recording, in batches *)
  files  : gmap string (list (block Z))  (* int16 batches written, per file *)
}.

Definition M (A : Type) : Type := world → result (A * world).

Definition mret {A} (a : A) : M A := fun w => ok (a, w).
Definition mraise {A} (e : exn) : M A := fun _ => raise e.
Definition mbind {A B} (m : M A) (k : A → M B) : M B :=
  fun w => match m w with inl e => inl e | inr (a, w') => k a w' end.
Definition lift {A} (r : result A) : M A :=
  fun w => match r with inl e => inl e | inr a => ok (a, w) end.

Declare Scope M_scope.
Delimit Scope M_scope with M.
Notation "'let*' x ':=' m 'in' k" := (mbind m (fun x => k))
  (at level 10, x name, m at level 100, k at level 200) : M_scope.
Notation "'let*' ' p ':=' m 'in' k" :=
  (mbind m (fun x => match x with p => k end))
  (at level 10, p pattern, m at level 100, k at level 200,
   only parsing) : M_scope.

(** ** numpy primitives *)

Module Np.

(** Wrap-around of int64 arithmetic. *)
Definition wrap64 (z : Z) : Z := (z + 2 ^ 63) `mod` 2 ^ 64 - 2 ^ 63.

Definition int64 (z : Z) : Prop := - 2 ^ 63 ≤ z < 2 ^ 63.

(** [range(n)] *)
Definition range (n : Z) : list Z := seqZ 0 n.

(** [range(a, b)] *)
Definition range2 (a b : Z) : list Z := seqZ a (b - a).

(** [np.unique]: the sorted distinct values. *)
Definition unique (l : list Z) : list Z := merge_sort Z.le (remove_dups l).

(** [np.sort] on an integer vector. *)
Definition sort (l : list Z) : list Z := merge_sort Z.le l.

(** [np.max] of a vector; numpy raises ValueError on an empty one. *)
Definition max (l : list Z) : result Z :=
  match l with
  | [] => raise ValueError
  | x :: l' => ok (foldl Z.max x l')
  end.

(** Position of the first maximum of a non-empty vector, after [x] at
    position [i] ([np.argmax] returns the first occurrence). *)
Fixpoint argmax_from (best : Z) (besti i : Z) (l : list Z) : Z :=
  match l with
  | [] => besti
  | y :: l' => if best <? y then argmax_from y i (i + 1) l'
               else argmax_from best besti (i + 1) l'
  end.

Definition argmax (l : list Z) : result Z :=
  match l with
  | [] => raise ValueError
  | x :: l' => ok (argmax_from x 0 1 l')
  end.

(** [np.zeros(n)]: a negative dimension raises ValueError. *)
Definition zeros {A} (zero : A) (n : Z) : result (list A) :=
  if n <? 0 then raise ValueError else ok (replicate (Z.to_nat n) zero).

(** Integer indexing [a[i]] along an axis of length [length a]:
    negative indices count from the end, anything outside
    [-len, len) raises IndexError. *)
Definition norm_index (len : nat) (i : Z) : result nat :=
  if (i <? - Z.of_nat len) || (Z.of_nat len <=? i) then raise IndexError
  else ok (Z.to_nat (if i <? 0 then i + Z.of_nat len else i)).

Definition index {A} (a : list A) (i : Z) : result A :=
  (let* k := norm_index (length a) i in
   match a !! k with Some x => ok x | None => raise IndexError end)%res.

(** Fancy indexing [a[idx]] with an integer index vector. *)
Fixpoint take {A} (a : list A) (idx : list Z) : result (list A) :=
  match idx with
  | [] => ok []
  | i :: idx' =>
      (let* x := index a i in let* xs := take a idx' in ok (x :: xs))%res
  end.

(** Columns of a matrix given by rows (all rows of the length of the first). *)
Fixpoint transpose {A} (ncols : nat) (rows : list (list A)) : list (list A) :=
  match ncols with
  | O => []
  | S n => (rows ≫= fun r => from_option (fun x => [x]) [] (head r))
           :: transpose n (tail <$> rows)
  end.

End Np.

(** ** [clean_spike_train] *)

(** [spt[:, 1]] and [spt[:, 0]] *)
Definition labels (spt : spt_array) : list Z := snd <$> spt.
Definition times (spt : spt_array) : list Z := fst <$> spt.

(** [spt[spt[:, 1] == u, 0]] *)
Definition times_of (spt : spt_array) (u : Z) : list Z :=
  fst <$> filter (fun r => r.2 = u) spt.

(** Content of an array after [a[:, 1] += k]. *)
Definition col1_add (k : Z) (a : spt_array) : spt_array :=
  (fun r => (r.1, Np.wrap64 (r.2 + k))) <$> a.

(** Content of an array after [a[a[:, 1] == u, 1] = i]. *)
Definition col1_assign_where (u i : Z) (a : spt_array) : spt_array :=
  (fun r => if bool_decide (r.2 = u) then (r.1, i) else r) <$> a.

Definition load (l : positive) : M spt_array :=
  fun w => match arrays w !! l with
           | Some a => ok (a, w)
           | None => raise Dangling
           end.

(** An in-place update of the array [l]: every alias of [l] sees it. *)
Definition update (l : positive) (f : spt_array → spt_array) : M unit :=
  fun w => match arrays w !! l with
           | Some a => ok (tt, World (<[l := f a]> (arrays w)) (cursor w) (files w))
           | None => raise Dangling
           end.

(** [for i, u in enumerate(units): spt[spt[:, 1] == u, 1] = i], from index [i]. *)
Fixpoint clean_loop (spt : positive) (i : Z) (units : list Z) : M unit :=
  match units with
  | [] => mret tt
  | u :: units' =>
      (let* _ := update spt (col1_assign_where u i) in
       clean_loop spt (i + 1) units')%M
  end.

Definition clean_spike_train (spt : positive) : M positive :=
  (let* a := load spt in
   let units := Np.unique (labels a) in            (* a fresh array *)
   let n := Z.of_nat (length units) in
   let* _ := update spt (col1_add n) in            (* spt[:, 1] += len(units) *)
   let units := (fun u => Np.wrap64 (u + n)) <$> units in  (* units += len(units) *)
   let* _ := clean_loop spt 0 units in
   mret spt)%M.

(** ** SpikeSortingEvaluation *)

(** Outcome of a float64 division of two integer-valued operands: numpy does
    not raise on a zero divisor, it yields [inf], [-inf] or [nan]. *)
Inductive rate := Fin (q : Q) | PosInf | NegInf | NaN.

Definition true_divide (a b : Z) : rate :=
  if b =? 0 then
    if a =? 0 then NaN else if 0 <? a then PosInf else NegInf
  else Fin (Qred (inject_Z a / inject_Z b)).

Definition is_finite (r : rate) : Prop :=
  match r with Fin _ => True | _ => False end.

(** Element-wise binary operation on two vectors under numpy broadcasting:
    equal lengths, or one operand of length one; ValueError otherwise. *)
Definition broadcast2 {A B C} (f : A → B → C)
    (xs : list A) (ys : list B) : result (list C) :=
  if bool_decide (length xs = length ys) then ok (zip_with f xs ys)
  else match xs, ys with
       | [x], _ => ok (f x <$> ys)
       | _, [y] => ok ((fun x => f x y) <$> xs)
       | _, _ => raise ValueError
       end.

Fixpoint mapM_res {A B} (f : A → result B) (l : list A) : result (list B) :=
  match l with
  | [] => ok []
  | x :: l' => (let* y := f x in let* ys := mapM_res f l' in ok (y :: ys))%res
  end.

Module SpikeSortingEvaluation.

Record t := Build {
  n_units : Z;
  n_clusters : Z;
  spt_base : positive;              (* the caller's arrays, by reference *)
  spt : positive;
  spike_count_base : list Z;
  spike_count_cluster : list Z;
  confusion_matrix : list (list Z); (* [unit][cluster] *)
  true_positive : list rate;
  false_positive : list rate;
  unit_cluster_map : list Z
}.

Definition count_spikes (spt : spt_array) : result (list Z) :=
  (let* m := Np.max (labels spt) in
   let n_cluster := m + 1 in
   let* _ := Np.zeros 0 n_cluster in
   (* counts[u] = np.sum(spt[:, 1] == u), for u in range(n_cluster) *)
   ok ((fun u => Z.of_nat (length (filter (fun r => r.2 = u) spt)))
         <$> Np.range n_cluster))%res.

Definition admissible_proximity : Z := 60.

(** The two cursors [i], [j] are the suffixes [array1[i:]], [array2[j:]]
    still to be read; the loop ends when one of them is exhausted. *)
Fixpoint count_matches (array1 : list Z) : list Z → Z :=
  match array1 with
  | [] => fun _ => 0
  | x :: array1' =>
      fix scan (array2 : list Z) : Z :=
        match array2 with
        | [] => 0
        | y :: array2' =>
            if Np.wrap64 (Z.abs (Np.wrap64 (x - y))) <? admissible_proximity
            then 1 + count_matches array1' array2'
            else if x <? y then count_matches array1' array2
            else scan array2'
        end
  end.

Definition compute_confusion_matrix
    (n_units n_clusters : Z) (spt_base spt : spt_array) : list (list Z) :=
  (fun unit =>
     let spike_times_base := times_of spt_base unit in
     (fun cluster =>
        let spike_times_cluster := times_of spt cluster in
        count_matches spike_times_base spike_times_cluster)
       <$> Np.range n_clusters)
    <$> Np.range n_units.

Definition compute_accuracies (self : t) : result t :=
  (let columns :=
     Np.transpose (Z.to_nat (n_clusters self)) (confusion_matrix self) in
   (* np.argmax(self.confusion_matrix, axis=0) *)
   let* unit_cluster_map := mapM_res Np.argmax columns in
   (* np.max(self.confusion_matrix, axis=0) *)
   let* recovered := mapM_res Np.max columns in
   let* true_positive :=
     broadcast2 true_divide recovered (spike_count_base self) in
   let* match_count := Np.take (spike_count_cluster self) unit_cluster_map in
   let* missed := broadcast2 Z.sub match_count recovered in
   let* false_positive := broadcast2 true_divide missed match_count in
   ok (Build (n_units self) (n_clusters self) (spt_base self) (spt self)
         (spike_count_base self) (spike_count_cluster self)
         (confusion_matrix self)
         true_positive false_positive unit_cluster_map))%res.

(** The constructor up to, and excluding, the call of [compute_accuracies]. *)
Definition init_fields (spt_base spt : positive) : M t :=
  (let* spt_base := clean_spike_train spt_base in
   let* spt := clean_spike_train spt in
   let* a_base := load spt_base in
   let* a := load spt in
   let* m_base := lift (Np.max (labels a_base)) in
   let n_units := m_base + 1 in
   let* m := lift (Np.max (labels a)) in
   let n_clusters := m + 1 in
   let* spike_count_base := lift (count_spikes a_base) in
   let* spike_count_cluster := lift (count_spikes a) in
   let confusion_matrix :=
     compute_confusion_matrix n_units n_clusters a_base a in
   let* true_positive := lift (Np.zeros (Fin 0) n_units) in
   let* false_positive := lift (Np.zeros (Fin 0) n_units) in
   let* unit_cluster_map := lift (Np.zeros 0 n_units) in
   mret (Build n_units n_clusters spt_base spt
           spike_count_base spike_count_cluster confusion_matrix
           true_positive false_positive unit_cluster_map))%M.

Definition init (spt_base spt : positive) : M t :=
  (let* self := init_fields spt_base spt in
   lift (compute_accuracies self))%M.

End SpikeSortingEvaluation.

(** ** RecordingBatchIterator *)

Module RecordingBatchIterator.

(** [batches] lists the blocks that successive calls of [next_batch] return
    when reading from the start of the file: the raw chunk, band-pass
    filtered, scaled and whitened by the external collaborators.  The file
    position is the [cursor] of the world.  The sample rate, the number of
    batches, the radius and the neighbour structure only feed that
    preprocessing and are left out. *)
Record t := Build {
  batch_time_samples : Z;
  n_chan : Z;
  geometry : list (Q * Q);
  batches : list (block Q)
}.

(** A short read makes [np.reshape] raise ValueError. *)
Definition next_batch (self : t) : M (block Q) :=
  fun w => match batches self !! cursor w with
           | Some ts => ok (ts, World (arrays w) (S (cursor w)) (files w))
           | None => raise ValueError
           end.

Definition reset_cursor (self : t) : M unit :=
  fun w => ok (tt, World (arrays w) 0%nat (files w)).

End RecordingBatchIterator.

(** ** Batches of a spike train, windows *)

(** [spt[batch_idx, :]] with [spt[:, 0] -= n_samples * i] applied: boolean-mask
    indexing copies, so the subtraction never reaches the array indexed. *)
Definition batch_spikes (spt : spt_array) (n_samples i : Z) : spt_array :=
  (fun r => (Np.wrap64 (r.1 - n_samples * i), r.2))
    <$> filter (fun r => i * n_samples < r.1 ∧ r.1 < (i + 1) * n_samples) spt.

(** [t + window] for an int64 scalar [t]. *)
Definition window_at (t : Z) (window : list Z) : list Z :=
  (fun k => Np.wrap64 (t + k)) <$> window.

(** Element-wise sum of two matrices; numpy raises ValueError when the shapes
    do not agree. *)
Definition mat_add (a b : block Q) : result (block Q) :=
  if bool_decide (length a = length b ∧ (length <$> a) = (length <$> b))
  then ok (zip_with (zip_with Qplus) a b)
  else raise ValueError.

Definition zeros_mat (rows cols : Z) : result (block Q) :=
  (let* row := Np.zeros (0 : Q) cols in Np.zeros row rows)%res.

(** ** MeanWaveCalculator *)

Module MeanWaveCalculator.

(** [templates] is indexed [unit][window sample][channel], that is
    [templates !! u] is [self.templates[:, :, u]]. *)
Record t := Build {
  batch_reader : RecordingBatchIterator.t;
  spike_train : positive;
  window : list Z;
  n_units : Z;
  templates : list (block Q)
}.

(** Loop state of [compute_templates]. *)
Record acc := Acc {
  acc_templates : list (block Q);
  acc_counts : list Z;
  boundary_violation : Z
}.

(** The body of the [try]. *)
Definition accumulate (window : list Z) (ts : block Q) (r : Z * Z)
    (st : acc) : result acc :=
  (let* u := Np.norm_index (length (acc_templates st)) r.2 in
   let* template := Np.index (acc_templates st) r.2 in
   let* snippet := Np.take ts (window_at r.1 window) in
   let* template := mat_add template snippet in
   let* c := Np.index (acc_counts st) r.2 in
   ok (Acc (<[u := template]> (acc_templates st))
           (<[u := c + 1]> (acc_counts st))
           (boundary_violation st)))%res.

(** [try: ... except: boundary_violation += 1]: the bare [except] catches
    every exception. *)
Definition accumulate_spike (window : list Z) (ts : block Q) (st : acc)
    (r : Z * Z) : acc :=
  match accumulate window ts r st with
  | inr st' => st'
  | inl _ => Acc (acc_templates st) (acc_counts st) (boundary_violation st + 1)
  end.

Fixpoint batch_loop (self : t) (a : spt_array) (batch_ids : list Z) (st : acc)
    : M acc :=
  match batch_ids with
  | [] => mret st
  | i :: batch_ids' =>
      (let n_samples :=
         RecordingBatchIterator.batch_time_samples (batch_reader self) in
       let spt := batch_spikes a n_samples i in
       let* ts := RecordingBatchIterator.next_batch (batch_reader self) in
       batch_loop self a batch_ids' (foldl (accumulate_spike (window self) ts) st spt))%M
  end.

(** [self.templates[:, :, u] /= counts[u]] where [counts[u]] is not zero. *)
Definition normalise (templates : list (block Q)) (counts : list Z)
    : list (block Q) :=
  zip_with (fun (template : block Q) (c : Z) =>
              if c =? 0 then template
              else (fun row : list Q =>
                      (fun x => Qred (x / inject_Z c)) <$> row) <$> template)
           templates counts.

(** The sums and counts before the final division. *)
Definition accumulate_batches (self : t) (n_batches : Z) : M acc :=
  (let* counts := lift (Np.zeros 0 (n_units self)) in
   let* a := load (spike_train self) in
   batch_loop self a (Np.range n_batches) (Acc (templates self) counts 0))%M.

Definition compute_templates (self : t) (n_batches : Z) : M (t * Z) :=
  (let* st := accumulate_batches self n_batches in
   mret (Build (batch_reader self) (spike_train self) (window self)
           (n_units self) (normalise (acc_templates st) (acc_counts st)),
         boundary_violation st))%M.

Definition init (batch_reader : RecordingBatchIterator.t)
    (spike_train : positive) : M t :=
  (let window := Np.range2 (-10) 30 in
   let* spike_train := clean_spike_train spike_train in
   let* a := load spike_train in
   (* max(self.spike_train[:, 1] + 1) *)
   let* n_units := lift (Np.max ((fun l => Np.wrap64 (l + 1)) <$> labels a)) in
   let* template :=
     lift (zeros_mat (Z.of_nat (length window))
             (RecordingBatchIterator.n_chan batch_reader)) in
   let* templates := lift (Np.zeros template n_units) in
   let self := Build batch_reader spike_train window n_units templates in
   let* '(self, status) := compute_templates self 5 in
   mret self)%M.

End MeanWaveCalculator.

(** ** RecordingAugmentation *)

(** The float64 entries of the statistics summary.  The logarithms, their mean
    and their standard deviation are kept symbolic; numpy returns [nan] for
    the mean and for the standard deviation of an empty array. *)
Inductive stat :=
  | SZero                      (* the 0.0 left by np.zeros *)
  | SNan
  | SMeanLog (diffs : list Z)  (* np.mean(np.log(diffs)), diffs non-empty *)
  | SStdLog (diffs : list Z)   (* np.std(np.log(diffs)), diffs non-empty *)
  | SCount (n : Z).            (* an integer stored as a float *)

Definition mean_log (diffs : list Z) : stat :=
  match diffs with [] => SNan | _ => SMeanLog diffs end.
Definition std_log (diffs : list Z) : stat :=
  match diffs with [] => SNan | _ => SStdLog diffs end.

(** What the code draws from [np.random]. *)
Record Draws := {
  (* np.random.choice(range(n_units), k, replace=False) *)
  draw_units : Z → Z → list Z;
  (* np.sign(np.random.rand() - 0.5) * np.random.poisson(15), for the i-th moved unit *)
  draw_dist : Z → Z;
  (* np.exp(np.random.normal(mean, std, count)).astype('int'), for unit u *)
  draw_diffs : Z → Z → list Z;
  (* np.random.choice(spt_u, count, replace=False), for unit u *)
  draw_offsets : Z → list Z → Z → list Z
}.

(** [int(x)] of a float holding the rational [x]: truncation towards zero.
    The products [count * augment_rate] and [move_rate * n_units] are taken
    exactly; this agrees with float64 for the default rate 0.25 and for any
    product that is exact in binary. *)
Definition py_int (x : Q) : Z := Z.quot (Qnum x) (Z.pos (Qden x)).

Definition wrap16 (z : Z) : Z := (z + 2 ^ 15) `mod` 2 ^ 16 - 2 ^ 15.

(** [spt > k]: the element-wise comparison, an array of the shape of [spt]. *)
Definition spt_gt (spt : spt_array) (k : Z) : list (bool * bool) :=
  (fun r => (bool_decide (k < r.1), bool_decide (k < r.2))) <$> spt.

(** [ts[idx, :] = rows], one row after the other. *)
Fixpoint set_rows (ts : block Q) (idx : list Z) (rows : block Q)
    : result (block Q) :=
  match idx, rows with
  | i :: idx', row :: rows' =>
      (let* k := Np.norm_index (length ts) i in
       set_rows (<[k := row]> ts) idx' rows')%res
  | _, _ => ok ts
  end.

(** [ts[idx, :] += template] *)
Definition add_rows (ts : block Q) (idx : list Z) (template : block Q)
    : result (block Q) :=
  (let* current := Np.take ts idx in
   let* summed := mat_add current template in
   set_rows ts idx summed)%res.

Module RecordingAugmentation.

(** [template_calculator] is a second name of [template_comp]; [geom_map] is
    read by [move_spatial_trace] only, which is kept abstract below. *)
Record t := Build {
  template_comp : MeanWaveCalculator.t;
  geometry : list (Q * Q);
  n_chan : Z;
  x_unit : Q;
  stat_summary : list (stat * stat * stat)
}.

(** [self.window].  [__init__] and the methods it calls set
    [template_comp], [geometry], [n_chan], [template_calculator], [x_unit],
    [geom_map] and [stat_summary]; no attribute [window] is set on the
    instance or defined by the class (it is an attribute of the
    [MeanWaveCalculator] instance), so the lookup raises AttributeError. *)
Definition window (self : t) : result (list Z) := raise AttributeError.

Definition refractory_period : Z := 60.

Definition firing_diff (spt_u : list Z) : list Z :=
  (fun d => if d =? 0 then 1 else d)
    <$> zip_with (fun a b => Np.wrap64 (a - b)) (tail spt_u) (removelast spt_u).

(** The rows of the summary; [spt] is the whole spike train, so the guard
    [if len(spt > 2)] tests the number of rows of [spt]. *)
Definition stat_rows (n_units : Z) (spt : spt_array) : list (stat * stat * stat) :=
  (fun u =>
     let spt_u := Np.sort (times_of spt u) in
     if bool_decide (length (spt_gt spt 2) ≠ 0%nat) then
       let u_firing_diff := firing_diff spt_u in
       (mean_log u_firing_diff, std_log u_firing_diff,
        SCount (Z.of_nat (length spt_u)))
     else (SZero, SZero, SZero))
    <$> Np.range n_units.

Definition compute_stat_summary (template_comp : MeanWaveCalculator.t)
    : M (list (stat * stat * stat)) :=
  (let* _ := lift (Np.zeros (SZero, SZero, SZero)
                     (MeanWaveCalculator.n_units template_comp)) in
   let* spt := load (MeanWaveCalculator.spike_train template_comp) in
   mret (stat_rows (MeanWaveCalculator.n_units template_comp) spt))%M.

Definition init (mean_wave_calculator : MeanWaveCalculator.t) : M t :=
  (let geometry :=
     RecordingBatchIterator.geometry
       (MeanWaveCalculator.batch_reader mean_wave_calculator) in
   let* stat_summary := compute_stat_summary mean_wave_calculator in
   mret (Build mean_wave_calculator geometry (Z.of_nat (length geometry))
           (20 # 1) stat_summary))%M.

(** [self.stat_summary[u, 2]] as a rational. *)
Definition summary_count (self : t) (u : Z) : result Q :=
  (let* row := Np.index (stat_summary self) u in
   match row.2 with
   | SCount n => ok (inject_Z n)
   | SZero => ok 0%Q
   | _ => raise ValueError   (* int(nan) *)
   end)%res.

(** [int(self.stat_summary[u, 2] * augment_rate)] *)
Definition new_spike_count (self : t) (augment_rate : Q) (u : Z) : result Z :=
  (let* c := summary_count self u in ok (py_int (c * augment_rate)))%res.

(** The new spike times and labels of unit [u]. *)
Definition fake_spikes_of (self : t) (d : Draws) (augment_rate : Q)
    (spt : spt_array) (u : Z) : result (list Z * list Z) :=
  (let spt_u := Np.sort (times_of spt u) in
   let* new_spike_count := new_spike_count self augment_rate u in
   let* _ := if new_spike_count <? 0 then raise ValueError else ok tt in
   let diffs := draw_diffs d u new_spike_count in
   let* _ := if Z.of_nat (length spt_u) <? new_spike_count
             then raise ValueError else ok tt in
   let offsets := Np.sort (draw_offsets d u spt_u new_spike_count) in
   let diffs :=
     (fun x => if x <? refractory_period
               then Np.wrap64 (x + refractory_period) else x) <$> diffs in
   let* new_times := broadcast2 (fun a b => Np.wrap64 (a + b)) offsets diffs in
   ok (new_times, replicate (Z.to_nat new_spike_count) u))%res.

Fixpoint fake_loop (self : t) (d : Draws) (augment_rate : Q)
    (spt : spt_array) (units : list Z) (times cid : list Z)
    : result (list Z * list Z) :=
  match units with
  | [] => ok (times, cid)
  | u :: units' =>
      (let* '(new_times, new_cid) := fake_spikes_of self d augment_rate spt u in
       fake_loop self d augment_rate spt units'
         (times ++ new_times) (cid ++ new_cid))%res
  end.

(** [np.array([times, cid]).T]: both lists must have one length. *)
Definition columns (times cid : list Z) : result spt_array :=
  if bool_decide (length times = length cid) then ok (zip times cid)
  else raise ValueError.

Definition make_fake_spike_train (self : t) (d : Draws) (augment_rate : Q)
    : M spt_array :=
  (let* spt := load (MeanWaveCalculator.spike_train (template_comp self)) in
   let* '(times, cid) :=
     lift (fake_loop self d augment_rate spt
             (Np.range (MeanWaveCalculator.n_units (template_comp self)))
             [] []) in
   lift (columns times cid))%M.

Section Save.

(** [move_spatial_trace(template, dist)]: the relocation of a template
    over the probe geometry is kept abstract. *)
Variable move_spatial_trace : t → block Q → Z → block Q.

(** [for i, u in enumerate(moved_units)], from index [i]. *)
Fixpoint moved_loop (self : t) (d : Draws) (orig_templates : list (block Q))
    (i : Z) (moved_units : list Z)
    (moved : list Z) (moved_templates : list (block Q))
    : result (list Z * list (block Q)) :=
  match moved_units with
  | [] => ok (moved, moved_templates)
  | u :: moved_units' =>
      (let* ku := Np.norm_index (length moved) u in
       let moved := <[ku := i]> moved in
       let dist := draw_dist d i in
       let* template := Np.index orig_templates u in
       let* ki := Np.norm_index (length moved_templates) i in
       let moved_templates :=
         <[ki := move_spatial_trace self template dist]> moved_templates in
       moved_loop self d orig_templates (i + 1) moved_units'
         moved moved_templates)%res
  end.

(** The array [moved] and the relocated templates. *)
Definition choose_moved (self : t) (d : Draws) (move_rate : Q)
    : result (list Z * list (block Q)) :=
  (let orig_templates := MeanWaveCalculator.templates (template_comp self) in
   let n_units := MeanWaveCalculator.n_units (template_comp self) in
   let k := py_int (move_rate * inject_Z n_units) in
   let* _ := if (k <? 0) || (n_units <? k) then raise ValueError else ok tt in
   let moved_units := Np.sort (draw_units d n_units k) in
   let* template :=
     zeros_mat (Z.of_nat (length (MeanWaveCalculator.window (template_comp self))))
               (RecordingBatchIterator.n_chan
                  (MeanWaveCalculator.batch_reader (template_comp self))) in
   let* moved_templates := Np.zeros template (Z.of_nat (length moved_units)) in
   let* moved := Np.zeros 0 n_units in
   moved_loop self d orig_templates 0 moved_units moved moved_templates)%res.

(** The body of the [try] for one augmented spike [r] of the batch. *)
Definition inject (self : t) (moved : list Z)
    (moved_templates orig_templates : list (block Q))
    (ts : block Q) (r : Z * Z) : result (block Q) :=
  (let cid := r.2 in
   let* m := Np.index moved cid in
   if negb (m =? 0) then
     let* window := window self in
     let* template := Np.index moved_templates m in
     add_rows ts (window_at r.1 window) template
   else
     let* window := window self in
     let* template := Np.index orig_templates cid in
     add_rows ts (window_at r.1 window) template)%res.

(** [try: ... except: boundary_violation += 1] on the pair of the batch
    and the counter. *)
Definition inject_spike (self : t) (moved : list Z)
    (moved_templates orig_templates : list (block Q))
    (st : block Q * Z) (r : Z * Z) : block Q * Z :=
  match inject self moved moved_templates orig_templates st.1 r with
  | inr ts => (ts, st.2)
  | inl _ => (st.1, st.2 + 1)
  end.

(** [ts *= scale; ts = ts.astype('int16')] *)
Definition scale_int16 (scale : Q) (ts : block Q) : block Z :=
  (fun row : list Q => (fun x => wrap16 (py_int (x * scale))) <$> row) <$> ts.

Definition tofile (name : string) (ts : block Z) : M unit :=
  fun w => ok (tt, World (arrays w) (cursor w)
                     (<[name := default [] (files w !! name) ++ [ts]]> (files w))).

Definition open_w (name : string) : M unit :=
  fun w => ok (tt, World (arrays w) (cursor w) (<[name := []]> (files w))).

(** The loop over the batches; returns the final [boundary_violation]. *)
Fixpoint augment_loop (self : t) (out_file_name : string) (scale : Q)
    (moved : list Z) (moved_templates orig_templates : list (block Q))
    (aug_spt : spt_array) (batch_ids : list Z) (boundary_violation : Z)
    : M Z :=
  match batch_ids with
  | [] => mret boundary_violation
  | i :: batch_ids' =>
      (let reader := MeanWaveCalculator.batch_reader (template_comp self) in
       let n_samples := RecordingBatchIterator.batch_time_samples reader in
       let spt := batch_spikes aug_spt n_samples i in
       let* ts := RecordingBatchIterator.next_batch reader in
       let '(ts, boundary_violation) :=
         foldl (inject_spike self moved moved_templates orig_templates)
               (ts, boundary_violation) spt in
       let* _ := tofile out_file_name (scale_int16 scale ts) in
       augment_loop self out_file_name scale moved moved_templates
         orig_templates aug_spt batch_ids' boundary_violation)%M
  end.

(** Reassign spikes from moved clusters to new units. *)
Fixpoint relabel_loop (moved : list Z) (units : list Z)
    (aug_spt : spt_array) (new_unit_id : Z) : result spt_array :=
  match units with
  | [] => ok aug_spt
  | u :: units' =>
      (let* m := Np.index moved u in
       if negb (m =? 0)
       then relabel_loop moved units'
              (col1_assign_where u new_unit_id aug_spt) (new_unit_id + 1)
       else relabel_loop moved units' aug_spt new_unit_id)%res
  end.

(** The augmented spike train as it is returned, and the number of
    exceptions caught while injecting. *)
Definition augment (self : t) (d : Draws) (out_file_name : string)
    (length : Z) (move_rate scale : Q) : M (spt_array * Z) :=
  (let reader := MeanWaveCalculator.batch_reader (template_comp self) in
   let* _ := RecordingBatchIterator.reset_cursor reader in
   let orig_templates := MeanWaveCalculator.templates (template_comp self) in
   let n_units := MeanWaveCalculator.n_units (template_comp self) in
   let* '(moved, moved_templates) := lift (choose_moved self d move_rate) in
   let* aug_spt := make_fake_spike_train self d (1 # 4) in
   let* _ := open_w out_file_name in
   let* boundary_violation :=
     augment_loop self out_file_name scale moved moved_templates
       orig_templates aug_spt (Np.range length) 0 in
   let* aug_spt :=
     lift (relabel_loop moved (Np.range n_units) aug_spt n_units) in
   mret (aug_spt, boundary_violation))%M.

Definition save_augment_recording (self : t) (d : Draws)
    (out_file_name : string) (length : Z) (move_rate scale : Q)
    : M spt_array :=
  (let* '(aug_spt, _) :=
     augment self d out_file_name length move_rate scale in
   let* spike_train :=
     load (MeanWaveCalculator.spike_train (template_comp self)) in
   (* np.append(self.template_comp.spike_train, aug_spt, axis=0) *)
   mret (spike_train ++ aug_spt))%M.

End Save.

End RecordingAugmentation.

(** ** Reference definitions and concrete inputs *)

(** Content of an array after the loop of [clean_spike_train]. *)
Fixpoint relabel_from (i : Z) (units : list Z) (a : spt_array) : spt_array :=
  match units with
  | [] => a
  | u :: units' => relabel_from (i + 1) units' (col1_assign_where u i a)
  end.

(** Content of the argument of [clean_spike_train] after the call. *)
Definition clean_array (a : spt_array) : spt_array :=
  let units := Np.unique (labels a) in
  let n := Z.of_nat (length units) in
  relabel_from 0 ((fun u => Np.wrap64 (u + n)) <$> units) (col1_add n a).

(** Position of the first occurrence of [x]. *)
Fixpoint index_of (x : Z) (l : list Z) : option nat :=
  match l with
  | [] => None
  | y :: l' => if bool_decide (x = y) then Some O else S <$> index_of x l'
  end.

(** The label given to [x] by the loop over [units] started at index [i]. *)
Definition rank_label (i : Z) (units : list Z) (x : Z) : Z :=
  match index_of x units with
  | Some k => i + Z.of_nat k
  | None => x
  end.

(** Labels an int64 array can hold that are not negative. *)
Definition label_ok (x : Z) : Prop := 0 ≤ x < 2 ^ 63.

(** A non-empty array whose labels are exactly [0 .. U-1]. *)
Definition normalized (a : spt_array) : Prop :=
  a ≠ [] ∧ ∃ U : Z, U ≤ 2 ^ 63 ∧ ∀ v, v ∈ labels a ↔ 0 ≤ v < U.

(** The false-discovery rates in the words of the specification: for
    cluster [c], its own spike count minus its matched count (the maximum of
    column [c] of the confusion matrix), over its own spike count. *)
Definition false_discovery_of_clusters (self : SpikeSortingEvaluation.t)
    : result (list rate) :=
  (let columns :=
     Np.transpose (Z.to_nat (SpikeSortingEvaluation.n_clusters self))
       (SpikeSortingEvaluation.confusion_matrix self) in
   let* matched := mapM_res Np.max columns in
   ok (zip_with (fun count m => true_divide (count - m) count)
         (SpikeSortingEvaluation.spike_count_cluster self) matched))%res.

(** The new spike times in the words of the specification: the k-th sorted
    anchor plus the sum of the first k gaps. *)
Fixpoint cumsum_from (s : Z) (gaps : list Z) : list Z :=
  match gaps with
  | [] => []
  | g :: gaps' => (s + g) :: cumsum_from (s + g) gaps'
  end.

Definition cumulative_times (anchors gaps : list Z) : list Z :=
  zip_with Z.add (Np.sort anchors) (cumsum_from 0 gaps).

(** The refractory floor of [make_fake_spike_train]. *)
Definition refractory (g : Z) : Z :=
  if g <? RecordingAugmentation.refractory_period
  then Np.wrap64 (g + RecordingAugmentation.refractory_period) else g.

(** The number of new spikes of unit [u] (0 where the count cannot be read). *)
Definition count_of (self : RecordingAugmentation.t) (rate : Q) (u : Z) : Z :=
  match RecordingAugmentation.new_spike_count self rate u with
  | inr n => n
  | inl _ => 0
  end.

(** The anchors and the gaps drawn for unit [u]. *)
Definition anchors_of (self : RecordingAugmentation.t) (d : Draws) (rate : Q)
    (spt : spt_array) (u : Z) : list Z :=
  draw_offsets d u (Np.sort (times_of spt u)) (count_of self rate u).

Definition gaps_of (self : RecordingAugmentation.t) (d : Draws) (rate : Q)
    (u : Z) : list Z :=
  draw_diffs d u (count_of self rate u).

(** The k-th sorted anchor plus the k-th gap, raised by the refractory period
    where it is below it. *)
Definition elementwise_times (anchors gaps : list Z) : list Z :=
  zip_with (fun a g => Np.wrap64 (a + refractory g)) (Np.sort anchors) gaps.

(** The rows of unit [u] in the new spike train. *)
Definition new_rows_of (self : RecordingAugmentation.t) (d : Draws) (rate : Q)
    (spt : spt_array) (u : Z) : spt_array :=
  (fun t => (t, u))
    <$> elementwise_times (anchors_of self d rate spt u) (gaps_of self d rate u).

(** What [np.random] guarantees on the draws for unit [u]: as many gaps and
    as many anchors as asked for, the count being readable and not larger
    than the number of spikes of the unit. *)
Definition draws_fit (self : RecordingAugmentation.t) (d : Draws) (rate : Q)
    (spt : spt_array) (u : Z) : Prop :=
  ∃ n, RecordingAugmentation.new_spike_count self rate u = ok n
       ∧ 0 ≤ n ≤ Z.of_nat (length (times_of spt u))
       ∧ length (gaps_of self d rate u) = Z.to_nat n
       ∧ length (anchors_of self d rate spt u) = Z.to_nat n.

Module Inputs.

(** Scenario of the specification: reference and candidate train. *)
Definition scenario : world :=
  World {[ 1%positive := [(100, 0); (500, 0); (1000, 1)];
           2%positive := [(105, 0); (1005, 1)] ]} 0 ∅.

(** Two normalized trains whose best matches are off the diagonal. *)
Definition crossed : world :=
  World {[ 1%positive := [(100, 0); (500, 0); (1000, 1)];
           2%positive := [(100, 1); (500, 1); (1000, 0); (2000, 1)] ]} 0 ∅.

(** One spike with label 5. *)
Definition single : world := World {[ 1%positive := [(100, 5)] ]} 0 ∅.

(** Labels 7, 3, 7. *)
Definition gaps : spt_array := [(100, 7); (7, 3); (9, 7)].
Definition gappy : world := World {[ 1%positive := gaps ]} 0 ∅.

(** A recording of five batches of 100 samples on one channel whose sample
    at row [r] of each batch is [r]. *)
Definition ramp : RecordingBatchIterator.t :=
  RecordingBatchIterator.Build 100 1 [(0%Q, 0%Q)]
    (replicate 5 ((fun r => [inject_Z r]) <$> Np.range 100)).

(** The same with every sample 1. *)
Definition flat : RecordingBatchIterator.t :=
  RecordingBatchIterator.Build 100 1 [(0%Q, 0%Q)]
    (replicate 5 ((fun r : Z => [1%Q]) <$> Np.range 100)).

(** A spike five samples after the start of the first batch. *)
Definition early : world := World {[ 1%positive := [(5, 0)] ]} 0 ∅.

(** Unit 0 fires four times, unit 1 once. *)
Definition two_units : world :=
  World {[ 1%positive := [(20, 0); (130, 0); (250, 0); (360, 0); (40, 1)] ]} 0 ∅.

(** Unit 0 is the unit drawn for relocation; its one new spike is anchored
    at time 130 with a gap of 80 samples. *)
Definition draws : Draws :=
  {| draw_units := fun _ k => if k =? 0 then [] else [0];
     draw_dist := fun _ => 3;
     draw_diffs := fun u _ => if u =? 0 then [80] else [];
     draw_offsets := fun u _ _ => if u =? 0 then [130] else [] |}.

(** One unit firing eight times. *)
Definition eight : world :=
  World {[ 1%positive := [(20, 0); (100, 0); (140, 0); (200, 0);
                          (260, 0); (300, 0); (360, 0); (420, 0)] ]} 0 ∅.

(** Two new spikes: anchors 300 and 100, gaps 70 and 80. *)
Definition draws_two : Draws :=
  {| draw_units := fun _ _ => [];
     draw_dist := fun _ => 0;
     draw_diffs := fun _ _ => [70; 80];
     draw_offsets := fun _ _ _ => [300; 100] |}.

(** The calculator over [ramp] as [MeanWaveCalculator.__init__] has it when
    it calls [compute_templates]: one unit, the templates still zero. *)
Definition fresh_calculator : MeanWaveCalculator.t :=
  MeanWaveCalculator.Build ramp 1 (Np.range2 (-10) 30) 1
    [replicate 40 [0%Q]].

(** The pipeline up to the augmentation object. *)
Definition augmentation (reader : RecordingBatchIterator.t) (spt : positive)
    : M RecordingAugmentation.t :=
  (let* calculator := MeanWaveCalculator.init reader spt in
   RecordingAugmentation.init calculator)%M.

(** The augmentation object over [flat] and [eight], and the world it is
    built in. *)
Definition no_augmentation : RecordingAugmentation.t :=
  RecordingAugmentation.Build (MeanWaveCalculator.Build flat 1 [] 0 [])
    [] 0 0 [].

Definition eight_augmentation : RecordingAugmentation.t :=
  match augmentation flat 1 eight with
  | inr (self, _) => self
  | inl _ => no_augmentation
  end.

Definition eight_world : world :=
  match augmentation flat 1 eight with
  | inr (_, w) => w
  | inl _ => eight
  end.

Definition eight_train : spt_array :=
  [(20, 0); (100, 0); (140, 0); (200, 0);
   (260, 0); (300, 0); (360, 0); (420, 0)].

End Inputs.

(** ** Definitions used by the further properties *)

(** The test of [count_matches]: two spike times closer than the admissible
    proximity. *)
Definition close (x y : Z) : bool :=
  Np.wrap64 (Z.abs (Np.wrap64 (x - y)))
  <? SpikeSortingEvaluation.admissible_proximity.

(** Sum of a vector of integers. *)
Definition sumZ (l : list Z) : Z := foldr Z.add 0 l.

(** [counts[u]] of [count_spikes], for [u] in [range(n)]. *)
Definition counts_of (a : spt_array) (n : Z) : list Z :=
  (fun u => Z.of_nat (length (filter (fun r : Z * Z => r.2 = u) a)))
    <$> Np.range n.

(** The number of distinct labels of a train. *)
Definition distinct (a : spt_array) : Z :=
  Z.of_nat (length (remove_dups (labels a))).

(** [np.max] and [np.argmax] where they are defined. *)
Definition max_of (l : list Z) : Z :=
  match l with [] => 0 | x :: l' => foldl Z.max x l' end.

Definition argmax_of (l : list Z) : Z :=
  match l with [] => 0 | x :: l' => Np.argmax_from x 0 1 l' end.

(** Column [c] of the confusion matrix of the trains [b] and [a]. *)
Definition confusion_column (b a : spt_array) (U c : Z) : list Z :=
  (fun u => SpikeSortingEvaluation.count_matches (times_of b u) (times_of a c))
    <$> Np.range U.

(** The object as the constructor has it before [compute_accuracies], for
    the normalized trains [b] (of [U] units) and [a] (of [K] clusters). *)
Definition fields_of (spt_base spt : positive) (b a : spt_array) (U K : Z)
    : SpikeSortingEvaluation.t :=
  SpikeSortingEvaluation.Build U K spt_base spt
    (counts_of b U) (counts_of a K)
    (SpikeSortingEvaluation.compute_confusion_matrix U K b a)
    (replicate (Z.to_nat U) (Fin 0)) (replicate (Z.to_nat U) (Fin 0))
    (replicate (Z.to_nat U) 0).

(** The value of a run, without the final world. *)
Definition value_of {A} (r : result (A * world)) : result A :=
  match r with inl e => inl e | inr (a, _) => inr a end.

(** The number of spikes of [a] that fall strictly inside one of the first
    [n_batches] batches of [n_samples] samples. *)
Definition spikes_inside (a : spt_array) (n_samples n_batches : Z) : Z :=
  sumZ ((fun i => Z.of_nat (length (batch_spikes a n_samples i)))
          <$> Np.range n_batches).

(** Rows [first .. first + n - 1] of a block. *)
Definition rows_from (ts : block Q) (first : Z) (n : nat) : block Q :=
  take n (drop (Z.to_nat first) ts).

(** The label a row with label [x] ends with when [relabel_loop] runs over
    [units] with [nid] the next fresh id. *)
Fixpoint relabel_label (moved : list Z) (units : list Z) (nid : Z) (x : Z) : Z :=
  match units with
  | [] => x
  | u :: units' =>
      match moved !! Z.to_nat u with
      | Some m =>
          if negb (m =? 0) then
            if bool_decide (x = u) then nid
            else relabel_label moved units' (nid + 1) x
          else relabel_label moved units' nid x
      | None => x
      end
  end.

Module Pipeline.

(** The augmentation object over [Inputs.flat] and [Inputs.two_units], and the
    world it is built in. *)
Definition augmentation : RecordingAugmentation.t :=
  match Inputs.augmentation Inputs.flat 1 Inputs.two_units with
  | inr (self, _) => self
  | inl _ => Inputs.no_augmentation
  end.

Definition built : world :=
  match Inputs.augmentation Inputs.flat 1 Inputs.two_units with
  | inr (_, w) => w
  | inl _ => Inputs.two_units
  end.

Definition train : spt_array :=
  [(20, 0); (130, 0); (250, 0); (360, 0); (40, 1)].

(** A relocation that leaves the template where it is. *)
Definition stay (self : RecordingAugmentation.t) (template : block Q)
    (dist : Z) : block Q := template.

End Pipeline.

(** Three units with templates of constant value 0, 1 and 2, of which units
    2 and 0 are drawn for relocation, in this order. *)
Module Relocation.

Definition calculator : MeanWaveCalculator.t :=
  MeanWaveCalculator.Build
    (RecordingBatchIterator.Build 100 1 [(0%Q, 0%Q)] [])
    1 (Np.range2 (-10) 30) 3
    [replicate 40 [0%Q]; replicate 40 [1%Q]; replicate 40 [2%Q]].

Definition augmentation : RecordingAugmentation.t :=
  RecordingAugmentation.Build calculator [(0%Q, 0%Q)] 1 20 [].

Definition draws : Draws :=
  {| draw_units := fun _ _ => [2; 0];
     draw_dist := fun i => i + 1;
     draw_diffs := fun _ _ => [];
     draw_offsets := fun _ _ _ => [] |}.

End Relocation.

(** Both units of [Pipeline.augmentation] are drawn for relocation, unit 1
    first; the new spike is the one of [Inputs.draws]. *)
Definition draws_both : Draws :=
  {| draw_units := fun _ _ => [1; 0];
     draw_dist := draw_dist Inputs.draws;
     draw_diffs := draw_diffs Inputs.draws;
     draw_offsets := draw_offsets Inputs.draws |}.

(** ** Array objects that share their rows

    Basic slicing of a numpy array, as in [gt[1:3]], does not copy: it yields
    a second array object whose rows are rows of the first.  The functions
    above are written for array objects that own their rows.  The module
    [Shared] gives [clean_spike_train] and the constructor of
    [SpikeSortingEvaluation] for array objects that are ranges of rows of a
    buffer: [arrays] then maps a buffer to its rows, and a [layout] tells,
    for every array object, which rows of which buffer it denotes.  The code
    never changes the shape of an array it is given, so the layout is fixed
    during a run. *)
Module Shared.

Record view := View {
  buffer : positive;
  first : nat;        (* the first row of the buffer that belongs to the array *)
  count : nat         (* the number of rows of the array *)
}.

(** The rows of the buffer [buf] that the array [v] denotes. *)
Definition rows (v : view) (buf : spt_array) : spt_array :=
  take (count v) (drop (first v) buf).

(** The buffer [buf] after the rows of [v] have been overwritten by [new]. *)
Definition write (v : view) (buf new : spt_array) : spt_array :=
  take (first v) buf ++ new ++ drop (first v + length new) buf.

Section Layout.

Variable layout : gmap positive view.

Definition load (l : positive) : M spt_array :=
  fun w => match layout !! l with
           | Some v =>
               match arrays w !! buffer v with
               | Some buf => ok (rows v buf, w)
               | None => raise Dangling
               end
           | None => raise Dangling
           end.

(** An in-place update of the array [l]: it is written to the buffer, where
    every array object that shares the rows sees it. *)
Definition update (l : positive) (f : spt_array → spt_array) : M unit :=
  fun w => match layout !! l with
           | Some v =>
               match arrays w !! buffer v with
               | Some buf =>
                   ok (tt, World (<[buffer v := write v buf (f (rows v buf))]>
                                    (arrays w))
                             (cursor w) (files w))
               | None => raise Dangling
               end
           | None => raise Dangling
           end.

(** [for i, u in enumerate(units): spt[spt[:, 1] == u, 1] = i], from index [i]. *)
Fixpoint clean_loop (spt : positive) (i : Z) (units : list Z) : M unit :=
  match units with
  | [] => mret tt
  | u :: units' =>
      (let* _ := update spt (col1_assign_where u i) in
       clean_loop spt (i + 1) units')%M
  end.

Definition clean_spike_train (spt : positive) : M positive :=
  (let* a := load spt in
   let units := Np.unique (labels a) in            (* a fresh array *)
   let n := Z.of_nat (length units) in
   let* _ := update spt (col1_add n) in            (* spt[:, 1] += len(units) *)
   let units := (fun u => Np.wrap64 (u + n)) <$> units in  (* units += len(units) *)
   let* _ := clean_loop spt 0 units in
   mret spt)%M.

(** [SpikeSortingEvaluation.__init__] up to, and excluding, the call of
    [compute_accuracies]. *)
Definition init_fields (spt_base spt : positive) : M SpikeSortingEvaluation.t :=
  (let* spt_base := clean_spike_train spt_base in
   let* spt := clean_spike_train spt in
   let* a_base := load spt_base in
   let* a := load spt in
   let* m_base := lift (Np.max (labels a_base)) in
   let n_units := m_base + 1 in
   let* m := lift (Np.max (labels a)) in
   let n_clusters := m + 1 in
   let* spike_count_base := lift (SpikeSortingEvaluation.count_spikes a_base) in
   let* spike_count_cluster := lift (SpikeSortingEvaluation.count_spikes a) in
   let confusion_matrix :=
     SpikeSortingEvaluation.compute_confusion_matrix n_units n_clusters a_base a in
   let* true_positive := lift (Np.zeros (Fin 0) n_units) in
   let* false_positive := lift (Np.zeros (Fin 0) n_units) in
   let* unit_cluster_map := lift (Np.zeros 0 n_units) in
   mret (SpikeSortingEvaluation.Build n_units n_clusters spt_base spt
           spike_count_base spike_count_cluster confusion_matrix
           true_positive false_positive unit_cluster_map))%M.

Definition init (spt_base spt : positive) : M SpikeSortingEvaluation.t :=
  (let* self := init_fields spt_base spt in
   lift (SpikeSortingEvaluation.compute_accuracies self))%M.

End Layout.

(** The layout in which the array object [l] owns the [n] rows of the buffer
    of its own name. *)
Definition owner (l : positive) (n : nat) : view := View l 0 n.

(** The layout of a world in which every array object owns its rows. *)
Definition owners (w : world) : gmap positive view :=
  map_imap (fun l (a : spt_array) => Some (owner l (length a))) (arrays w).

(** The rows of [v] are rows of [buf]. *)
Definition fits (v : view) (buf : spt_array) : Prop :=
  (first v + count v ≤ length buf)%nat.

(** Two array objects that denote the same rows, or have no row in common. *)
Definition same_or_apart (v1 v2 : view) : Prop :=
  v1 = v2
  ∨ buffer v1 ≠ buffer v2
  ∨ (first v1 + count v1 ≤ first v2)%nat
  ∨ (first v2 + count v2 ≤ first v1)%nat.

(** A train [gt] of three units and the array object [gt[1:2]]. *)
Definition gt : spt_array := [(100, 0); (500, 1); (1000, 2)].
Definition sliced : gmap positive view :=
  {[ 1%positive := View 1 0 3; 2%positive := View 1 1 1 ]}.
Definition recorded : world := World {[ 1%positive := gt ]} 0 ∅.

(** A buffer of four rows and the array object of its rows 1 to 3. *)
Definition four : spt_array := [(10, 4); (20, 7); (30, 3); (40, 7)].
Definition tail_of_four : gmap positive view :=
  {[ 1%positive := View 1 0 4; 2%positive := View 1 1 3 ]}.
Definition stored : world := World {[ 1%positive := four ]} 0 ∅.

(** The two trains of [Inputs.crossed] as the rows 0 to 2 and the rows 3 to 6
    of one buffer. *)
Definition joined : spt_array :=
  [(100, 0); (500, 0); (1000, 1);
   (100, 1); (500, 1); (1000, 0); (2000, 1)].
Definition halves : gmap positive view :=
  {[ 1%positive := View 1 0 3; 2%positive := View 1 3 4 ]}.
Definition kept : world := World {[ 1%positive := joined ]} 0 ∅.

End Shared.

(** * Properties *)

(** ** int64 wrap-around *)

Section Wrap.

Lemma wrap64_small z : Np.int64 z → Np.wrap64 z = z.
Proof.
  unfold Np.int64, Np.wrap64. intros Hz.
  rewrite Z.mod_small; lia.
Qed.

Lemma wrap64_shift_fresh u n :
  label_ok u → 0 ≤ n ≤ 2 ^ 63 → ¬ (0 ≤ Np.wrap64 (u + n) < n).
Proof.
  unfold label_ok, Np.wrap64. intros Hu Hn.
  destruct (Z_lt_dec (u + n) (2 ^ 63)) as [Hs|Hs].
  - rewrite Z.mod_small; lia.
  - replace (u + n + 2 ^ 63) with (u + n - 2 ^ 63 + 1 * 2 ^ 64) by lia.
    rewrite Z.mod_add by lia. rewrite Z.mod_small; lia.
Qed.

Lemma wrap64_shift_inj x y n :
  label_ok x → label_ok y → 0 ≤ n ≤ 2 ^ 63 →
  Np.wrap64 (x + n) = Np.wrap64 (y + n) → x = y.
Proof.
  unfold label_ok, Np.wrap64. intros Hx Hy Hn.
  destruct (Z_lt_dec (x + n) (2 ^ 63)) as [Hs|Hs];
    destruct (Z_lt_dec (y + n) (2 ^ 63)) as [Ht|Ht].
  - rewrite !Z.mod_small; lia.
  - replace (y + n + 2 ^ 63) with (y + n - 2 ^ 63 + 1 * 2 ^ 64) by lia.
    rewrite Z.mod_add by lia. rewrite !Z.mod_small; lia.
  - replace (x + n + 2 ^ 63) with (x + n - 2 ^ 63 + 1 * 2 ^ 64) by lia.
    rewrite Z.mod_add by lia. rewrite !Z.mod_small; lia.
  - replace (x + n + 2 ^ 63) with (x + n - 2 ^ 63 + 1 * 2 ^ 64) by lia.
    replace (y + n + 2 ^ 63) with (y + n - 2 ^ 63 + 1 * 2 ^ 64) by lia.
    rewrite !Z.mod_add by lia. rewrite !Z.mod_small; lia.
Qed.

End Wrap.

(** ** Distinct values *)

Section Unique.

Lemma unique_elem l x : x ∈ Np.unique l ↔ x ∈ l.
Proof.
  unfold Np.unique. rewrite merge_sort_Permutation.
  apply elem_of_remove_dups.
Qed.

Lemma unique_elem_1 l x : x ∈ Np.unique l → x ∈ l.
Proof. apply unique_elem. Qed.

Lemma unique_elem_2 l x : x ∈ l → x ∈ Np.unique l.
Proof. apply unique_elem. Qed.

Lemma unique_NoDup l : NoDup (Np.unique l).
Proof.
  unfold Np.unique. rewrite merge_sort_Permutation.
  apply NoDup_remove_dups.
Qed.

Lemma unique_length l : length (Np.unique l) = length (remove_dups l).
Proof.
  unfold Np.unique. apply Permutation_length, merge_sort_Permutation.
Qed.

(** Pigeonhole: distinct integers of [0, N) are at most [N]. *)
Lemma NoDup_bounded_length (l : list Z) (N : Z) :
  0 ≤ N → NoDup l → Forall (fun x => 0 ≤ x < N) l → Z.of_nat (length l) ≤ N.
Proof.
  intros HN Hnd Hall.
  assert (Hsub : Z.to_nat <$> l ⊆+ seq 0 (Z.to_nat N)).
  { apply NoDup_submseteq.
    - apply NoDup_fmap_2_strong; [|done].
      intros x y Hx Hy Heq.
      rewrite Forall_forall in Hall.
      pose proof (Hall x Hx). pose proof (Hall y Hy). lia.
    - intros k Hk. apply list_elem_of_fmap in Hk as (x & -> & Hx).
      rewrite Forall_forall in Hall. pose proof (Hall x Hx).
      apply elem_of_seq. lia. }
  apply submseteq_length in Hsub.
  rewrite length_fmap, length_seq in Hsub. lia.
Qed.

Lemma index_of_Some x l k :
  index_of x l = Some k → l !! k = Some x ∧ (k < length l)%nat.
Proof.
  revert k. induction l as [|y l IH]; intros k; simpl; [done|].
  case_bool_decide as Hxy.
  - intros [= <-]. subst. split; [done|lia].
  - destruct (index_of x l) as [k'|] eqn:E; simpl; [|done].
    intros [= <-]. destruct (IH k' eq_refl). split; [done|lia].
Qed.

Lemma index_of_None x l : index_of x l = None ↔ x ∉ l.
Proof.
  induction l as [|y l IH]; simpl.
  - split; [intros _; apply not_elem_of_nil|done].
  - rewrite not_elem_of_cons. case_bool_decide as Hxy.
    + split; [done|]. intros [? _]. done.
    + destruct (index_of x l) as [k'|] eqn:E; simpl.
      * split; [done|]. intros [_ Hn]. apply IH in Hn. done.
      * split; [|done]. intros _. split; [done|]. by apply IH.
Qed.

Lemma index_of_elem x l : x ∈ l → ∃ k, index_of x l = Some k.
Proof.
  intros Hx. destruct (index_of x l) as [k|] eqn:E; [eauto|].
  apply index_of_None in E. done.
Qed.

Lemma index_of_lookup l k x :
  NoDup l → l !! k = Some x → index_of x l = Some k.
Proof.
  intros Hnd Hk.
  destruct (index_of_elem x l) as [k' Hk'].
  { by eapply list_elem_of_lookup_2. }
  apply index_of_Some in Hk' as Hk''. destruct Hk'' as [Hl _].
  rewrite Hk'. f_equal. eapply NoDup_lookup; eauto.
Qed.

Lemma index_of_fmap_inj (f : Z → Z) x l :
  x ∈ l → (∀ y, y ∈ l → f x = f y → x = y) →
  index_of (f x) (f <$> l) = index_of x l.
Proof.
  induction l as [|y l IH]; simpl; [done|].
  intros Hx Hinj. repeat case_bool_decide; subst; try done.
  - exfalso. apply H0. apply Hinj; [left|done].
  - f_equal. apply IH.
    + apply elem_of_cons in Hx as [?|?]; done.
    + intros z Hz. apply Hinj. by right.
Qed.

End Unique.

(** ** [clean_spike_train] *)

Section Clean.

Lemma world_eta w : World (arrays w) (cursor w) (files w) = w.
Proof. by destruct w. Qed.

Lemma update_run l f w a :
  arrays w !! l = Some a →
  update l f w = ok (tt, World (<[l := f a]> (arrays w)) (cursor w) (files w)).
Proof. unfold update. by intros ->. Qed.

Lemma load_run l w a : arrays w !! l = Some a → load l w = ok (a, w).
Proof. unfold load. by intros ->. Qed.

Lemma clean_loop_run l units : ∀ i w a,
  arrays w !! l = Some a →
  clean_loop l i units w
  = ok (tt, World (<[l := relabel_from i units a]> (arrays w))
              (cursor w) (files w)).
Proof.
  induction units as [|u units IH]; intros i w a Ha; simpl.
  - unfold mret. rewrite insert_id by done. by rewrite world_eta.
  - unfold mbind. rewrite (update_run _ _ _ a) by done. simpl.
    rewrite (IH _ _ (col1_assign_where u i a)); simpl.
    + by rewrite insert_insert_eq.
    + apply lookup_insert_eq.
Qed.

Lemma clean_spike_train_run l w a :
  arrays w !! l = Some a →
  clean_spike_train l w
  = ok (l, World (<[l := clean_array a]> (arrays w)) (cursor w) (files w)).
Proof.
  intros Ha. unfold clean_spike_train, mbind.
  rewrite (load_run _ _ a) by done. simpl.
  rewrite (update_run _ _ _ a) by done. simpl.
  erewrite clean_loop_run; [|apply lookup_insert_eq]. simpl.
  unfold mret. by rewrite insert_insert_eq.
Qed.

Lemma relabel_from_spec units : ∀ i a,
  (∀ j, i ≤ j < i + Z.of_nat (length units) → j ∉ units) →
  relabel_from i units a = (fun r => (r.1, rank_label i units r.2)) <$> a.
Proof.
  induction units as [|u units IH]; intros i a Hfresh; simpl.
  - rewrite <- (list_fmap_id a) at 1. apply list_fmap_ext.
    intros k [t x] _. done.
  - rewrite IH.
    2:{ intros j Hj. specialize (Hfresh j). simpl in Hfresh.
        rewrite not_elem_of_cons in Hfresh. apply Hfresh. lia. }
    unfold col1_assign_where. rewrite <- list_fmap_compose.
    apply list_fmap_ext. intros k [t x] _. simpl.
    assert (Hi : index_of i units = None).
    { apply index_of_None. specialize (Hfresh i). simpl in Hfresh.
      rewrite not_elem_of_cons in Hfresh. apply Hfresh. lia. }
    unfold rank_label. simpl.
    case_bool_decide as Hxu; simpl.
    + rewrite Hi. f_equal. lia.
    + destruct (index_of x units) as [k'|]; simpl; f_equal; lia.
Qed.

Lemma unique_bounded l :
  Forall label_ok l → Z.of_nat (length (Np.unique l)) ≤ 2 ^ 63.
Proof.
  intros Hl. apply NoDup_bounded_length; [lia|apply unique_NoDup|].
  apply Forall_forall. intros x Hx. apply unique_elem_1 in Hx.
  rewrite Forall_forall in Hl. by apply Hl.
Qed.

(** The normalized label of a row is the rank of its label among the
    distinct labels. *)
Lemma clean_array_rank a :
  Forall label_ok (labels a) →
  clean_array a
  = (fun r => (r.1, rank_label 0 (Np.unique (labels a)) r.2)) <$> a.
Proof.
  intros Hok. unfold clean_array.
  pose proof (unique_bounded _ Hok) as Hn.
  set (units := Np.unique (labels a)) in *.
  set (n := Z.of_nat (length units)) in *.
  assert (Hunits : ∀ u, u ∈ units → label_ok u).
  { intros u Hu. apply unique_elem_1 in Hu.
    rewrite Forall_forall in Hok. by apply Hok. }
  rewrite relabel_from_spec.
  2:{ rewrite length_fmap. intros j Hj Hin.
      apply list_elem_of_fmap in Hin as (u & -> & Hu).
      eapply wrap64_shift_fresh; [by apply Hunits| |exact Hj]. lia. }
  unfold col1_add. rewrite <- list_fmap_compose.
  apply list_fmap_ext. intros k [t x] Hk. simpl. f_equal.
  assert (Hx : x ∈ units).
  { apply unique_elem_2. unfold labels.
    apply list_elem_of_fmap. exists (t, x). split; [done|].
    by eapply list_elem_of_lookup_2. }
  unfold rank_label.
  rewrite (index_of_fmap_inj (fun u => Np.wrap64 (u + n))); [|done|].
  - destruct (index_of_elem _ _ Hx) as [k' ->]. done.
  - intros y Hy. apply wrap64_shift_inj; auto. lia.
Qed.

Lemma relabel_from_times units : ∀ i b,
  times (relabel_from i units b) = times b.
Proof.
  induction units as [|u units IH]; intros i b; simpl; [done|].
  rewrite IH. unfold times, col1_assign_where.
  rewrite <- list_fmap_compose. apply list_fmap_ext.
  intros k [t x] _. simpl. by case_bool_decide.
Qed.

Lemma clean_array_times a : times (clean_array a) = times a.
Proof.
  unfold clean_array. rewrite relabel_from_times.
  unfold times, col1_add. rewrite <- list_fmap_compose.
  apply list_fmap_ext. by intros k [t x] _.
Qed.

Lemma clean_array_labels a :
  Forall label_ok (labels a) →
  labels (clean_array a)
  = rank_label 0 (Np.unique (labels a)) <$> labels a.
Proof.
  intros Hok. rewrite clean_array_rank by done.
  unfold labels. rewrite <- !list_fmap_compose.
  apply list_fmap_ext. by intros k [t x] _.
Qed.

Lemma clean_array_range a v :
  Forall label_ok (labels a) →
  v ∈ labels (clean_array a)
  ↔ 0 ≤ v < Z.of_nat (length (Np.unique (labels a))).
Proof.
  intros Hok. rewrite clean_array_labels by done.
  set (units := Np.unique (labels a)).
  split.
  - intros Hv. apply list_elem_of_fmap in Hv as (x & -> & Hx).
    apply unique_elem_2 in Hx. fold units in Hx.
    apply index_of_elem in Hx as [k Hk].
    unfold rank_label. rewrite Hk.
    apply index_of_Some in Hk as [_ Hlt]. lia.
  - intros Hv.
    destruct (lookup_lt_is_Some_2 units (Z.to_nat v)) as [x Hx]; [lia|].
    apply list_elem_of_fmap. exists x. split.
    + unfold rank_label.
      rewrite (index_of_lookup units (Z.to_nat v) x);
        [lia|apply unique_NoDup|done].
    + apply unique_elem_1. by eapply list_elem_of_lookup_2.
Qed.

End Clean.

(** ** Normalized trains and spike counts *)

Section Counts.

Lemma clean_array_nonempty a : a ≠ [] → clean_array a ≠ [].
Proof.
  intros Ha Hc. apply Ha.
  apply (f_equal times) in Hc. rewrite clean_array_times in Hc.
  destruct a; [done|discriminate].
Qed.

Lemma normalized_clean a :
  a ≠ [] → Forall label_ok (labels a) → normalized (clean_array a).
Proof.
  intros Ha Hok. split; [by apply clean_array_nonempty|].
  exists (Z.of_nat (length (Np.unique (labels a)))). split.
  - by apply unique_bounded.
  - intros v. by apply clean_array_range.
Qed.

Lemma normalized_label_ok a : normalized a → Forall label_ok (labels a).
Proof.
  intros [_ (U & HU & Hl)]. apply Forall_forall. intros x Hx.
  apply Hl in Hx. unfold label_ok. lia.
Qed.

Lemma foldl_max_ge l : ∀ x, x ≤ foldl Z.max x l.
Proof.
  induction l as [|y l IH]; intros x; simpl; [lia|].
  specialize (IH (Z.max x y)). lia.
Qed.

Lemma foldl_max_upper l : ∀ x y, y ∈ l → y ≤ foldl Z.max x l.
Proof.
  induction l as [|z l IH]; intros x y Hy; simpl.
  - by apply not_elem_of_nil in Hy.
  - apply elem_of_cons in Hy as [->|Hy].
    + pose proof (foldl_max_ge l (Z.max x z)). lia.
    + by apply IH.
Qed.

Lemma foldl_max_elem l : ∀ x, foldl Z.max x l = x ∨ foldl Z.max x l ∈ l.
Proof.
  induction l as [|z l IH]; intros x; simpl; [by left|].
  destruct (IH (Z.max x z)) as [E|E].
  - rewrite E. destruct (Z.max_spec x z) as [[_ ->]|[_ ->]];
      [right; left|by left].
  - right. by right.
Qed.

Lemma max_normalized a U :
  a ≠ [] → (∀ v, v ∈ labels a ↔ 0 ≤ v < U) →
  Np.max (labels a) = ok (U - 1).
Proof.
  intros Ha Hl. destruct a as [|[t x] a]; [done|].
  simpl. unfold ok. f_equal.
  set (m := foldl Z.max x (labels a)).
  assert (Hm : m ∈ labels ((t, x) :: a)).
  { destruct (foldl_max_elem (labels a) x) as [E|E]; fold m in E.
    - rewrite E. left.
    - right. done. }
  assert (Hup : ∀ y, y ∈ labels ((t, x) :: a) → y ≤ m).
  { intros y Hy. apply elem_of_cons in Hy as [->|Hy].
    - apply foldl_max_ge.
    - by apply foldl_max_upper. }
  apply Hl in Hm.
  destruct (Z_lt_dec m (U - 1)) as [Hlt|Hge]; [|lia].
  assert (HU : U - 1 ∈ labels ((t, x) :: a)) by (apply Hl; lia).
  apply Hup in HU. lia.
Qed.

Lemma count_spikes_positive a :
  normalized a →
  ∃ counts, SpikeSortingEvaluation.count_spikes a = ok counts
            ∧ Forall (fun c => 0 < c) counts.
Proof.
  intros [Ha (U & HU & Hl)].
  unfold SpikeSortingEvaluation.count_spikes.
  rewrite (max_normalized a U) by done. simpl.
  assert (HU0 : 0 < U).
  { destruct a as [|[t x] a]; [done|].
    assert (x ∈ labels ((t, x) :: a)) as Hx by left.
    apply Hl in Hx. lia. }
  unfold Np.zeros. replace (U - 1 + 1) with U by lia.
  destruct (Z.ltb_spec U 0) as [?|_]; [lia|]. simpl.
  eexists. split; [reflexivity|].
  apply Forall_fmap, Forall_forall. intros u Hu. simpl.
  apply elem_of_seqZ in Hu.
  assert (Hin : u ∈ labels a) by (apply Hl; lia).
  apply list_elem_of_fmap in Hin as ([t x] & -> & Hr). simpl in *.
  assert (Hf : (t, x) ∈ filter (fun r : Z * Z => r.2 = x) a).
  { apply list_elem_of_filter. done. }
  destruct (filter (fun r : Z * Z => r.2 = x) a); simpl; [|lia].
  by apply not_elem_of_nil in Hf.
Qed.

Lemma broadcast2_Forall {A B C} (f : A → B → C) (P : C → Prop) xs ys zs :
  (∀ x y, y ∈ ys → P (f x y)) →
  broadcast2 f xs ys = ok zs → Forall P zs.
Proof.
  intros Hf. unfold broadcast2. case_bool_decide as Hlen.
  - intros [= <-]. apply Forall_forall. intros z Hz.
    apply elem_of_lookup_zip_with in Hz as (i & x & y & -> & _ & Hy).
    apply Hf. by eapply list_elem_of_lookup_2.
  - destruct xs as [|x [|x' xs]].
    + destruct ys as [|y [|y' ys]]; [done| |done].
      intros [= <-]. constructor.
    + intros [= <-]. apply Forall_forall. intros z Hz.
      apply list_elem_of_fmap in Hz as (y & -> & Hy). by apply Hf.
    + destruct ys as [|y [|y' ys]]; [done| |done].
      intros [= <-].
      assert (Hall : ∀ l : list A, Forall P ((fun x => f x y) <$> l)).
      { intros l. apply Forall_forall. intros z Hz.
        apply list_elem_of_fmap in Hz as (x0 & -> & _). apply Hf. left. }
      apply (Hall (x :: x' :: xs)).
Qed.

Lemma take_elem {A} (a : list A) idx xs :
  Np.take a idx = ok xs → ∀ x, x ∈ xs → x ∈ a.
Proof.
  revert xs. induction idx as [|i idx IH]; intros xs; simpl.
  - intros [= <-] x Hx. by apply not_elem_of_nil in Hx.
  - unfold Np.index. destruct (Np.norm_index (length a) i) as [e|k]; [done|].
    simpl. destruct (a !! k) as [y|] eqn:Hk; [|done]. simpl.
    destruct (Np.take a idx) as [e|ys]; [done|]. simpl.
    intros [= <-] x Hx. apply elem_of_cons in Hx as [->|Hx].
    + by eapply list_elem_of_lookup_2.
    + by eapply IH.
Qed.

Lemma true_divide_finite a b : b ≠ 0 → is_finite (true_divide a b).
Proof.
  intros Hb. unfold true_divide.
  destruct (Z.eqb_spec b 0); [done|]. exact I.
Qed.

Lemma compute_accuracies_finite self self' :
  Forall (fun c => 0 < c) (SpikeSortingEvaluation.spike_count_base self) →
  Forall (fun c => 0 < c) (SpikeSortingEvaluation.spike_count_cluster self) →
  SpikeSortingEvaluation.compute_accuracies self = ok self' →
  Forall is_finite (SpikeSortingEvaluation.true_positive self')
  ∧ Forall is_finite (SpikeSortingEvaluation.false_positive self').
Proof.
  intros Hb Hc. unfold SpikeSortingEvaluation.compute_accuracies.
  destruct (mapM_res Np.argmax _) as [e|ucm]; [done|]. simpl.
  destruct (mapM_res Np.max _) as [e|recovered]; [done|]. simpl.
  destruct (broadcast2 true_divide recovered _) as [e|tp] eqn:Htp; [done|].
  simpl.
  destruct (Np.take _ ucm) as [e|match_count] eqn:Hmc; [done|]. simpl.
  destruct (broadcast2 Z.sub match_count recovered) as [e|missed]; [done|].
  simpl.
  destruct (broadcast2 true_divide missed match_count) as [e|fp] eqn:Hfp;
    [done|]. simpl.
  intros [= <-]. simpl. split.
  - eapply broadcast2_Forall; [|exact Htp].
    intros x y Hy. apply true_divide_finite.
    rewrite Forall_forall in Hb. apply Hb in Hy. lia.
  - eapply broadcast2_Forall; [|exact Hfp].
    intros x y Hy. apply true_divide_finite.
    eapply take_elem in Hy; [|exact Hmc].
    rewrite Forall_forall in Hc. apply Hc in Hy. lia.
Qed.

End Counts.

(** ** The claims on [clean_spike_train] *)

(** C8: for a spike train whose labels are not negative, the labels left by
    [clean_spike_train] are exactly [0 .. U-1], [U] being the number of
    distinct labels of the input, and the normalized label of a row is a
    function of its original label (which sends distinct labels to distinct
    labels). *)
Theorem clean_spike_train_contiguous (w : world) (spt : positive) (a : spt_array) :
  arrays w !! spt = Some a →
  Forall label_ok (labels a) →
  ∃ w' a',
    clean_spike_train spt w = ok (spt, w')
    ∧ arrays w' !! spt = Some a'
    ∧ (∀ v, v ∈ labels a'
            ↔ 0 ≤ v < Z.of_nat (length (remove_dups (labels a))))
    ∧ ∃ f : Z → Z,
        labels a' = f <$> labels a
        ∧ ∀ x y, x ∈ labels a → y ∈ labels a → f x = f y → x = y.
Proof.
  intros Ha Hok. eexists _, (clean_array a). split; [|split; [|split]].
  - by apply clean_spike_train_run.
  - simpl. apply lookup_insert_eq.
  - intros v. rewrite <- unique_length. by apply clean_array_range.
  - exists (rank_label 0 (Np.unique (labels a))). split.
    + by apply clean_array_labels.
    + intros x y Hx Hy. unfold rank_label.
      apply unique_elem_2, index_of_elem in Hx as [i Hi].
      apply unique_elem_2, index_of_elem in Hy as [j Hj].
      rewrite Hi, Hj. intros Hij. assert (i = j) as -> by lia.
      apply index_of_Some in Hi as [Hi _]. apply index_of_Some in Hj as [Hj _].
      congruence.
Qed.

Lemma clean_spike_train_contiguous_witness :
  ∃ w' a',
    clean_spike_train 1 Inputs.gappy = ok (1%positive, w')
    ∧ arrays w' !! 1%positive = Some a'
    ∧ (∀ v, v ∈ labels a'
            ↔ 0 ≤ v < Z.of_nat (length (remove_dups (labels Inputs.gaps))))
    ∧ ∃ f : Z → Z,
        labels a' = f <$> labels Inputs.gaps
        ∧ ∀ x y, x ∈ labels Inputs.gaps → y ∈ labels Inputs.gaps →
                 f x = f y → x = y.
Proof.
  apply (clean_spike_train_contiguous Inputs.gappy 1 Inputs.gaps).
  - reflexivity.
  - repeat constructor; unfold label_ok; simpl; lia.
Defined.

(** C9, as stated, fails: the call overwrites the label column of the array
    it is given. *)
Lemma clean_spike_train_mutates_argument :
  ∃ w', clean_spike_train 1 Inputs.single = ok (1%positive, w')
        ∧ arrays w' !! 1%positive = Some [(100, 0)]
        ∧ arrays w' !! 1%positive ≠ arrays Inputs.single !! 1%positive.
Proof.
  eexists. split; [|split].
  - apply (clean_spike_train_run 1 Inputs.single [(100, 5)]). reflexivity.
  - simpl. rewrite lookup_insert_eq. reflexivity.
  - simpl. rewrite lookup_insert_eq. unfold Inputs.single. simpl.
    rewrite lookup_singleton_eq. intros [=].
Qed.

(** ** The claims on [SpikeSortingEvaluation] *)

(** C2: on the scenario of the specification the constructor yields the
    confusion matrix [[1,0],[0,1]], the true-positive rates 1/2 and 1, and
    the false-discovery rates 0 and 0. *)
Theorem scenario_rates :
  ∃ self w',
    SpikeSortingEvaluation.init 1 2 Inputs.scenario = ok (self, w')
    ∧ SpikeSortingEvaluation.confusion_matrix self = [[1; 0]; [0; 1]]
    ∧ SpikeSortingEvaluation.true_positive self = [Fin (1 # 2); Fin 1]
    ∧ SpikeSortingEvaluation.false_positive self = [Fin 0; Fin 0].
Proof.
  eexists _, _. split; [vm_compute; reflexivity|].
  repeat split.
Qed.

(** C3 fails on the code: [match_count] indexes the spike counts of the
    clusters by the index of the best-matching reference unit, so each rate
    is taken against the count of another cluster.  On two normalized trains
    whose best matches are off the diagonal the code yields the rates 2/3 and
    -1 where the claim gives 0 and 1/3. *)
Theorem false_discovery_uses_foreign_count :
  ∃ self w',
    SpikeSortingEvaluation.init 1 2 Inputs.crossed = ok (self, w')
    ∧ arrays w' = arrays Inputs.crossed
    ∧ SpikeSortingEvaluation.confusion_matrix self = [[0; 2]; [1; 0]]
    ∧ SpikeSortingEvaluation.spike_count_cluster self = [1; 3]
    ∧ SpikeSortingEvaluation.unit_cluster_map self = [1; 0]
    ∧ SpikeSortingEvaluation.false_positive self = [Fin (2 # 3); Fin (-1)]
    ∧ false_discovery_of_clusters self = ok [Fin 0; Fin (1 # 3)].
Proof.
  eexists _, _. split; [vm_compute; reflexivity|].
  repeat split.
Qed.

(** ** The claims on [MeanWaveCalculator] and [RecordingAugmentation] *)

(** C4 fails on the code for a window that starts before the batch: numpy
    takes the negative indices from the end of the batch and raises nothing.
    A spike 5 samples into the first batch is counted for its unit, its
    snippet (rows 95..99 and 0..34 of the batch) is added to the template,
    and no boundary violation is recorded. *)
Theorem window_before_batch_start_wraps :
  ∃ self w' st w'',
    MeanWaveCalculator.init Inputs.ramp 1 Inputs.early = ok (self, w')
    ∧ MeanWaveCalculator.templates self
      = [(fun r => [inject_Z r]) <$> (Np.range2 95 100 ++ Np.range 35)]
    ∧ MeanWaveCalculator.accumulate_batches Inputs.fresh_calculator 5
        Inputs.early = ok (st, w'')
    ∧ MeanWaveCalculator.acc_counts st = [1]
    ∧ MeanWaveCalculator.boundary_violation st = 0.
Proof.
  eexists _, _, _, _. split; [vm_compute; reflexivity|].
  split; [vm_compute; reflexivity|].
  split; [vm_compute; reflexivity|].
  split; reflexivity.
Qed.

(** C5 fails on the code: the guard [len(spt > 2)] is the number of rows of
    the whole train, so the statistics are computed for every unit.  A unit
    with a single spike gets the row (nan, nan, 1), not the zero row. *)
Theorem lone_spike_summary_is_nan :
  ∃ self w',
    Inputs.augmentation Inputs.flat 1 Inputs.two_units = ok (self, w')
    ∧ times_of [(20, 0); (130, 0); (250, 0); (360, 0); (40, 1)] 1 = [40]
    ∧ RecordingAugmentation.stat_summary self !! 1%nat
      = Some (SNan, SNan, SCount 1).
Proof.
  eexists _, _. split; [vm_compute; reflexivity|].
  split; reflexivity.
Qed.

(** C1 fails on the code: [self.window] raises AttributeError for every
    spike, the bare [except] counts it as a boundary violation, and the
    batches are written as they were read, only scaled.  The new spike of
    unit 0 at time 210 (sample 10 of the third batch, its window inside the
    batch) leaves the third batch at 1000 everywhere. *)
Theorem no_template_is_injected
    (move_spatial_trace : RecordingAugmentation.t → block Q → Z → block Q) :
  ∃ self w0 w',
    Inputs.augmentation Inputs.flat 1 Inputs.two_units = ok (self, w0)
    ∧ MeanWaveCalculator.templates (RecordingAugmentation.template_comp self)
      = [replicate 40 [1%Q]; replicate 40 [1%Q]]
    ∧ RecordingAugmentation.augment move_spatial_trace self Inputs.draws
        "out" 3 (1 # 5) 1000 w0
      = ok (([(210, 0)], 1), w')
    ∧ files w' !! "out" = Some (replicate 3 (replicate 100 [1000])).
Proof.
  eexists _, _, _. split; [vm_compute; reflexivity|].
  split; [vm_compute; reflexivity|].
  split; [vm_compute; reflexivity|].
  vm_compute. reflexivity.
Qed.

(** C6 fails on the code: the first unit drawn for relocation gets the index
    0 in [moved], which reads as not moved.  With unit 0 the only unit drawn
    out of two, [moved] stays [0, 0] and the new spike of unit 0 keeps the
    label 0 in the returned train. *)
Theorem first_moved_unit_keeps_its_label
    (move_spatial_trace : RecordingAugmentation.t → block Q → Z → block Q) :
  ∃ self w0 w' moved_templates,
    Inputs.augmentation Inputs.flat 1 Inputs.two_units = ok (self, w0)
    ∧ MeanWaveCalculator.n_units (RecordingAugmentation.template_comp self) = 2
    ∧ draw_units Inputs.draws 2 (py_int ((1 # 2) * 2)) = [0]
    ∧ RecordingAugmentation.choose_moved move_spatial_trace self Inputs.draws
        (1 # 2) = ok ([0; 0], moved_templates)
    ∧ RecordingAugmentation.save_augment_recording move_spatial_trace self
        Inputs.draws "out" 3 (1 # 2) 1000 w0
      = ok ([(20, 0); (130, 0); (250, 0); (360, 0); (40, 1); (210, 0)], w').
Proof.
  eexists _, _, _, _. split; [vm_compute; reflexivity|].
  split; [reflexivity|].
  split; [reflexivity|].
  split; [vm_compute; reflexivity|].
  vm_compute. reflexivity.
Qed.

(** C7, as stated, fails: the gaps are added one by one, not summed up.
    With the sorted anchors 100 and 300 and the gaps 70 and 80 the new times
    are 170 and 380, where the cumulative gaps would give 170 and 450. *)
Lemma fake_times_are_not_cumulative :
  ∃ self w0 rows w',
    Inputs.augmentation Inputs.flat 1 Inputs.eight = ok (self, w0)
    ∧ RecordingAugmentation.make_fake_spike_train self Inputs.draws_two
        (1 # 4) w0 = ok (rows, w')
    ∧ times rows = [170; 380]
    ∧ cumulative_times [300; 100] (refractory <$> [70; 80]) = [170; 450]
    ∧ times rows ≠ cumulative_times [300; 100] (refractory <$> [70; 80]).
Proof.
  eexists _, _, _, _. split; [vm_compute; reflexivity|].
  split; [vm_compute; reflexivity|].
  split; [reflexivity|]. split; [reflexivity|].
  intros [=].
Qed.

(** ** The new spike times of [make_fake_spike_train] *)

Section FakeTrain.

Variables (self : RecordingAugmentation.t) (d : Draws) (rate : Q)
          (spt : spt_array).

Local Abbreviation new_rows := (new_rows_of self d rate spt).

Lemma sort_length l : length (Np.sort l) = length l.
Proof. apply Permutation_length, merge_sort_Permutation. Qed.

Lemma zip_replicate (l : list Z) (u : Z) :
  zip l (replicate (length l) u) = (fun t => (t, u)) <$> l.
Proof. induction l as [|x l IH]; simpl; [done|]. by rewrite IH. Qed.

Lemma filter_tagged_same (l : list Z) (v : Z) :
  filter (fun r : Z * Z => r.2 = v) ((fun t => (t, v)) <$> l)
  = (fun t => (t, v)) <$> l.
Proof.
  induction l as [|t l IH]; [done|].
  rewrite fmap_cons, filter_cons_True by done. by rewrite IH.
Qed.

Lemma filter_tagged_other (l : list Z) (u v : Z) :
  v ≠ u → filter (fun r : Z * Z => r.2 = u) ((fun t => (t, v)) <$> l) = [].
Proof.
  intros Hv. induction l as [|t l IH]; [done|].
  rewrite fmap_cons, filter_cons_False by done. by rewrite IH.
Qed.

Lemma fake_spikes_of_run u :
  draws_fit self d rate spt u →
  ∃ new_times new_cid,
    RecordingAugmentation.fake_spikes_of self d rate spt u
    = ok (new_times, new_cid)
    ∧ length new_times = length new_cid
    ∧ zip new_times new_cid = new_rows u.
Proof.
  intros (n & Hn & Hrange & Hgaps & Hanchors).
  assert (Hc : count_of self rate u = n) by (unfold count_of; by rewrite Hn).
  unfold new_rows_of, anchors_of, gaps_of, elementwise_times in *.
  rewrite Hc in *.
  unfold RecordingAugmentation.fake_spikes_of. rewrite Hn. simpl.
  destruct (Z.ltb_spec n 0) as [?|_]; [lia|]. simpl.
  rewrite sort_length.
  destruct (Z.ltb_spec (Z.of_nat (length (times_of spt u))) n) as [?|_];
    [lia|]. simpl.
  unfold broadcast2. rewrite bool_decide_eq_true_2.
  2:{ rewrite sort_length, length_fmap. congruence. }
  simpl. eexists _, _. split; [reflexivity|].
  assert (Hlen : length (zip_with (fun a b : Z => Np.wrap64 (a + b))
            (Np.sort (draw_offsets d u (Np.sort (times_of spt u)) n))
            (refractory <$> draw_diffs d u n)) = Z.to_nat n).
  { rewrite length_zip_with, sort_length, length_fmap. lia. }
  split.
  - by rewrite length_replicate.
  - rewrite <- Hlen at 1. rewrite zip_replicate. f_equal.
    rewrite zip_with_fmap_r. done.
Qed.

Lemma fake_loop_run units : ∀ times cid,
  length times = length cid →
  (∀ u, u ∈ units → draws_fit self d rate spt u) →
  ∃ times' cid',
    RecordingAugmentation.fake_loop self d rate spt units times cid
    = ok (times', cid')
    ∧ length times' = length cid'
    ∧ zip times' cid' = zip times cid ++ concat (new_rows <$> units).
Proof.
  induction units as [|u units IH]; intros times cid Hlen Hfit; simpl.
  - eexists _, _. split; [reflexivity|]. split; [done|].
    by rewrite app_nil_r.
  - destruct (fake_spikes_of_run u) as (nt & nc & -> & Hl & Hz).
    { apply Hfit. left. }
    simpl.
    destruct (IH (times ++ nt) (cid ++ nc)) as (t' & c' & -> & Hl' & Hz').
    { rewrite !length_app. lia. }
    { intros v Hv. apply Hfit. by right. }
    eexists _, _. split; [reflexivity|]. split; [done|].
    rewrite Hz'. rewrite (zip_with_app pair times nt cid nc Hlen).
    rewrite Hz. by rewrite <- app_assoc.
Qed.

Lemma filter_new_rows units u :
  NoDup units → u ∈ units →
  filter (fun r : Z * Z => r.2 = u) (concat (new_rows <$> units))
  = new_rows u.
Proof.
  assert (Hsame : ∀ v, filter (fun r : Z * Z => r.2 = v) (new_rows v)
                       = new_rows v).
  { intros v. apply filter_tagged_same. }
  assert (Hother : ∀ v, v ≠ u →
            filter (fun r : Z * Z => r.2 = u) (new_rows v) = []).
  { intros v Hv. by apply filter_tagged_other. }
  assert (Hnone : ∀ l, u ∉ l →
            filter (fun r : Z * Z => r.2 = u) (concat (new_rows <$> l)) = []).
  { induction l as [|v l IH]; intros Hu; [done|].
    apply not_elem_of_cons in Hu as [Hne Hu].
    rewrite fmap_cons, concat_cons, filter_app, Hother, IH by done. done. }
  induction units as [|v units IH]; intros Hnd Hu.
  - by apply not_elem_of_nil in Hu.
  - apply NoDup_cons in Hnd as [Hv Hnd].
    rewrite fmap_cons, concat_cons, filter_app.
    apply elem_of_cons in Hu as [->|Hu].
    + rewrite Hsame, Hnone by done. by rewrite app_nil_r.
    + rewrite Hother, IH by (done || intros ->; done). done.
Qed.

End FakeTrain.

(** C7, amended: for each unit the new spike times are the sorted anchors
    with the gaps added element by element, the k-th new time being the k-th
    sorted anchor plus the k-th gap (raised by the refractory period where it
    is below it); no cumulative sum is taken. *)
Theorem fake_times_are_elementwise (self : RecordingAugmentation.t)
    (d : Draws) (rate : Q) (w : world) (spt : spt_array) :
  let n_units :=
    MeanWaveCalculator.n_units (RecordingAugmentation.template_comp self) in
  arrays w !! MeanWaveCalculator.spike_train
                (RecordingAugmentation.template_comp self) = Some spt →
  (∀ u, 0 ≤ u < n_units → draws_fit self d rate spt u) →
  ∃ rows,
    RecordingAugmentation.make_fake_spike_train self d rate w = ok (rows, w)
    ∧ ∀ u, 0 ≤ u < n_units →
        filter (fun r : Z * Z => r.2 = u) rows
        = (fun t => (t, u))
            <$> elementwise_times (anchors_of self d rate spt u)
                  (gaps_of self d rate u).
Proof.
  intros n_units Hload Hfit.
  destruct (fake_loop_run self d rate spt (Np.range n_units) [] [])
    as (times' & cid' & Hloop & Hlen & Hzip); [done| |].
  { intros u Hu. apply Hfit. apply elem_of_seqZ in Hu. lia. }
  exists (zip times' cid'). split.
  - unfold RecordingAugmentation.make_fake_spike_train, mbind.
    rewrite (load_run _ _ spt) by done. simpl.
    fold n_units. rewrite Hloop. simpl.
    unfold RecordingAugmentation.columns.
    by rewrite bool_decide_eq_true_2.
  - intros u Hu. rewrite Hzip. simpl.
    apply filter_new_rows; [apply NoDup_seqZ|].
    apply elem_of_seqZ. lia.
Qed.

Lemma fake_times_are_elementwise_witness :
  ∃ rows,
    RecordingAugmentation.make_fake_spike_train Inputs.eight_augmentation
      Inputs.draws_two (1 # 4) Inputs.eight_world
    = ok (rows, Inputs.eight_world)
    ∧ ∀ u, 0 ≤ u < MeanWaveCalculator.n_units
                     (RecordingAugmentation.template_comp
                        Inputs.eight_augmentation) →
        filter (fun r : Z * Z => r.2 = u) rows
        = (fun t => (t, u))
            <$> elementwise_times
                  (anchors_of Inputs.eight_augmentation Inputs.draws_two
                     (1 # 4) Inputs.eight_train u)
                  (gaps_of Inputs.eight_augmentation Inputs.draws_two (1 # 4) u).
Proof.
  apply (fake_times_are_elementwise Inputs.eight_augmentation
           Inputs.draws_two (1 # 4) Inputs.eight_world Inputs.eight_train).
  - vm_compute. reflexivity.
  - intros u Hu.
    assert (Hn : MeanWaveCalculator.n_units
                   (RecordingAugmentation.template_comp
                      Inputs.eight_augmentation) = 1)
      by (vm_compute; reflexivity).
    rewrite Hn in Hu. assert (u = 0) as -> by lia.
    exists 2. split; [vm_compute; reflexivity|].
    split; [simpl; lia|]. split; vm_compute; reflexivity.
Defined.

(** ** Windows past the end of a batch *)

Section BatchEnd.

Lemma take_raises {A} (a : list A) (idx : list Z) (i : Z) :
  i ∈ idx → Z.of_nat (length a) ≤ i → ∃ e, Np.take a idx = inl e.
Proof.
  induction idx as [|j idx IH]; intros Hi Hlen.
  - by apply not_elem_of_nil in Hi.
  - simpl. apply elem_of_cons in Hi as [<-|Hi].
    + unfold Np.index, Np.norm_index.
      destruct (Z.leb_spec (Z.of_nat (length a)) i) as [_|?]; [|lia].
      rewrite orb_true_r. simpl. eauto.
    + destruct (Np.index a j) as [e|x]; simpl; [eauto|].
      destruct (IH Hi Hlen) as [e ->]. simpl. eauto.
Qed.

(** X12: a spike one of whose window samples lies at or after the end of the
    batch only adds one to the boundary violations: templates and counts
    are left as they were. *)
Lemma past_batch_end_is_violation (window : list Z) (ts : block Q)
    (st : MeanWaveCalculator.acc) (r : Z * Z) (k : Z) :
  k ∈ window → Z.of_nat (length ts) ≤ Np.wrap64 (r.1 + k) →
  MeanWaveCalculator.accumulate_spike window ts st r
  = MeanWaveCalculator.Acc (MeanWaveCalculator.acc_templates st)
      (MeanWaveCalculator.acc_counts st)
      (MeanWaveCalculator.boundary_violation st + 1).
Proof.
  intros Hk Hlen.
  destruct (take_raises ts (window_at r.1 window) (Np.wrap64 (r.1 + k)))
    as [e He]; [|done|].
  { unfold window_at. apply list_elem_of_fmap. eauto. }
  unfold MeanWaveCalculator.accumulate_spike, MeanWaveCalculator.accumulate.
  destruct (Np.norm_index _ r.2) as [?|u]; simpl; [done|].
  destruct (Np.index _ r.2) as [?|template]; simpl; [done|].
  by rewrite He.
Qed.

End BatchEnd.

(** ** The injection of templates *)

Section Injection.

(** Whatever the spike, the body of the [try] of [save_augment_recording]
    raises: the batch is left as it was read and the counter of boundary
    violations goes up by one. *)
Lemma inject_spike_skips (self : RecordingAugmentation.t) (moved : list Z)
    (moved_templates orig_templates : list (block Q))
    (ts : block Q) (n : Z) (r : Z * Z) :
  RecordingAugmentation.inject_spike self moved moved_templates orig_templates
    (ts, n) r = (ts, n + 1).
Proof.
  unfold RecordingAugmentation.inject_spike, RecordingAugmentation.inject.
  simpl. destruct (Np.index moved r.2) as [e|m]; simpl; [done|].
  by destruct (negb (m =? 0)).
Qed.

End Injection.

(** * Further properties of the code *)

(** ** [count_matches] *)

Section CountMatches.

Local Abbreviation cm := SpikeSortingEvaluation.count_matches.

Lemma count_matches_cons x a y b :
  cm (x :: a) (y :: b)
  = if close x y then 1 + cm a b
    else if x <? y then cm a (y :: b) else cm (x :: a) b.
Proof. reflexivity. Qed.

Lemma count_matches_nil_r a : cm a [] = 0.
Proof. by destruct a. Qed.

Lemma close_refl x : close x x = true.
Proof. unfold close. by rewrite Z.sub_diag. Qed.

Lemma wrap64_opp_abs z : Z.abs (Np.wrap64 (- z)) = Z.abs (Np.wrap64 z).
Proof.
  unfold Np.wrap64.
  change (2 ^ 63) with 9223372036854775808.
  change (2 ^ 64) with 18446744073709551616.
  Z.div_mod_to_equations. lia.
Qed.

Lemma close_sym x y : close x y = close y x.
Proof.
  unfold close. replace (y - x) with (- (x - y)) by lia.
  by rewrite wrap64_opp_abs.
Qed.

Lemma close_false_ne x y : close x y = false → x ≠ y.
Proof. intros H ->. by rewrite close_refl in H. Qed.

(** X1: matching an array of spike times against itself counts every one of
    its spikes, sorted or not. *)
Theorem count_matches_self (a : list Z) :
  SpikeSortingEvaluation.count_matches a a = Z.of_nat (length a).
Proof.
  induction a as [|x a IH]; [done|].
  rewrite count_matches_cons, close_refl, IH. simpl length. lia.
Qed.

(** X2: the number of matches is never negative and never exceeds the length
    of either array: no spike is matched twice. *)
Theorem count_matches_bound (a b : list Z) :
  0 ≤ SpikeSortingEvaluation.count_matches a b
  ≤ Z.min (Z.of_nat (length a)) (Z.of_nat (length b)).
Proof.
  revert b. induction a as [|x a IHa]; intros b; [simpl; lia|].
  induction b as [|y b IHb]; [rewrite count_matches_nil_r; simpl; lia|].
  rewrite count_matches_cons. destruct (close x y).
  - specialize (IHa b). simpl length. lia.
  - destruct (x <? y).
    + specialize (IHa (y :: b)). simpl length in *. lia.
    + simpl length in *. lia.
Qed.

(** X3: the count does not depend on which of the two arrays is given
    first. *)
Theorem count_matches_sym (a b : list Z) :
  SpikeSortingEvaluation.count_matches a b
  = SpikeSortingEvaluation.count_matches b a.
Proof.
  revert b. induction a as [|x a IHa]; intros b.
  - by rewrite count_matches_nil_r.
  - induction b as [|y b IHb]; [done|].
    rewrite !count_matches_cons, (close_sym y x).
    destruct (close x y) eqn:E.
    + f_equal. apply IHa.
    + apply close_false_ne in E.
      destruct (Z.ltb_spec x y), (Z.ltb_spec y x);
        first [apply IHa | apply IHb | lia].
Qed.

End CountMatches.

(** ** Spike counts and the fields of the evaluation *)

Section Evaluation.

Lemma np_max_spec (l : list Z) :
  l ≠ [] → Np.max l = ok (max_of l) ∧ max_of l ∈ l ∧ ∀ x, x ∈ l → x ≤ max_of l.
Proof.
  destruct l as [|x l]; [done|]. intros _. simpl. split; [done|]. split.
  - destruct (foldl_max_elem l x) as [->|E]; [left|by right].
  - intros y Hy. apply elem_of_cons in Hy as [->|Hy].
    + apply foldl_max_ge.
    + by apply foldl_max_upper.
Qed.

Lemma max_of_unique (l : list Z) (m : Z) :
  m ∈ l → (∀ x, x ∈ l → x ≤ m) → max_of l = m.
Proof.
  intros Hm Hup. assert (l ≠ []) as Hne by (intros ->; by apply not_elem_of_nil in Hm).
  destruct (np_max_spec l Hne) as (_ & Hin & Hge).
  apply Hup in Hin. apply Hge in Hm. lia.
Qed.

Lemma sumZ_cons (x : Z) (l : list Z) : sumZ (x :: l) = x + sumZ l.
Proof. reflexivity. Qed.

Lemma sumZ_indicator_notin (x : Z) (l : list Z) :
  x ∉ l → sumZ ((fun u => if bool_decide (x = u) then 1 else 0) <$> l) = 0.
Proof.
  induction l as [|y l IH]; intros Hl; [done|].
  apply not_elem_of_cons in Hl as [? ?].
  rewrite fmap_cons, sumZ_cons, IH by done.
  by rewrite bool_decide_eq_false_2.
Qed.

Lemma sumZ_indicator (x : Z) (l : list Z) :
  NoDup l → x ∈ l →
  sumZ ((fun u => if bool_decide (x = u) then 1 else 0) <$> l) = 1.
Proof.
  induction l as [|y l IH]; intros Hnd Hx.
  - by apply not_elem_of_nil in Hx.
  - apply NoDup_cons in Hnd as [Hy Hnd]. rewrite fmap_cons, sumZ_cons.
    apply elem_of_cons in Hx as [->|Hx].
    + rewrite bool_decide_eq_true_2 by done.
      rewrite sumZ_indicator_notin by done. lia.
    + rewrite bool_decide_eq_false_2 by (intros ->; done).
      rewrite IH by done. lia.
Qed.

Lemma sumZ_add {A} (f g : A → Z) (l : list A) :
  sumZ ((fun u => f u + g u) <$> l) = sumZ (f <$> l) + sumZ (g <$> l).
Proof.
  induction l as [|x l IH]; [done|].
  rewrite !fmap_cons, !sumZ_cons, IH. lia.
Qed.

Lemma sumZ_zero {A} (l : list A) : sumZ ((fun _ => 0) <$> l) = 0.
Proof. induction l as [|x l IH]; [done|]. by rewrite fmap_cons, sumZ_cons, IH. Qed.

Lemma sum_counts_of (a : spt_array) (n : Z) :
  Forall (fun x => 0 ≤ x < n) (labels a) →
  sumZ (counts_of a n) = Z.of_nat (length a).
Proof.
  unfold counts_of, Np.range, spt_array in *.
  induction a as [|[t x] a IH]; intros Hok.
  - apply (sumZ_zero (seqZ 0 n)).
  - apply Forall_cons in Hok as [Hx Hok]. simpl in Hx.
    transitivity (sumZ ((fun u => (if bool_decide (x = u) then 1 else 0)
                   + Z.of_nat (length (filter (fun r : Z * Z => r.2 = u) a)))
                  <$> seqZ 0 n)).
    + f_equal. apply list_fmap_ext. intros _ u _.
      destruct (decide (x = u)) as [->|Hne].
      * rewrite filter_cons_True, bool_decide_eq_true_2 by done.
        simpl length. lia.
      * rewrite filter_cons_False, bool_decide_eq_false_2 by done. lia.
    + rewrite sumZ_add, sumZ_indicator, IH; [simpl length; lia|done| |].
      * apply NoDup_seqZ.
      * apply elem_of_seqZ. lia.
Qed.

Lemma count_spikes_run (a : spt_array) (U : Z) :
  a ≠ [] → (∀ v, v ∈ labels a ↔ 0 ≤ v < U) →
  SpikeSortingEvaluation.count_spikes a = ok (counts_of a U).
Proof.
  intros Ha Hl. unfold SpikeSortingEvaluation.count_spikes.
  rewrite (max_normalized a U) by done. simpl.
  assert (0 < U).
  { destruct a as [|[t x] a]; [done|].
    assert (x ∈ labels ((t, x) :: a)) as Hx by left. apply Hl in Hx. lia. }
  unfold Np.zeros. replace (U - 1 + 1) with U by lia.
  destruct (Z.ltb_spec U 0) as [?|_]; [lia|]. done.
Qed.

(** X4: on a non-empty train whose labels are not negative, [count_spikes]
    returns one count per label up to the largest one, and the counts add up
    to the number of spikes: every spike is tallied exactly once. *)
Theorem count_spikes_total (a : spt_array) :
  a ≠ [] → Forall (fun x => 0 ≤ x) (labels a) →
  ∃ counts,
    SpikeSortingEvaluation.count_spikes a = ok counts
    ∧ Z.of_nat (length counts) = max_of (labels a) + 1
    ∧ sumZ counts = Z.of_nat (length a).
Proof.
  intros Ha Hok.
  assert (Hl : labels a ≠ []) by (destruct a; [done|discriminate]).
  destruct (np_max_spec _ Hl) as (Hmax & Hin & Hup).
  assert (0 ≤ max_of (labels a)).
  { rewrite Forall_forall in Hok. by apply Hok. }
  unfold SpikeSortingEvaluation.count_spikes. rewrite Hmax. simpl.
  unfold Np.zeros.
  destruct (Z.ltb_spec (max_of (labels a) + 1) 0) as [?|_]; [lia|]. simpl.
  eexists. split; [reflexivity|]. split.
  - rewrite length_fmap. unfold Np.range. rewrite length_seqZ. lia.
  - apply (sum_counts_of a (max_of (labels a) + 1)).
    apply Forall_forall. intros x Hx. split.
    + rewrite Forall_forall in Hok. by apply Hok.
    + apply Hup in Hx. lia.
Qed.

Lemma count_spikes_total_witness :
  ∃ counts,
    SpikeSortingEvaluation.count_spikes Inputs.gaps = ok counts
    ∧ Z.of_nat (length counts) = max_of (labels Inputs.gaps) + 1
    ∧ sumZ counts = Z.of_nat (length Inputs.gaps).
Proof.
  apply (count_spikes_total Inputs.gaps).
  - discriminate.
  - repeat constructor; simpl; lia.
Defined.

Lemma range_unique (L : list Z) (U U' : Z) :
  0 ≤ U → 0 ≤ U' →
  (∀ v, v ∈ L ↔ 0 ≤ v < U) → (∀ v, v ∈ L ↔ 0 ≤ v < U') → U = U'.
Proof.
  intros HU HU' H1 H2.
  destruct (Z_lt_dec U U') as [Hlt|?].
  - assert (U ∈ L) as HL by (apply H2; lia). apply H1 in HL. lia.
  - destruct (Z_lt_dec U' U) as [Hlt|?]; [|lia].
    assert (U' ∈ L) as HL by (apply H1; lia). apply H2 in HL. lia.
Qed.

Lemma range_distinct (a : spt_array) (U : Z) :
  0 ≤ U → (∀ v, v ∈ labels a ↔ 0 ≤ v < U) → distinct a = U.
Proof.
  intros HU Hl. unfold distinct.
  assert (Hp : remove_dups (labels a) ≡ₚ seqZ 0 U).
  { apply NoDup_Permutation; [apply NoDup_remove_dups|apply NoDup_seqZ|].
    intros v. rewrite elem_of_remove_dups, elem_of_seqZ, Hl. lia. }
  rewrite Hp, length_seqZ. lia.
Qed.

Lemma distinct_clean a :
  Forall label_ok (labels a) → distinct (clean_array a) = distinct a.
Proof.
  intros Hok. rewrite (range_distinct (clean_array a) (distinct a)).
  - done.
  - unfold distinct. lia.
  - intros v. unfold distinct. rewrite <- unique_length.
    by apply clean_array_range.
Qed.

(** The constructor up to [compute_accuracies], on two non-empty trains with
    non-negative labels, the two arguments being the same array or not. *)
Lemma init_fields_run (w : world) (spt_base spt : positive)
    (a_base a : spt_array) :
  arrays w !! spt_base = Some a_base →
  arrays w !! spt = Some a →
  a_base ≠ [] → a ≠ [] →
  Forall label_ok (labels a_base) → Forall label_ok (labels a) →
  ∃ b2 a2 w',
    SpikeSortingEvaluation.init_fields spt_base spt w
    = ok (fields_of spt_base spt b2 a2 (distinct b2) (distinct a2), w')
    ∧ arrays w' !! spt_base = Some b2 ∧ arrays w' !! spt = Some a2
    ∧ b2 ≠ [] ∧ a2 ≠ []
    ∧ (∀ v, v ∈ labels b2 ↔ 0 ≤ v < distinct b2)
    ∧ (∀ v, v ∈ labels a2 ↔ 0 ≤ v < distinct a2)
    ∧ (spt_base ≠ spt → b2 = clean_array a_base ∧ a2 = clean_array a)
    ∧ (a_base = a → b2 = a2)
    ∧ distinct b2 = distinct a_base ∧ distinct a2 = distinct a.
Proof.
  intros Hb Hs Hbne Hsne Hbok Hsok.
  set (a1 := if decide (spt_base = spt) then clean_array a_base else a).
  assert (Ha1 : a1 ≠ [] ∧ Forall label_ok (labels a1)).
  { unfold a1. case_decide; [|done]. split.
    - by apply clean_array_nonempty.
    - by apply normalized_label_ok, normalized_clean. }
  destruct Ha1 as [Ha1ne Ha1ok].
  set (b2 := if decide (spt = spt_base) then clean_array a1
             else clean_array a_base).
  assert (Hb2 : normalized b2).
  { unfold b2. case_decide; by apply normalized_clean. }
  assert (Ha2 : normalized (clean_array a1)) by by apply normalized_clean.
  destruct Hb2 as [Hb2ne (Ub & HUb & Hlb)].
  destruct Ha2 as [Ha2ne (Ua & HUa & Hla)].
  assert (0 < Ub).
  { destruct b2 as [|[t x] b2']; [done|].
    assert (x ∈ labels ((t, x) :: b2')) as Hx by left. apply Hlb in Hx. lia. }
  assert (0 < Ua).
  { destruct (clean_array a1) as [|[t x] a2']; [done|].
    assert (x ∈ labels ((t, x) :: a2')) as Hx by left. apply Hla in Hx. lia. }
  assert (Hdb : distinct b2 = Ub) by (apply range_distinct; [lia|done]).
  assert (Hda : distinct (clean_array a1) = Ua)
    by (apply range_distinct; [lia|done]).
  pose proof (max_normalized _ _ Hb2ne Hlb) as Hmb.
  pose proof (max_normalized _ _ Ha2ne Hla) as Hma.
  pose proof (count_spikes_run _ _ Hb2ne Hlb) as Hcb.
  pose proof (count_spikes_run _ _ Ha2ne Hla) as Hcc.
  exists b2, (clean_array a1). eexists.
  split_and!.
  - unfold SpikeSortingEvaluation.init_fields, mbind.
    rewrite (clean_spike_train_run _ _ a_base) by done. simpl.
    rewrite (clean_spike_train_run _ _ a1).
    2:{ simpl. rewrite lookup_insert. unfold a1.
        destruct (decide (spt_base = spt)); done. }
    simpl.
    rewrite (load_run _ _ b2).
    2:{ simpl. rewrite lookup_insert. unfold b2.
        destruct (decide (spt = spt_base)); [done|].
        apply lookup_insert_eq. }
    simpl.
    rewrite (load_run _ _ (clean_array a1)) by (simpl; apply lookup_insert_eq).
    simpl. rewrite Hmb, Hma. simpl. rewrite Hcb, Hcc. simpl.
    unfold Np.zeros. replace (Ub - 1 + 1) with Ub by lia.
    replace (Ua - 1 + 1) with Ua by lia.
    destruct (Z.ltb_spec Ub 0) as [?|_]; [lia|]. simpl.
    unfold fields_of. rewrite Hdb, Hda. reflexivity.
  - simpl. rewrite lookup_insert. unfold b2.
    destruct (decide (spt = spt_base)); [done|]. apply lookup_insert_eq.
  - simpl. apply lookup_insert_eq.
  - done.
  - done.
  - by rewrite Hdb.
  - by rewrite Hda.
  - intros Hne. unfold b2, a1.
    destruct (decide (spt = spt_base)); [congruence|].
    destruct (decide (spt_base = spt)); [congruence|]. done.
  - intros ->. unfold b2, a1.
    destruct (decide (spt = spt_base)); [done|].
    destruct (decide (spt_base = spt)); [congruence|]. done.
  - unfold b2, a1.
    destruct (decide (spt = spt_base)) as [->|?].
    + rewrite decide_True by done.
      rewrite !distinct_clean; [done|done|].
      by apply normalized_label_ok, normalized_clean.
    + by apply distinct_clean.
  - unfold a1. destruct (decide (spt_base = spt)) as [->|?].
    + rewrite Hb in Hs. injection Hs as ->.
      rewrite !distinct_clean; [done|done|].
      by apply normalized_label_ok, normalized_clean.
    + by apply distinct_clean.
Qed.

End Evaluation.

(** ** [compute_accuracies] on the fields of the constructor *)

Section Accuracies.

Lemma transpose_matrix {A B C} (f : A → B → C) (us : list A) (cs : list B) :
  Np.transpose (length cs) ((fun u => f u <$> cs) <$> us)
  = (fun c => (fun u => f u c) <$> us) <$> cs.
Proof.
  induction cs as [|c cs IH]; [done|].
  rewrite fmap_cons. simpl length. cbn [Np.transpose]. f_equal.
  - clear IH. induction us as [|u us IHu]; [done|].
    rewrite !fmap_cons. rewrite <- IHu. reflexivity.
  - rewrite <- IH. f_equal. rewrite <- list_fmap_compose.
    apply list_fmap_ext. by intros _ u _.
Qed.

Lemma mapM_res_fmap {A B} (f : A → result B) (g : A → B) (l : list A) :
  (∀ x, x ∈ l → f x = ok (g x)) → mapM_res f l = ok (g <$> l).
Proof.
  induction l as [|x l IH]; intros Hf; [done|].
  simpl. rewrite Hf by left. simpl. rewrite IH; [done|].
  intros y Hy. apply Hf. by right.
Qed.

Lemma confusion_column_length b a U c :
  length (confusion_column b a U c) = Z.to_nat U.
Proof. unfold confusion_column, Np.range. by rewrite length_fmap, length_seqZ. Qed.

Lemma confusion_column_nonempty b a U c : 0 < U → confusion_column b a U c ≠ [].
Proof.
  intros HU Hnil. apply (f_equal length) in Hnil.
  rewrite confusion_column_length in Hnil. simpl in Hnil. lia.
Qed.

Lemma columns_of_confusion b a U K :
  Np.transpose (Z.to_nat K)
    (SpikeSortingEvaluation.compute_confusion_matrix U K b a)
  = (fun c => confusion_column b a U c) <$> Np.range K.
Proof.
  unfold SpikeSortingEvaluation.compute_confusion_matrix, confusion_column.
  rewrite <- (length_seqZ 0 K). unfold Np.range.
  apply (transpose_matrix
           (fun u c => SpikeSortingEvaluation.count_matches
                         (times_of b u) (times_of a c))).
Qed.

Lemma argmax_from_range l : ∀ best besti i,
  0 ≤ besti < i →
  0 ≤ Np.argmax_from best besti i l < i + Z.of_nat (length l).
Proof.
  induction l as [|y l IH]; intros best besti i Hi; simpl; [lia|].
  destruct (best <? y).
  - specialize (IH y i (i + 1)). lia.
  - specialize (IH best besti (i + 1)). lia.
Qed.

Lemma argmax_of_range l : l ≠ [] → 0 ≤ argmax_of l < Z.of_nat (length l).
Proof.
  destruct l as [|x l]; [done|]. intros _. simpl.
  pose proof (argmax_from_range l x 0 1). lia.
Qed.

Lemma np_argmax_run l : l ≠ [] → Np.argmax l = ok (argmax_of l).
Proof. by destruct l. Qed.

Lemma compute_accuracies_run spt_base spt b a U K :
  0 < U →
  SpikeSortingEvaluation.compute_accuracies (fields_of spt_base spt b a U K)
  = (let recovered :=
       (fun c => max_of (confusion_column b a U c)) <$> Np.range K in
     let unit_cluster_map :=
       (fun c => argmax_of (confusion_column b a U c)) <$> Np.range K in
     let* true_positive :=
       broadcast2 true_divide recovered (counts_of b U) in
     let* match_count := Np.take (counts_of a K) unit_cluster_map in
     let* missed := broadcast2 Z.sub match_count recovered in
     let* false_positive := broadcast2 true_divide missed match_count in
     ok (SpikeSortingEvaluation.Build U K spt_base spt
           (counts_of b U) (counts_of a K)
           (SpikeSortingEvaluation.compute_confusion_matrix U K b a)
           true_positive false_positive unit_cluster_map))%res.
Proof.
  intros HU. unfold SpikeSortingEvaluation.compute_accuracies, fields_of.
  cbn [SpikeSortingEvaluation.n_clusters SpikeSortingEvaluation.n_units
       SpikeSortingEvaluation.confusion_matrix
       SpikeSortingEvaluation.spike_count_base
       SpikeSortingEvaluation.spike_count_cluster
       SpikeSortingEvaluation.spt_base SpikeSortingEvaluation.spt].
  rewrite columns_of_confusion.
  rewrite (mapM_res_fmap Np.argmax argmax_of).
  2:{ intros l Hl. apply list_elem_of_fmap in Hl as (c & -> & _).
      by apply np_argmax_run, confusion_column_nonempty. }
  rewrite (mapM_res_fmap Np.max max_of).
  2:{ intros l Hl. apply list_elem_of_fmap in Hl as (c & -> & _).
      by apply np_max_spec, confusion_column_nonempty. }
  cbn [rbind ok]. rewrite <- !list_fmap_compose. reflexivity.
Qed.


Lemma counts_of_length a n : length (counts_of a n) = Z.to_nat n.
Proof. unfold counts_of, Np.range. by rewrite length_fmap, length_seqZ. Qed.

End Accuracies.

(** ** The constructor of [SpikeSortingEvaluation] *)

Section Constructor.



Lemma broadcast2_same_length {A B C} (f : A → B → C) xs ys :
  length xs = length ys → broadcast2 f xs ys = ok (zip_with f xs ys).
Proof. intros H. unfold broadcast2. by rewrite bool_decide_eq_true_2. Qed.

Lemma take_run {A} (a : list A) (idx : list Z) :
  Forall (fun i => 0 ≤ i < Z.of_nat (length a)) idx →
  ∃ xs, Np.take a idx = ok xs ∧ length xs = length idx.
Proof.
  induction idx as [|i idx IH]; intros Hidx.
  - by exists [].
  - apply Forall_cons in Hidx as [Hi Hidx].
    destruct (IH Hidx) as (xs & Hxs & Hlen). simpl.
    unfold Np.index, Np.norm_index.
    destruct (Z.ltb_spec i (- Z.of_nat (length a))); [lia|].
    destruct (Z.leb_spec (Z.of_nat (length a)) i); [lia|]. simpl.
    destruct (Z.ltb_spec i 0); [lia|].
    destruct (lookup_lt_is_Some_2 a (Z.to_nat i)) as [x Hx]; [lia|].
    rewrite Hx. simpl. rewrite Hxs. simpl.
    exists (x :: xs). split; [done|]. simpl. by rewrite Hlen.
Qed.

Lemma true_divide_same c : 0 < c → true_divide c c = Fin 1.
Proof.
  intros Hc. unfold true_divide.
  destruct (Z.eqb_spec c 0); [lia|]. f_equal.
  change 1%Q with (Qred 1). apply Qred_complete.
  apply Qmult_inv_r. unfold inject_Z, Qeq. simpl. lia.
Qed.

Lemma counts_of_positive a U :
  (∀ v, v ∈ labels a ↔ 0 ≤ v < U) → Forall (fun c => 0 < c) (counts_of a U).
Proof.
  intros Hl. unfold counts_of, Np.range.
  apply Forall_forall. intros n Hn.
  apply list_elem_of_fmap in Hn as (u & -> & Hu).
  apply elem_of_seqZ in Hu.
  assert (Hin : u ∈ labels a) by (apply Hl; lia).
  apply list_elem_of_fmap in Hin as ([t x] & -> & Hr). simpl in *.
  assert (Hf : (t, x) ∈ filter (fun r : Z * Z => r.2 = x) a).
  { apply list_elem_of_filter. done. }
  destruct (filter (fun r : Z * Z => r.2 = x) a); simpl; [|lia].
  by apply not_elem_of_nil in Hf.
Qed.

Lemma times_of_length a u :
  length (times_of a u) = length (filter (fun r : Z * Z => r.2 = u) a).
Proof. unfold times_of. by rewrite length_fmap. Qed.

Lemma recovered_of_same_train b U :
  (fun c => max_of (confusion_column b b U c)) <$> Np.range U = counts_of b U.
Proof.
  unfold counts_of. apply list_fmap_ext. intros i c Hc.
  apply list_elem_of_lookup_2 in Hc. unfold Np.range in Hc.
  apply max_of_unique.
  - unfold confusion_column. apply list_elem_of_fmap. exists c.
    split; [|done]. by rewrite count_matches_self, times_of_length.
  - intros x Hx. unfold confusion_column in Hx.
    apply list_elem_of_fmap in Hx as (u & -> & _).
    pose proof (count_matches_bound (times_of b u) (times_of b c)) as Hb.
    rewrite !times_of_length in Hb. lia.
Qed.

(** X6: when the candidate train holds the same spikes as the reference train
    (as the same array or as a copy), the constructor succeeds and every
    true-positive rate is 1, one per unit of the train. *)
Theorem identical_trains_true_positive (w : world) (spt_base spt : positive)
    (t : spt_array) :
  arrays w !! spt_base = Some t →
  arrays w !! spt = Some t →
  t ≠ [] → Forall label_ok (labels t) →
  ∃ self w',
    SpikeSortingEvaluation.init spt_base spt w = ok (self, w')
    ∧ Forall (fun r => r = Fin 1) (SpikeSortingEvaluation.true_positive self)
    ∧ Z.of_nat (length (SpikeSortingEvaluation.true_positive self))
      = distinct t.
Proof.
  intros Hb Hs Hne Hok.
  destruct (init_fields_run w spt_base spt t t)
    as (b2 & a2 & w' & Hrun & _ & _ & Hb2 & _ & Hlb & _ & _ & Heq & Hd & _);
    try done.
  destruct (Heq eq_refl). rewrite Hd in *.
  set (U := distinct t) in *.
  assert (HU : 0 < U).
  { destruct b2 as [|[t0 x] b2']; [done|].
    assert (x ∈ labels ((t0, x) :: b2')) as Hx by left. apply Hlb in Hx. lia. }
  pose proof (counts_of_positive _ _ Hlb) as Hpos.
  set (ucm := (fun c => argmax_of (confusion_column b2 b2 U c)) <$> Np.range U).
  destruct (take_run (counts_of b2 U) ucm) as (mc & Hmc & Hmclen).
  { apply Forall_forall. intros i Hi. unfold ucm in Hi.
    apply list_elem_of_fmap in Hi as (c & -> & _).
    rewrite counts_of_length.
    pose proof (argmax_of_range (confusion_column b2 b2 U c)
                  (confusion_column_nonempty _ _ _ _ HU)) as Hr.
    rewrite confusion_column_length in Hr. lia. }
  assert (Hucm : length ucm = Z.to_nat U).
  { unfold ucm, Np.range. by rewrite length_fmap, length_seqZ. }
  unfold SpikeSortingEvaluation.init, mbind. rewrite Hrun.
  unfold lift. cbn [ok]. rewrite compute_accuracies_run by done.
  cbn zeta. fold ucm. rewrite recovered_of_same_train.
  rewrite (broadcast2_same_length true_divide) by done. cbn [rbind ok].
  rewrite Hmc. cbn [rbind ok].
  rewrite (broadcast2_same_length Z.sub)
    by (rewrite counts_of_length; lia). cbn [rbind ok].
  rewrite (broadcast2_same_length true_divide)
    by (rewrite length_zip_with, counts_of_length; lia). cbn [rbind ok].
  eexists _, _. split; [reflexivity|]. simpl. split.
  - apply Forall_forall. intros r Hr.
    apply elem_of_lookup_zip_with in Hr as (i & x & y & -> & Hx & Hy).
    rewrite Hx in Hy. injection Hy as <-. apply true_divide_same.
    rewrite Forall_forall in Hpos. apply Hpos.
    by eapply list_elem_of_lookup_2.
  - rewrite length_zip_with, counts_of_length. lia.
Qed.

Lemma identical_trains_true_positive_witness :
  ∃ self w',
    SpikeSortingEvaluation.init 1 1 Inputs.gappy = ok (self, w')
    ∧ Forall (fun r => r = Fin 1) (SpikeSortingEvaluation.true_positive self)
    ∧ Z.of_nat (length (SpikeSortingEvaluation.true_positive self))
      = distinct Inputs.gaps.
Proof.
  apply (identical_trains_true_positive Inputs.gappy 1 1 Inputs.gaps).
  - reflexivity.
  - reflexivity.
  - discriminate.
  - repeat constructor; unfold label_ok; simpl; lia.
Defined.

(** X7: every entry of the confusion matrix built by the constructor lies
    between 0 and the spike counts of both its reference unit and its
    candidate cluster. *)
Theorem confusion_entry_bounded (w : world) (spt_base spt : positive)
    (a_base a : spt_array) :
  arrays w !! spt_base = Some a_base →
  arrays w !! spt = Some a →
  a_base ≠ [] → a ≠ [] →
  Forall label_ok (labels a_base) → Forall label_ok (labels a) →
  ∃ self w',
    SpikeSortingEvaluation.init_fields spt_base spt w = ok (self, w')
    ∧ ∀ (u c : nat) row e nb nc,
        SpikeSortingEvaluation.confusion_matrix self !! u = Some row →
        row !! c = Some e →
        SpikeSortingEvaluation.spike_count_base self !! u = Some nb →
        SpikeSortingEvaluation.spike_count_cluster self !! c = Some nc →
        0 ≤ e ≤ Z.min nb nc.
Proof.
  intros Hb Hs Hbne Hsne Hbok Hsok.
  destruct (init_fields_run w spt_base spt a_base a)
    as (b2 & a2 & w' & Hrun & _); try done.
  eexists _, _. split; [exact Hrun|].
  intros u c row e nb nc. simpl.
  unfold SpikeSortingEvaluation.compute_confusion_matrix, counts_of, Np.range.
  rewrite !list_lookup_fmap.
  destruct (seqZ 0 (distinct b2) !! u) as [zu|] eqn:Hu; [|done].
  simpl. intros [= <-]. rewrite list_lookup_fmap.
  destruct (seqZ 0 (distinct a2) !! c) as [zc|] eqn:Hc; [|done].
  simpl. intros [= <-] [= <-] [= <-].
  pose proof (count_matches_bound (times_of b2 zu) (times_of a2 zc)) as Hbd.
  rewrite !times_of_length in Hbd. lia.
Qed.

Lemma confusion_entry_bounded_witness :
  ∃ self w',
    SpikeSortingEvaluation.init_fields 1 2 Inputs.scenario = ok (self, w')
    ∧ ∀ (u c : nat) row e nb nc,
        SpikeSortingEvaluation.confusion_matrix self !! u = Some row →
        row !! c = Some e →
        SpikeSortingEvaluation.spike_count_base self !! u = Some nb →
        SpikeSortingEvaluation.spike_count_cluster self !! c = Some nc →
        0 ≤ e ≤ Z.min nb nc.
Proof.
  apply (confusion_entry_bounded Inputs.scenario 1 2
           [(100, 0); (500, 0); (1000, 1)] [(105, 0); (1005, 1)]).
  - reflexivity.
  - reflexivity.
  - discriminate.
  - discriminate.
  - repeat constructor; unfold label_ok; simpl; lia.
  - repeat constructor; unfold label_ok; simpl; lia.
Defined.

(** X8: when either train is empty the constructor raises ValueError
    ([np.max] of an empty label column), whatever the other train holds. *)
Theorem init_empty_train (w : world) (spt_base spt : positive)
    (a_base a : spt_array) :
  arrays w !! spt_base = Some a_base →
  arrays w !! spt = Some a →
  a_base = [] ∨ a = [] →
  SpikeSortingEvaluation.init spt_base spt w = raise ValueError.
Proof.
  intros Hb Hs Hempty.
  set (a1 := if decide (spt_base = spt) then clean_array a_base else a).
  set (b2 := if decide (spt = spt_base) then clean_array a1
             else clean_array a_base).
  unfold SpikeSortingEvaluation.init, SpikeSortingEvaluation.init_fields, mbind.
  rewrite (clean_spike_train_run _ _ a_base) by done. simpl.
  rewrite (clean_spike_train_run _ _ a1).
  2:{ simpl. rewrite lookup_insert. unfold a1.
      destruct (decide (spt_base = spt)); done. }
  simpl.
  rewrite (load_run _ _ b2).
  2:{ simpl. rewrite lookup_insert. unfold b2.
      destruct (decide (spt = spt_base)); [done|].
      apply lookup_insert_eq. }
  simpl.
  rewrite (load_run _ _ (clean_array a1)) by (simpl; apply lookup_insert_eq).
  simpl.
  destruct (decide (b2 = [])) as [->|Hb2]; [done|].
  destruct (np_max_spec (labels b2)) as (-> & _).
  { destruct b2; [done|discriminate]. }
  simpl.
  assert (Ha2 : clean_array a1 = []).
  { unfold b2, a1 in *.
    destruct (decide (spt_base = spt)) as [->|Hne].
    - rewrite decide_True in Hb2 by done.
      rewrite Hb in Hs. injection Hs as ->.
      destruct Hempty as [->| ->]; done.
    - rewrite decide_False in Hb2 by done.
      destruct Hempty as [->| ->]; done. }
  rewrite Ha2. done.
Qed.

Lemma init_empty_train_witness :
  SpikeSortingEvaluation.init 1 2
    (World {[ 1%positive := [(100, 0)]; 2%positive := [] ]} 0 ∅)
  = raise ValueError.
Proof.
  apply (init_empty_train _ 1 2 [(100, 0)] []).
  - reflexivity.
  - reflexivity.
  - right. reflexivity.
Defined.

End Constructor.

(** ** More on [clean_spike_train] *)

Section CleanMore.

Lemma unique_sorted l : StronglySorted Z.le (Np.unique l).
Proof. unfold Np.unique. apply StronglySorted_merge_sort; apply _. Qed.

Lemma sorted_range_seqZ (l : list Z) : ∀ a n,
  StronglySorted Z.le l → NoDup l →
  (∀ v, v ∈ l ↔ a ≤ v < a + n) → l = seqZ a n.
Proof.
  induction l as [|x l IH]; intros a n Hs Hnd Hl.
  - destruct (Z_le_dec n 0) as [Hn|Hn].
    + unfold seqZ. by replace (Z.to_nat n) with 0%nat by lia.
    + assert (a ∈ @nil Z) as Ha by (apply Hl; lia).
      by apply not_elem_of_nil in Ha.
  - apply StronglySorted_inv in Hs as [Hs Hx].
    apply NoDup_cons in Hnd as [Hxl Hnd].
    assert (Hxr : a ≤ x < a + n) by (apply Hl; left).
    assert (Ha : a ∈ x :: l) by (apply Hl; lia).
    assert (x = a) as ->.
    { apply elem_of_cons in Ha as [->|Ha]; [done|].
      rewrite Forall_forall in Hx. apply Hx in Ha. lia. }
    rewrite (seqZ_cons a n) by lia. f_equal.
    replace (Z.succ a) with (a + 1) by lia.
    replace (Z.pred n) with (n - 1) by lia.
    apply IH; [done|done|]. intros v. split.
    + intros Hv. assert (v ≠ a) by (intros ->; done).
      assert (a ≤ v < a + n) by (apply Hl; by right). lia.
    + intros Hv. assert (v ∈ a :: l) as Hin by (apply Hl; lia).
      apply elem_of_cons in Hin as [->|?]; [lia|done].
Qed.

Lemma sorted_lookup_le (l : list Z) : ∀ i j x y,
  StronglySorted Z.le l → l !! i = Some x → l !! j = Some y →
  (i ≤ j)%nat → x ≤ y.
Proof.
  induction l as [|z l IH]; intros i j x y Hs Hi Hj Hij; [done|].
  apply StronglySorted_inv in Hs as [Hs Hz].
  destruct i as [|i], j as [|j]; simpl in *; try lia.
  - injection Hi as <-. by injection Hj as <-.
  - injection Hi as <-. rewrite Forall_forall in Hz. apply Hz.
    by eapply list_elem_of_lookup_2.
  - eapply IH; eauto. lia.
Qed.

Lemma unique_of_range (L : list Z) (U : Z) :
  (∀ v, v ∈ L ↔ 0 ≤ v < U) → Np.unique L = seqZ 0 U.
Proof.
  intros HL. apply sorted_range_seqZ.
  - apply unique_sorted.
  - apply unique_NoDup.
  - intros v. rewrite unique_elem, HL. lia.
Qed.

Lemma rank_label_range (U v : Z) :
  0 ≤ v < U → rank_label 0 (seqZ 0 U) v = v.
Proof.
  intros Hv. unfold rank_label.
  rewrite (index_of_lookup (seqZ 0 U) (Z.to_nat v) v).
  - lia.
  - apply NoDup_seqZ.
  - rewrite lookup_seqZ. split; lia.
Qed.

(** An array whose labels are exactly [0 .. U-1] is left as it is. *)
Lemma clean_array_normalized (a : spt_array) : normalized a → clean_array a = a.
Proof.
  intros Hn. pose proof (normalized_label_ok _ Hn) as Hok.
  destruct Hn as [_ (U & _ & Hl)].
  rewrite clean_array_rank by done. rewrite (unique_of_range _ U) by done.
  rewrite <- (list_fmap_id a) at 2. apply list_fmap_ext.
  intros i [t x] Hi. simpl. f_equal. apply rank_label_range.
  apply Hl. unfold labels. apply list_elem_of_fmap. exists (t, x).
  split; [done|]. by eapply list_elem_of_lookup_2.
Qed.

(** X9: normalizing is idempotent: on a non-empty train whose labels are not
    negative, a second call of [clean_spike_train] on the same array changes
    nothing. *)
Theorem clean_spike_train_idempotent (w : world) (spt : positive)
    (a : spt_array) :
  arrays w !! spt = Some a →
  a ≠ [] → Forall label_ok (labels a) →
  ∃ w', clean_spike_train spt w = ok (spt, w')
        ∧ clean_spike_train spt w' = ok (spt, w').
Proof.
  intros Ha Hne Hok. eexists. split.
  - by apply clean_spike_train_run.
  - erewrite clean_spike_train_run; [|simpl; apply lookup_insert_eq].
    simpl. rewrite clean_array_normalized by by apply normalized_clean.
    by rewrite insert_insert_eq.
Qed.

Lemma clean_spike_train_idempotent_witness :
  ∃ w', clean_spike_train 1 Inputs.gappy = ok (1%positive, w')
        ∧ clean_spike_train 1 w' = ok (1%positive, w').
Proof.
  apply (clean_spike_train_idempotent Inputs.gappy 1 Inputs.gaps).
  - reflexivity.
  - discriminate.
  - repeat constructor; unfold label_ok; simpl; lia.
Defined.

(** X10: normalizing keeps the order of the labels: of two spikes, the one
    with the smaller label before the call has the smaller label after
    it. *)
Theorem clean_spike_train_monotone (w : world) (spt : positive)
    (a : spt_array) :
  arrays w !! spt = Some a →
  Forall label_ok (labels a) →
  ∃ w' a',
    clean_spike_train spt w = ok (spt, w')
    ∧ arrays w' !! spt = Some a'
    ∧ ∀ (i j : nat) r1 r2 r1' r2',
        a !! i = Some r1 → a !! j = Some r2 →
        a' !! i = Some r1' → a' !! j = Some r2' →
        r1.2 < r2.2 → r1'.2 < r2'.2.
Proof.
  intros Ha Hok. eexists _, (clean_array a). split; [|split].
  - by apply clean_spike_train_run.
  - simpl. apply lookup_insert_eq.
  - intros i j [t1 x] [t2 y] r1' r2' Hi Hj. simpl.
    rewrite clean_array_rank by done. unfold spt_array in *.
    rewrite !list_lookup_fmap, Hi, Hj.
    simpl. intros [= <-] [= <-] Hxy. simpl.
    set (units := Np.unique (labels a)).
    assert (Hx : x ∈ units).
    { apply unique_elem_2. apply list_elem_of_fmap. exists (t1, x).
      split; [done|]. by eapply list_elem_of_lookup_2. }
    assert (Hy : y ∈ units).
    { apply unique_elem_2. apply list_elem_of_fmap. exists (t2, y).
      split; [done|]. by eapply list_elem_of_lookup_2. }
    apply index_of_elem in Hx as [kx Hkx]. apply index_of_elem in Hy as [ky Hky].
    unfold rank_label. rewrite Hkx, Hky.
    apply index_of_Some in Hkx as [Hkx _]. apply index_of_Some in Hky as [Hky _].
    destruct (le_lt_dec ky kx) as [Hle|?]; [|lia].
    pose proof (sorted_lookup_le units ky kx y x (unique_sorted _) Hky Hkx Hle).
    lia.
Qed.

Lemma clean_spike_train_monotone_witness :
  ∃ w' a',
    clean_spike_train 1 Inputs.gappy = ok (1%positive, w')
    ∧ arrays w' !! 1%positive = Some a'
    ∧ ∀ (i j : nat) r1 r2 r1' r2',
        Inputs.gaps !! i = Some r1 → Inputs.gaps !! j = Some r2 →
        a' !! i = Some r1' → a' !! j = Some r2' →
        r1.2 < r2.2 → r1'.2 < r2'.2.
Proof.
  apply (clean_spike_train_monotone Inputs.gappy 1 Inputs.gaps).
  - reflexivity.
  - repeat constructor; unfold label_ok; simpl; lia.
Defined.

End CleanMore.

(** ** The accumulation of [compute_templates] *)

Section Accumulation.

Lemma sumZ_insert (l : list Z) (k : nat) (c : Z) :
  l !! k = Some c → sumZ (<[k := c + 1]> l) = sumZ l + 1.
Proof.
  revert k. induction l as [|x l IH]; intros k Hk; [done|].
  destruct k as [|k]; simpl in Hk.
  - injection Hk as ->. unfold sumZ. simpl. lia.
  - specialize (IH k Hk). unfold sumZ in *. simpl. lia.
Qed.

Lemma index_lookup {A} (a : list A) (i : Z) (x : A) :
  Np.index a i = ok x →
  ∃ k, Np.norm_index (length a) i = ok k ∧ a !! k = Some x.
Proof.
  unfold Np.index. destruct (Np.norm_index (length a) i) as [e|k]; [done|].
  simpl. destruct (a !! k) as [y|] eqn:Hk; [|done].
  intros [= <-]. eauto.
Qed.

(** One spike either adds one to one count or one to the violations. *)
Lemma accumulate_spike_accounts window ts st r :
  length (MeanWaveCalculator.acc_templates st)
  = length (MeanWaveCalculator.acc_counts st) →
  let st' := MeanWaveCalculator.accumulate_spike window ts st r in
  length (MeanWaveCalculator.acc_templates st')
  = length (MeanWaveCalculator.acc_counts st')
  ∧ sumZ (MeanWaveCalculator.acc_counts st')
    + MeanWaveCalculator.boundary_violation st'
    = sumZ (MeanWaveCalculator.acc_counts st)
      + MeanWaveCalculator.boundary_violation st + 1.
Proof.
  intros Hlen. unfold MeanWaveCalculator.accumulate_spike,
    MeanWaveCalculator.accumulate.
  destruct (Np.norm_index _ r.2) as [e|u] eqn:Hu; simpl; [split; [done|lia]|].
  destruct (Np.index (MeanWaveCalculator.acc_templates st) r.2)
    as [e|template]; simpl; [split; [done|lia]|].
  destruct (Np.take ts _) as [e|snippet]; simpl; [split; [done|lia]|].
  destruct (mat_add template snippet) as [e|summed]; simpl;
    [split; [done|lia]|].
  destruct (Np.index (MeanWaveCalculator.acc_counts st) r.2) as [e|c] eqn:Hc;
    simpl; [split; [done|lia]|].
  apply index_lookup in Hc as (k & Hk & Hck).
  rewrite <- Hlen, Hu in Hk. injection Hk as <-.
  split.
  - by rewrite !length_insert.
  - rewrite (sumZ_insert _ _ _ Hck). lia.
Qed.

Lemma accumulate_fold_accounts window ts spt : ∀ st,
  length (MeanWaveCalculator.acc_templates st)
  = length (MeanWaveCalculator.acc_counts st) →
  let st' := foldl (MeanWaveCalculator.accumulate_spike window ts) st spt in
  length (MeanWaveCalculator.acc_templates st')
  = length (MeanWaveCalculator.acc_counts st')
  ∧ sumZ (MeanWaveCalculator.acc_counts st')
    + MeanWaveCalculator.boundary_violation st'
    = sumZ (MeanWaveCalculator.acc_counts st)
      + MeanWaveCalculator.boundary_violation st + Z.of_nat (length spt).
Proof.
  induction spt as [|r spt IH]; intros st Hlen; simpl; [split; [done|lia]|].
  destruct (accumulate_spike_accounts window ts st r Hlen) as [Hlen' Hsum].
  destruct (IH _ Hlen') as [Hl Hs]. split; [done|]. lia.
Qed.

Lemma batch_loop_accounts self a ids : ∀ st w,
  length (MeanWaveCalculator.acc_templates st)
  = length (MeanWaveCalculator.acc_counts st) →
  (cursor w + length ids ≤ length (RecordingBatchIterator.batches
                                      (MeanWaveCalculator.batch_reader self)))%nat →
  ∃ st',
    MeanWaveCalculator.batch_loop self a ids st w
    = ok (st', World (arrays w) (cursor w + length ids)%nat (files w))
    ∧ sumZ (MeanWaveCalculator.acc_counts st')
      + MeanWaveCalculator.boundary_violation st'
      = sumZ (MeanWaveCalculator.acc_counts st)
        + MeanWaveCalculator.boundary_violation st
        + sumZ ((fun i => Z.of_nat (length (batch_spikes a
                   (RecordingBatchIterator.batch_time_samples
                      (MeanWaveCalculator.batch_reader self)) i))) <$> ids).
Proof.
  induction ids as [|i ids IH]; intros st w Hlen Hcur.
  - exists st. simpl. unfold mret. split.
    + rewrite Nat.add_0_r. by rewrite world_eta.
    + unfold sumZ. simpl. lia.
  - simpl in Hcur. cbn [MeanWaveCalculator.batch_loop]. unfold mbind.
    unfold RecordingBatchIterator.next_batch.
    destruct (lookup_lt_is_Some_2
                (RecordingBatchIterator.batches
                   (MeanWaveCalculator.batch_reader self)) (cursor w))
      as [ts Hts]; [lia|].
    rewrite Hts. cbn [ok].
    set (st1 := foldl _ st _).
    destruct (accumulate_fold_accounts (MeanWaveCalculator.window self) ts
                (batch_spikes a (RecordingBatchIterator.batch_time_samples
                   (MeanWaveCalculator.batch_reader self)) i) st Hlen)
      as [Hlen1 Hsum1]. fold st1 in Hlen1, Hsum1.
    destruct (IH st1 (World (arrays w) (S (cursor w)) (files w)) Hlen1)
      as (st' & Hrun & Hsum); [simpl; lia|].
    exists st'. split.
    + rewrite Hrun. simpl. do 3 f_equal. lia.
    + rewrite fmap_cons, sumZ_cons. lia.
Qed.

(** X11: [compute_templates] accounts for every spike that falls strictly
    inside one of the batches it reads: when the recording holds the batches,
    the counts of the units and the boundary violations add up to the number
    of those spikes, and the cursor has moved on by the batches read. *)
Theorem accumulate_batches_accounts (self : MeanWaveCalculator.t)
    (n_batches : Z) (w : world) (a : spt_array) :
  arrays w !! MeanWaveCalculator.spike_train self = Some a →
  0 ≤ MeanWaveCalculator.n_units self →
  length (MeanWaveCalculator.templates self)
  = Z.to_nat (MeanWaveCalculator.n_units self) →
  (cursor w + Z.to_nat n_batches
   ≤ length (RecordingBatchIterator.batches
               (MeanWaveCalculator.batch_reader self)))%nat →
  ∃ st w',
    MeanWaveCalculator.accumulate_batches self n_batches w = ok (st, w')
    ∧ cursor w' = (cursor w + Z.to_nat n_batches)%nat
    ∧ sumZ (MeanWaveCalculator.acc_counts st)
      + MeanWaveCalculator.boundary_violation st
      = spikes_inside a (RecordingBatchIterator.batch_time_samples
                           (MeanWaveCalculator.batch_reader self)) n_batches.
Proof.
  intros Ha Hn Hlen Hcur.
  unfold MeanWaveCalculator.accumulate_batches, mbind, lift, Np.zeros.
  destruct (Z.ltb_spec (MeanWaveCalculator.n_units self) 0) as [?|_]; [lia|].
  cbn [ok]. rewrite (load_run _ _ a) by done. cbn [ok].
  destruct (batch_loop_accounts self a (Np.range n_batches)
              (MeanWaveCalculator.Acc (MeanWaveCalculator.templates self)
                 (replicate (Z.to_nat (MeanWaveCalculator.n_units self)) 0) 0) w)
    as (st' & Hrun & Hsum).
  { simpl. by rewrite length_replicate. }
  { unfold Np.range. by rewrite length_seqZ. }
  eexists _, _. split; [exact Hrun|]. split.
  - simpl. unfold Np.range. by rewrite length_seqZ.
  - rewrite Hsum. simpl. unfold spikes_inside.
    assert (Hz : ∀ n, sumZ (replicate n 0) = 0).
    { induction n as [|n IHn]; [done|].
      change (replicate (S n) 0) with (0 :: replicate n 0).
      by rewrite sumZ_cons, IHn. }
    rewrite Hz. lia.
Qed.

Lemma accumulate_batches_accounts_witness :
  ∃ st w',
    MeanWaveCalculator.accumulate_batches Inputs.fresh_calculator 5
      Inputs.early = ok (st, w')
    ∧ cursor w' = (cursor Inputs.early + Z.to_nat 5)%nat
    ∧ sumZ (MeanWaveCalculator.acc_counts st)
      + MeanWaveCalculator.boundary_violation st
      = spikes_inside [(5, 0)]
          (RecordingBatchIterator.batch_time_samples
             (MeanWaveCalculator.batch_reader Inputs.fresh_calculator)) 5.
Proof.
  apply (accumulate_batches_accounts Inputs.fresh_calculator 5 Inputs.early
           [(5, 0)]).
  - reflexivity.
  - simpl. lia.
  - reflexivity.
  - simpl. lia.
Defined.

End Accumulation.

(** ** Single spikes in [compute_templates] *)

Section SingleSpike.

Lemma past_batch_end_is_violation_witness :
  MeanWaveCalculator.accumulate_spike (Np.range2 (-10) 30)
    (replicate 100 [1%Q])
    (MeanWaveCalculator.Acc [replicate 40 [0%Q]] [0] 0) (80, 0)
  = MeanWaveCalculator.Acc [replicate 40 [0%Q]] [0] (0 + 1).
Proof.
  apply (past_batch_end_is_violation (Np.range2 (-10) 30)
           (replicate 100 [1%Q])
           (MeanWaveCalculator.Acc [replicate 40 [0%Q]] [0] 0) (80, 0) 29).
  - vm_compute. set_solver.
  - vm_compute. discriminate.
Defined.

Lemma take_window (ts : block Q) (t : Z) (n : nat) : ∀ a,
  0 ≤ t + a → t + a + Z.of_nat n ≤ Z.of_nat (length ts) →
  Z.of_nat (length ts) ≤ 2 ^ 63 →
  Np.take ts (window_at t (seqZ a (Z.of_nat n)))
  = ok (rows_from ts (t + a) n).
Proof.
  induction n as [|n IH]; intros a Hlo Hhi Hlen; [done|].
  rewrite seqZ_cons by lia. unfold window_at. rewrite fmap_cons.
  fold (window_at t (seqZ (Z.succ a) (Z.pred (Z.of_nat (S n))))).
  replace (Z.pred (Z.of_nat (S n))) with (Z.of_nat n) by lia.
  cbn [Np.take]. rewrite IH by lia.
  rewrite wrap64_small by (unfold Np.int64; lia).
  unfold Np.index, Np.norm_index.
  destruct (Z.ltb_spec (t + a) (- Z.of_nat (length ts))); [lia|].
  destruct (Z.leb_spec (Z.of_nat (length ts)) (t + a)); [lia|]. simpl.
  destruct (Z.ltb_spec (t + a) 0); [lia|].
  destruct (lookup_lt_is_Some_2 ts (Z.to_nat (t + a))) as [x Hx]; [lia|].
  rewrite Hx. simpl. unfold rows_from.
  rewrite (drop_S _ _ _ Hx). simpl.
  replace (Z.to_nat (t + Z.succ a)) with (S (Z.to_nat (t + a))) by lia.
  done.
Qed.

(** X13: a spike whose window lies inside the batch (at least 10 samples
    after its start, at least 30 before its end) adds the 40 rows of the batch
    around it to the template of its unit and one to the count of the unit,
    and leaves the boundary violations as they are. *)
Theorem interior_spike_is_accumulated (ts : block Q)
    (st : MeanWaveCalculator.acc) (t u c : Z) (template : block Q) :
  10 ≤ t → t + 29 < Z.of_nat (length ts) →
  Z.of_nat (length ts) ≤ 2 ^ 63 →
  0 ≤ u →
  length (MeanWaveCalculator.acc_templates st)
  = length (MeanWaveCalculator.acc_counts st) →
  MeanWaveCalculator.acc_templates st !! Z.to_nat u = Some template →
  MeanWaveCalculator.acc_counts st !! Z.to_nat u = Some c →
  length <$> template = length <$> rows_from ts (t - 10) 40 →
  MeanWaveCalculator.accumulate_spike (Np.range2 (-10) 30) ts st (t, u)
  = MeanWaveCalculator.Acc
      (<[Z.to_nat u := zip_with (zip_with Qplus) template
                         (rows_from ts (t - 10) 40)]>
         (MeanWaveCalculator.acc_templates st))
      (<[Z.to_nat u := c + 1]> (MeanWaveCalculator.acc_counts st))
      (MeanWaveCalculator.boundary_violation st).
Proof.
  intros Hlo Hhi Hlen Hu Hshape Htpl Hcnt Hrows.
  pose proof (lookup_lt_Some _ _ _ Htpl) as Hult.
  unfold MeanWaveCalculator.accumulate_spike, MeanWaveCalculator.accumulate.
  cbn [fst snd].
  assert (Hnorm : ∀ n, (Z.to_nat u < n)%nat →
            Np.norm_index n u = ok (Z.to_nat u)).
  { intros n Hn. unfold Np.norm_index.
    destruct (Z.ltb_spec u (- Z.of_nat n)); [lia|].
    destruct (Z.leb_spec (Z.of_nat n) u); [lia|]. simpl.
    by destruct (Z.ltb_spec u 0); [lia|]. }
  rewrite Hnorm by done. cbn [rbind ok].
  unfold Np.index. rewrite !Hnorm by (rewrite <- ?Hshape; done).
  cbn [rbind ok]. rewrite Htpl, Hcnt. cbn [rbind ok].
  unfold Np.range2. change (30 - -10) with (Z.of_nat 40).
  rewrite take_window by lia. cbn [rbind ok].
  replace (t + -10) with (t - 10) by lia.
  unfold mat_add. rewrite bool_decide_eq_true_2; [done|].
  split; [|done]. apply (f_equal length) in Hrows.
  by rewrite !length_fmap in Hrows.
Qed.

Lemma interior_spike_is_accumulated_witness :
  MeanWaveCalculator.accumulate_spike (Np.range2 (-10) 30)
    (replicate 100 [1%Q])
    (MeanWaveCalculator.Acc [replicate 40 [0%Q]] [0] 0) (50, 0)
  = MeanWaveCalculator.Acc
      (<[Z.to_nat 0 := zip_with (zip_with Qplus) (replicate 40 [0%Q])
                         (rows_from (replicate 100 [1%Q]) (50 - 10) 40)]>
         [replicate 40 [0%Q]])
      (<[Z.to_nat 0 := 0 + 1]> [0])
      0.
Proof.
  apply (interior_spike_is_accumulated (replicate 100 [1%Q])
           (MeanWaveCalculator.Acc [replicate 40 [0%Q]] [0] 0) 50 0 0
           (replicate 40 [0%Q])).
  - lia.
  - simpl. lia.
  - simpl. lia.
  - lia.
  - reflexivity.
  - reflexivity.
  - reflexivity.
  - reflexivity.
Defined.

Lemma batch_loop_value self a a2 ids : ∀ st w w2,
  cursor w2 = cursor w →
  (∀ i, i ∈ ids →
     batch_spikes a2 (RecordingBatchIterator.batch_time_samples
                        (MeanWaveCalculator.batch_reader self)) i
     = batch_spikes a (RecordingBatchIterator.batch_time_samples
                         (MeanWaveCalculator.batch_reader self)) i) →
  value_of (MeanWaveCalculator.batch_loop self a2 ids st w2)
  = value_of (MeanWaveCalculator.batch_loop self a ids st w).
Proof.
  induction ids as [|i ids IH]; intros st w w2 Hcur Hsame; [done|].
  cbn [MeanWaveCalculator.batch_loop]. unfold mbind.
  unfold RecordingBatchIterator.next_batch. rewrite Hcur.
  destruct (_ !! cursor w) as [ts|]; [|done]. cbn [ok].
  rewrite Hsame by left. apply IH; [done|].
  intros j Hj. apply Hsame. by right.
Qed.

(** X14: a spike that lies strictly inside none of the batches read (at
    time 0, exactly on the border between two batches, or after the last
    batch read) is skipped without a trace: with or without it in the train,
    the sums, the counts and the boundary violations are the same. *)
Theorem border_spike_is_skipped (self : MeanWaveCalculator.t)
    (n_batches : Z) (w : world) (a : spt_array) (r : Z * Z) :
  let n_samples :=
    RecordingBatchIterator.batch_time_samples
      (MeanWaveCalculator.batch_reader self) in
  arrays w !! MeanWaveCalculator.spike_train self = Some a →
  (∀ i, 0 ≤ i < n_batches →
        ¬ (i * n_samples < r.1 ∧ r.1 < (i + 1) * n_samples)) →
  value_of (MeanWaveCalculator.accumulate_batches self n_batches
              (World (<[MeanWaveCalculator.spike_train self := a ++ [r]]>
                        (arrays w)) (cursor w) (files w)))
  = value_of (MeanWaveCalculator.accumulate_batches self n_batches w).
Proof.
  intros n_samples Ha Hout.
  unfold MeanWaveCalculator.accumulate_batches, mbind, lift.
  destruct (Np.zeros 0 (MeanWaveCalculator.n_units self)) as [e|counts];
    [done|].
  cbn [ok]. rewrite (load_run _ w a) by done.
  rewrite (load_run _ _ (a ++ [r])) by (simpl; apply lookup_insert_eq).
  cbn [ok]. apply batch_loop_value; [done|].
  intros i Hi. apply elem_of_seqZ in Hi. fold n_samples.
  unfold batch_spikes, spt_array in *. rewrite filter_app, fmap_app.
  rewrite (filter_cons_False _ r); [|apply Hout; lia].
  by rewrite filter_nil, fmap_nil, app_nil_r.
Qed.

Lemma border_spike_is_skipped_witness :
  value_of (MeanWaveCalculator.accumulate_batches Inputs.fresh_calculator 5
              (World (<[MeanWaveCalculator.spike_train Inputs.fresh_calculator
                        := [(5, 0)] ++ [(100, 0)]]>
                        (arrays Inputs.early))
                 (cursor Inputs.early) (files Inputs.early)))
  = value_of (MeanWaveCalculator.accumulate_batches Inputs.fresh_calculator 5
                Inputs.early).
Proof.
  apply (border_spike_is_skipped Inputs.fresh_calculator 5 Inputs.early
           [(5, 0)] (100, 0)).
  - reflexivity.
  - intros i Hi. simpl. lia.
Defined.

End SingleSpike.

(** ** The statistics summary *)

Section Summary.

Lemma firing_diff_length (l : list Z) :
  length (RecordingAugmentation.firing_diff l) = pred (length l).
Proof.
  unfold RecordingAugmentation.firing_diff.
  rewrite length_fmap, length_zip_with.
  assert (Ht : length (tail l) = pred (length l)) by by destruct l.
  assert (Hr : length (removelast l) = pred (length l)).
  { induction l as [|x [|y l] IH]; [done|done|].
    change (removelast (x :: y :: l)) with (x :: removelast (y :: l)).
    simpl length in *. rewrite IH; [done|]. by destruct l. }
  rewrite Ht, Hr. lia.
Qed.

(** X15: on a non-empty train the guard of [compute_stat_summary] holds for
    every unit: each row carries the spike count of its unit; a unit with
    fewer than two spikes gets [nan] for mean and standard deviation, any
    other unit the statistics of its inter-spike differences. *)
Theorem stat_summary_rows (template_comp : MeanWaveCalculator.t) (w : world)
    (spt : spt_array) :
  arrays w !! MeanWaveCalculator.spike_train template_comp = Some spt →
  spt ≠ [] →
  0 ≤ MeanWaveCalculator.n_units template_comp →
  ∃ rows,
    RecordingAugmentation.compute_stat_summary template_comp w = ok (rows, w)
    ∧ length rows = Z.to_nat (MeanWaveCalculator.n_units template_comp)
    ∧ ∀ (u : nat) row, rows !! u = Some row →
        let spt_u := Np.sort (times_of spt (Z.of_nat u)) in
        let diffs := RecordingAugmentation.firing_diff spt_u in
        row.2 = SCount (Z.of_nat (length spt_u))
        ∧ ((length spt_u < 2)%nat → row.1 = (SNan, SNan))
        ∧ ((2 ≤ length spt_u)%nat → row.1 = (SMeanLog diffs, SStdLog diffs)).
Proof.
  intros Hload Hne Hn.
  unfold RecordingAugmentation.compute_stat_summary, mbind, lift, Np.zeros.
  destruct (Z.ltb_spec (MeanWaveCalculator.n_units template_comp) 0); [lia|].
  cbn [ok]. rewrite (load_run _ _ spt) by done. cbn [ok]. unfold mret.
  eexists. split; [reflexivity|]. split.
  - unfold RecordingAugmentation.stat_rows, Np.range.
    by rewrite length_fmap, length_seqZ.
  - intros u row. unfold RecordingAugmentation.stat_rows, Np.range.
    rewrite list_lookup_fmap.
    destruct (seqZ 0 _ !! u) as [z|] eqn:Hz; [|done].
    apply lookup_seqZ in Hz as [-> _]. simpl.
    rewrite bool_decide_eq_true_2.
    2:{ unfold spt_gt. rewrite length_fmap. by destruct spt. }
    intros [= <-]. simpl. split; [done|].
    pose proof (firing_diff_length (Np.sort (times_of spt (Z.of_nat u)))) as Hd.
    split.
    + intros Hlt.
      destruct (RecordingAugmentation.firing_diff _) as [|x l]; [done|].
      simpl in Hd. lia.
    + intros Hge.
      destruct (RecordingAugmentation.firing_diff _) as [|x l]; [|done].
      simpl in Hd. lia.
Qed.

Lemma stat_summary_rows_witness :
  ∃ rows,
    RecordingAugmentation.compute_stat_summary Inputs.fresh_calculator
      Inputs.early = ok (rows, Inputs.early)
    ∧ length rows
      = Z.to_nat (MeanWaveCalculator.n_units Inputs.fresh_calculator)
    ∧ ∀ (u : nat) row, rows !! u = Some row →
        let spt_u := Np.sort (times_of [(5, 0)] (Z.of_nat u)) in
        let diffs := RecordingAugmentation.firing_diff spt_u in
        row.2 = SCount (Z.of_nat (length spt_u))
        ∧ ((length spt_u < 2)%nat → row.1 = (SNan, SNan))
        ∧ ((2 ≤ length spt_u)%nat → row.1 = (SMeanLog diffs, SStdLog diffs)).
Proof.
  apply (stat_summary_rows Inputs.fresh_calculator Inputs.early [(5, 0)]).
  - reflexivity.
  - discriminate.
  - simpl. lia.
Defined.

Lemma sorted_diffs_positive (l : list Z) :
  StronglySorted Z.le l →
  Forall (fun t => - 2 ^ 62 ≤ t < 2 ^ 62) l →
  Forall (fun d => 1 ≤ d) (RecordingAugmentation.firing_diff l).
Proof.
  unfold RecordingAugmentation.firing_diff.
  induction l as [|x [|y l] IH]; intros Hs Hr; [by constructor..|].
  change (removelast (x :: y :: l)) with (x :: removelast (y :: l)).
  cbn [tail] in *. cbn [zip_with]. rewrite fmap_cons. constructor.
  - apply StronglySorted_inv in Hs as [_ Hx].
    apply Forall_cons in Hx as [Hxy _].
    apply Forall_cons in Hr as [Hx [Hy _]%Forall_cons].
    rewrite wrap64_small by (unfold Np.int64; lia).
    destruct (Z.eqb_spec (y - x) 0); lia.
  - apply IH.
    + by apply StronglySorted_inv in Hs as [Hs _].
    + by apply Forall_cons in Hr as [_ Hr].
Qed.

(** X16: the inter-spike differences handed to [np.log] are all at least 1,
    whatever the order of the spikes in the train, as long as the spike
    times are small enough for their differences not to overflow. *)
Theorem firing_diff_positive (spt : spt_array) (u : Z) :
  Forall (fun t => - 2 ^ 62 ≤ t < 2 ^ 62) (times spt) →
  Forall (fun d => 1 ≤ d)
    (RecordingAugmentation.firing_diff (Np.sort (times_of spt u))).
Proof.
  intros Hr. apply sorted_diffs_positive.
  - unfold Np.sort. apply StronglySorted_merge_sort; apply _.
  - apply Forall_forall. intros t Ht. unfold Np.sort in Ht.
    rewrite merge_sort_Permutation in Ht. unfold times_of in Ht.
    apply list_elem_of_fmap in Ht as ([t' x] & -> & Hin).
    apply list_elem_of_filter in Hin as [_ Hin].
    rewrite Forall_forall in Hr. apply Hr. unfold times.
    apply list_elem_of_fmap. by exists (t', x).
Qed.

Lemma firing_diff_positive_witness :
  Forall (fun d => 1 ≤ d)
    (RecordingAugmentation.firing_diff
       (Np.sort (times_of [(300, 0); (100, 0); (100, 0)] 0))).
Proof.
  apply (firing_diff_positive [(300, 0); (100, 0); (100, 0)] 0).
  repeat constructor; simpl; lia.
Defined.

End Summary.

(** ** The new spikes of [make_fake_spike_train] *)

Section NewSpikes.

Lemma index_run {A} (a : list A) (i : Z) :
  0 ≤ i < Z.of_nat (length a) →
  ∃ x, Np.index a i = ok x ∧ a !! Z.to_nat i = Some x.
Proof.
  intros Hi. unfold Np.index, Np.norm_index.
  destruct (Z.ltb_spec i (- Z.of_nat (length a))); [lia|].
  destruct (Z.leb_spec (Z.of_nat (length a)) i); [lia|]. simpl.
  destruct (Z.ltb_spec i 0); [lia|].
  destruct (lookup_lt_is_Some_2 a (Z.to_nat i)) as [x Hx]; [lia|].
  rewrite Hx. eauto.
Qed.

Lemma compute_stat_summary_run (template_comp : MeanWaveCalculator.t)
    (w : world) (spt : spt_array) :
  arrays w !! MeanWaveCalculator.spike_train template_comp = Some spt →
  0 ≤ MeanWaveCalculator.n_units template_comp →
  RecordingAugmentation.compute_stat_summary template_comp w
  = ok (RecordingAugmentation.stat_rows
          (MeanWaveCalculator.n_units template_comp) spt, w).
Proof.
  intros Hload Hn.
  unfold RecordingAugmentation.compute_stat_summary, mbind, lift, Np.zeros.
  destruct (Z.ltb_spec (MeanWaveCalculator.n_units template_comp) 0); [lia|].
  cbn [ok]. by rewrite (load_run _ _ spt).
Qed.

Lemma py_int_quarter (n : Z) : 0 ≤ n → py_int (inject_Z n * (1 # 4)) = n / 4.
Proof.
  intros Hn. unfold py_int. simpl. rewrite Z.mul_1_r.
  apply Z.quot_div_nonneg; lia.
Qed.

(** X17: for the object built by [RecordingAugmentation.__init__] over a
    non-empty train, the default augmentation rate 0.25 gives every unit a
    quarter of its spike count, rounded down, as its number of new spikes. *)
Theorem new_spike_count_quarter (mean_wave_calculator : MeanWaveCalculator.t)
    (w : world) (spt : spt_array) :
  arrays w !! MeanWaveCalculator.spike_train mean_wave_calculator = Some spt →
  spt ≠ [] →
  0 ≤ MeanWaveCalculator.n_units mean_wave_calculator →
  ∃ self,
    RecordingAugmentation.init mean_wave_calculator w = ok (self, w)
    ∧ ∀ u, 0 ≤ u < MeanWaveCalculator.n_units mean_wave_calculator →
        RecordingAugmentation.new_spike_count self (1 # 4) u
        = ok (Z.of_nat (length (times_of spt u)) / 4).
Proof.
  intros Hload Hne Hn.
  unfold RecordingAugmentation.init, mbind.
  rewrite (compute_stat_summary_run _ _ spt) by done. cbn [ok]. unfold mret.
  eexists. split; [reflexivity|].
  intros u Hu.
  unfold RecordingAugmentation.new_spike_count,
    RecordingAugmentation.summary_count.
  cbn [RecordingAugmentation.stat_summary].
  destruct (index_run
              (RecordingAugmentation.stat_rows
                 (MeanWaveCalculator.n_units mean_wave_calculator) spt) u)
    as (row & -> & Hrow).
  { unfold RecordingAugmentation.stat_rows, Np.range.
    rewrite length_fmap, length_seqZ. lia. }
  unfold RecordingAugmentation.stat_rows, Np.range in Hrow.
  rewrite list_lookup_fmap in Hrow.
  destruct (seqZ 0 _ !! Z.to_nat u) as [z|] eqn:Hz; [|done].
  apply lookup_seqZ in Hz as [-> _]. simpl in Hrow.
  rewrite bool_decide_eq_true_2 in Hrow.
  2:{ unfold spt_gt. rewrite length_fmap. by destruct spt. }
  injection Hrow as <-. cbn [rbind ok snd].
  replace (Z.of_nat (Z.to_nat u)) with u by lia.
  rewrite sort_length. f_equal. apply py_int_quarter. lia.
Qed.

Lemma new_spike_count_quarter_witness :
  ∃ self,
    RecordingAugmentation.init Inputs.fresh_calculator Inputs.early
    = ok (self, Inputs.early)
    ∧ ∀ u, 0 ≤ u < MeanWaveCalculator.n_units Inputs.fresh_calculator →
        RecordingAugmentation.new_spike_count self (1 # 4) u
        = ok (Z.of_nat (length (times_of [(5, 0)] u)) / 4).
Proof.
  apply (new_spike_count_quarter Inputs.fresh_calculator Inputs.early
           [(5, 0)]).
  - reflexivity.
  - discriminate.
  - simpl. lia.
Defined.

Lemma refractory_floor (g : Z) :
  0 ≤ g < 2 ^ 61 →
  RecordingAugmentation.refractory_period ≤ refractory g < 2 ^ 61 + 60.
Proof.
  intros Hg. unfold refractory, RecordingAugmentation.refractory_period.
  destruct (Z.ltb_spec g 60).
  - rewrite wrap64_small by (unfold Np.int64; lia). lia.
  - lia.
Qed.

(** X18: every spike of the synthetic train carries the label of a unit of
    the original train and comes at least the refractory period (60 samples)
    after a spike of that unit in the original train, provided the anchors
    drawn are spike times of the unit, the gaps drawn are not negative, and
    both are small enough for the sums not to overflow. *)
Theorem fake_spikes_follow_anchors (self : RecordingAugmentation.t)
    (d : Draws) (rate : Q) (w : world) (spt : spt_array) :
  let n_units :=
    MeanWaveCalculator.n_units (RecordingAugmentation.template_comp self) in
  arrays w !! MeanWaveCalculator.spike_train
                (RecordingAugmentation.template_comp self) = Some spt →
  Forall (fun t => - 2 ^ 61 ≤ t < 2 ^ 61) (times spt) →
  (∀ u, 0 ≤ u < n_units →
        draws_fit self d rate spt u
        ∧ anchors_of self d rate spt u ⊆ times_of spt u
        ∧ Forall (fun g => 0 ≤ g < 2 ^ 61) (gaps_of self d rate u)) →
  ∃ rows,
    RecordingAugmentation.make_fake_spike_train self d rate w = ok (rows, w)
    ∧ ∀ t u, (t, u) ∈ rows →
        0 ≤ u < n_units
        ∧ ∃ anchor, anchor ∈ times_of spt u
                    ∧ anchor + RecordingAugmentation.refractory_period ≤ t.
Proof.
  intros n_units Hload Htimes Hfit.
  destruct (fake_loop_run self d rate spt (Np.range n_units) [] [])
    as (times' & cid' & Hloop & Hlen & Hzip); [done| |].
  { intros u Hu. apply Hfit. apply elem_of_seqZ in Hu. lia. }
  exists (zip times' cid'). split.
  - unfold RecordingAugmentation.make_fake_spike_train, mbind.
    rewrite (load_run _ _ spt) by done. simpl.
    fold n_units. rewrite Hloop. simpl.
    unfold RecordingAugmentation.columns.
    by rewrite bool_decide_eq_true_2.
  - intros t u Hin. rewrite Hzip in Hin. simpl in Hin.
    apply list_elem_of_In, in_concat in Hin as (chunk & Hchunk & Hin).
    apply list_elem_of_In, list_elem_of_fmap in Hchunk as (v & -> & Hv).
    apply list_elem_of_In in Hin. unfold new_rows_of in Hin.
    apply list_elem_of_fmap in Hin as (t' & [= -> ->] & Ht).
    apply elem_of_seqZ in Hv. split; [lia|].
    destruct (Hfit v) as (_ & Hsub & Hgaps); [lia|].
    unfold elementwise_times in Ht.
    apply elem_of_lookup_zip_with in Ht as (i & a & g & -> & Ha & Hg).
    assert (Hain : a ∈ times_of spt v).
    { apply Hsub. apply list_elem_of_lookup_2 in Ha. unfold Np.sort in Ha.
      by rewrite merge_sort_Permutation in Ha. }
    exists a. split; [done|].
    assert (Har : - 2 ^ 61 ≤ a < 2 ^ 61).
    { unfold times_of in Hain.
      apply list_elem_of_fmap in Hain as ([a' x] & -> & Hr).
      apply list_elem_of_filter in Hr as [_ Hr].
      rewrite Forall_forall in Htimes. apply Htimes. unfold times.
      apply list_elem_of_fmap. by exists (a', x). }
    assert (Hgr : 0 ≤ g < 2 ^ 61).
    { rewrite Forall_forall in Hgaps. apply Hgaps.
      by eapply list_elem_of_lookup_2. }
    pose proof (refractory_floor g Hgr) as Hf.
    unfold RecordingAugmentation.refractory_period in *.
    rewrite wrap64_small by (unfold Np.int64; lia). lia.
Qed.

Lemma fake_spikes_follow_anchors_witness :
  ∃ rows,
    RecordingAugmentation.make_fake_spike_train Inputs.eight_augmentation
      Inputs.draws_two (1 # 4) Inputs.eight_world
    = ok (rows, Inputs.eight_world)
    ∧ ∀ t u, (t, u) ∈ rows →
        0 ≤ u < MeanWaveCalculator.n_units
                  (RecordingAugmentation.template_comp
                     Inputs.eight_augmentation)
        ∧ ∃ anchor, anchor ∈ times_of Inputs.eight_train u
                    ∧ anchor + RecordingAugmentation.refractory_period ≤ t.
Proof.
  apply (fake_spikes_follow_anchors Inputs.eight_augmentation
           Inputs.draws_two (1 # 4) Inputs.eight_world Inputs.eight_train).
  - vm_compute. reflexivity.
  - repeat constructor; simpl; lia.
  - intros u Hu.
    assert (Hn : MeanWaveCalculator.n_units
                   (RecordingAugmentation.template_comp
                      Inputs.eight_augmentation) = 1)
      by (vm_compute; reflexivity).
    rewrite Hn in Hu. assert (u = 0) as -> by lia.
    split; [|split].
    + exists 2. split; [vm_compute; reflexivity|].
      split; [simpl; lia|]. split; vm_compute; reflexivity.
    + assert (Ha : anchors_of Inputs.eight_augmentation Inputs.draws_two
                     (1 # 4) Inputs.eight_train 0 = [300; 100])
        by (vm_compute; reflexivity).
      assert (Ht : times_of Inputs.eight_train 0
                   = [20; 100; 140; 200; 260; 300; 360; 420])
        by (vm_compute; reflexivity).
      rewrite Ha, Ht.
      intros x [<-|[<-|[]]]%list_elem_of_In; apply list_elem_of_In;
        simpl; tauto.
    + assert (Hg : gaps_of Inputs.eight_augmentation Inputs.draws_two
                     (1 # 4) 0 = [70; 80])
        by (vm_compute; reflexivity).
      rewrite Hg. repeat constructor; lia.
Defined.

End NewSpikes.

(** ** [save_augment_recording] *)

Section SaveRecording.

Variable move_spatial_trace : RecordingAugmentation.t → block Q → Z → block Q.

Lemma inject_fold_skips self moved moved_templates orig_templates ts spt : ∀ n,
  foldl (RecordingAugmentation.inject_spike self moved moved_templates
           orig_templates) (ts, n) spt
  = (ts, n + Z.of_nat (length spt)).
Proof.
  induction spt as [|r spt IH]; intros n; simpl.
  - f_equal. lia.
  - rewrite inject_spike_skips, IH. f_equal. lia.
Qed.

Local Abbreviation reader_of self :=
  (MeanWaveCalculator.batch_reader (RecordingAugmentation.template_comp self)).

Lemma augment_loop_run self out scale moved moved_templates orig_templates
    aug ids : ∀ bv w written,
  files w !! out = Some written →
  (cursor w + length ids ≤ length (RecordingBatchIterator.batches (reader_of self)))%nat →
  RecordingAugmentation.augment_loop self out scale moved moved_templates
    orig_templates aug ids bv w
  = ok (bv + sumZ ((fun i => Z.of_nat (length (batch_spikes aug
                      (RecordingBatchIterator.batch_time_samples (reader_of self)) i)))
                     <$> ids),
        World (arrays w) (cursor w + length ids)%nat
          (<[out := written
                    ++ (RecordingAugmentation.scale_int16 scale
                          <$> take (length ids)
                                (drop (cursor w)
                                   (RecordingBatchIterator.batches (reader_of self))))]>
             (files w))).
Proof.
  induction ids as [|i ids IH]; intros bv w written Hfile Hcur.
  - simpl. unfold mret. rewrite app_nil_r, insert_id by done.
    rewrite Nat.add_0_r, world_eta. do 2 f_equal. unfold sumZ. simpl. lia.
  - simpl in Hcur. cbn [RecordingAugmentation.augment_loop]. unfold mbind.
    unfold RecordingBatchIterator.next_batch.
    destruct (lookup_lt_is_Some_2 (RecordingBatchIterator.batches (reader_of self))
                (cursor w)) as [ts Hts]; [lia|].
    rewrite Hts. cbn [ok]. rewrite inject_fold_skips.
    unfold RecordingAugmentation.tofile. cbn [ok arrays cursor files].
    rewrite Hfile. cbn [default].
    erewrite IH; [|simpl; apply lookup_insert_eq|simpl; lia].
    cbn [arrays cursor files]. rewrite insert_insert_eq.
    rewrite fmap_cons, sumZ_cons.
    rewrite (drop_S _ _ _ Hts). cbn [take length]. rewrite fmap_cons.
    rewrite <- app_assoc. cbn [app].
    do 2 f_equal; [lia|]. f_equal. lia.
Qed.

Lemma relabel_loop_run moved units : ∀ aug nid,
  (∀ u, u ∈ units → 0 ≤ u < Z.of_nat (length moved)) →
  ∃ aug', RecordingAugmentation.relabel_loop moved units aug nid = ok aug'
          ∧ times aug' = times aug.
Proof.
  induction units as [|u units IH]; intros aug nid Hu.
  - by exists aug.
  - cbn [RecordingAugmentation.relabel_loop].
    destruct (index_run moved u) as (m & -> & _); [apply Hu; left|].
    cbn [rbind ok].
    assert (Hrest : ∀ v, v ∈ units → 0 ≤ v < Z.of_nat (length moved)).
    { intros v Hv. apply Hu. by right. }
    destruct (negb (m =? 0)).
    + destruct (IH (col1_assign_where u nid aug) (nid + 1) Hrest)
        as (aug' & -> & Ht).
      exists aug'. split; [done|]. rewrite Ht.
      unfold times, col1_assign_where. rewrite <- list_fmap_compose.
      apply list_fmap_ext. intros k [t x] _. simpl. by case_bool_decide.
    + apply IH. done.
Qed.

Lemma moved_loop_length self d orig_templates units : ∀ i moved mt moved' mt',
  RecordingAugmentation.moved_loop move_spatial_trace self d orig_templates i
    units moved mt = ok (moved', mt') →
  length moved' = length moved.
Proof.
  induction units as [|u units IH]; intros i moved mt moved' mt'.
  - by intros [= <- <-].
  - cbn [RecordingAugmentation.moved_loop].
    destruct (Np.norm_index (length moved) u) as [e|ku]; [done|].
    cbn [rbind ok].
    destruct (Np.index orig_templates u) as [e|template]; [done|].
    cbn [rbind ok].
    destruct (Np.norm_index (length mt) i) as [e|ki]; [done|].
    cbn [rbind ok]. intros Hrun. apply IH in Hrun.
    by rewrite length_insert in Hrun.
Qed.

Lemma choose_moved_length self d move_rate moved mt :
  RecordingAugmentation.choose_moved move_spatial_trace self d move_rate
  = ok (moved, mt) →
  let n_units :=
    MeanWaveCalculator.n_units (RecordingAugmentation.template_comp self) in
  0 ≤ n_units ∧ length moved = Z.to_nat n_units.
Proof.
  unfold RecordingAugmentation.choose_moved.
  destruct (_ || _); [done|]. cbn [rbind ok].
  destruct (zeros_mat _ _) as [e|template]; [done|]. cbn [rbind ok].
  destruct (Np.zeros template _) as [e|mt0]; [done|]. cbn [rbind ok].
  unfold Np.zeros at 1.
  destruct (Z.ltb_spec (MeanWaveCalculator.n_units
              (RecordingAugmentation.template_comp self)) 0); [done|].
  cbn [rbind ok]. intros Hrun. apply moved_loop_length in Hrun.
  rewrite length_replicate in Hrun. split; [lia|done].
Qed.

Lemma make_fake_any_world self d rate w aug w' :
  RecordingAugmentation.make_fake_spike_train self d rate w = ok (aug, w') →
  ∀ w2, arrays w2 = arrays w →
        RecordingAugmentation.make_fake_spike_train self d rate w2
        = ok (aug, w2).
Proof.
  unfold RecordingAugmentation.make_fake_spike_train, mbind, load, lift.
  intros Hrun w2 Harr. rewrite Harr.
  destruct (arrays w !! _) as [spt|]; [|done]. cbn [ok] in *.
  destruct (RecordingAugmentation.fake_loop _ _ _ _ _ _ _)
    as [e|[times cid]]; [done|].
  simpl in *.
  destruct (RecordingAugmentation.columns times cid) as [e|rows]; [done|].
  by injection Hrun as <- <-.
Qed.

Lemma augment_run self d out length move_rate scale w aug w0 moved mt :
  RecordingAugmentation.choose_moved move_spatial_trace self d move_rate
  = ok (moved, mt) →
  RecordingAugmentation.make_fake_spike_train self d (1 # 4) w = ok (aug, w0) →
  0 ≤ length →
  (Z.to_nat length
   ≤ List.length (RecordingBatchIterator.batches (reader_of self)))%nat →
  ∃ aug',
    RecordingAugmentation.augment move_spatial_trace self d out length
      move_rate scale w
    = ok ((aug',
           spikes_inside aug
             (RecordingBatchIterator.batch_time_samples (reader_of self))
             length),
          World (arrays w) (Z.to_nat length)
            (<[out := RecordingAugmentation.scale_int16 scale
                        <$> take (Z.to_nat length)
                              (RecordingBatchIterator.batches (reader_of self))]>
               (files w)))
    ∧ times aug' = times aug
    ∧ RecordingAugmentation.relabel_loop moved
        (Np.range (MeanWaveCalculator.n_units
                     (RecordingAugmentation.template_comp self)))
        aug (MeanWaveCalculator.n_units
               (RecordingAugmentation.template_comp self)) = ok aug'.
Proof.
  intros Hchoose Hfake Hlen Hbatches.
  destruct (choose_moved_length _ _ _ _ _ Hchoose) as [Hn Hmoved].
  destruct (relabel_loop_run moved
              (Np.range (MeanWaveCalculator.n_units
                           (RecordingAugmentation.template_comp self)))
              aug (MeanWaveCalculator.n_units
                     (RecordingAugmentation.template_comp self)))
    as (aug' & Hrel & Htimes).
  { intros u Hu. apply elem_of_seqZ in Hu. lia. }
  exists aug'. split; [|done].
  unfold RecordingAugmentation.augment, mbind.
  unfold RecordingBatchIterator.reset_cursor. cbn [ok].
  rewrite Hchoose. unfold lift at 1. cbn [ok].
  rewrite (make_fake_any_world _ _ _ _ _ _ Hfake) by done. cbn [ok].
  unfold RecordingAugmentation.open_w. cbn [ok arrays cursor files].
  erewrite augment_loop_run;
    [|simpl; apply lookup_insert_eq
     |simpl; unfold Np.range; rewrite length_seqZ; lia].
  cbn [ok arrays cursor files]. rewrite Hrel. unfold lift, mret. cbn [ok].
  unfold Np.range. rewrite length_seqZ, insert_insert_eq. cbn [app drop].
  unfold spikes_inside, Np.range. repeat f_equal; lia.
Qed.

(** X19: [save_augment_recording] writes the recording as it reads it, only
    scaled and cast to int16: no template is added to any batch, for any
    draw and any relocation.  Every augmented spike that falls strictly
    inside a batch is counted as a boundary violation instead. *)
Theorem augment_writes_scaled_recording self d out length move_rate scale
    w aug w0 moved mt :
  RecordingAugmentation.choose_moved move_spatial_trace self d move_rate
  = ok (moved, mt) →
  RecordingAugmentation.make_fake_spike_train self d (1 # 4) w = ok (aug, w0) →
  0 ≤ length →
  (Z.to_nat length
   ≤ List.length (RecordingBatchIterator.batches (reader_of self)))%nat →
  ∃ aug' w',
    RecordingAugmentation.augment move_spatial_trace self d out length
      move_rate scale w
    = ok ((aug',
           spikes_inside aug
             (RecordingBatchIterator.batch_time_samples (reader_of self))
             length), w')
    ∧ files w' !! out
      = Some (RecordingAugmentation.scale_int16 scale
                <$> take (Z.to_nat length)
                      (RecordingBatchIterator.batches (reader_of self)))
    ∧ cursor w' = Z.to_nat length
    ∧ arrays w' = arrays w.
Proof.
  intros Hchoose Hfake Hlen Hbatches.
  destruct (augment_run self d out length move_rate scale w aug w0 moved mt)
    as (aug' & Hrun & _); try done.
  eexists _, _. split; [exact Hrun|]. simpl.
  split; [apply lookup_insert_eq|done].
Qed.

(** X20: the train returned by [save_augment_recording] is the original
    train followed by the augmented spikes, one row per spike drawn and at
    the time drawn; only labels of augmented spikes can differ from the
    ones drawn. *)
Theorem save_returns_original_then_augmented self d out length move_rate
    scale w aug w0 moved mt spt :
  RecordingAugmentation.choose_moved move_spatial_trace self d move_rate
  = ok (moved, mt) →
  RecordingAugmentation.make_fake_spike_train self d (1 # 4) w = ok (aug, w0) →
  0 ≤ length →
  (Z.to_nat length
   ≤ List.length (RecordingBatchIterator.batches (reader_of self)))%nat →
  arrays w !! MeanWaveCalculator.spike_train
                (RecordingAugmentation.template_comp self) = Some spt →
  ∃ aug' w',
    RecordingAugmentation.save_augment_recording move_spatial_trace self d out
      length move_rate scale w = ok (spt ++ aug', w')
    ∧ times aug' = times aug.
Proof.
  intros Hchoose Hfake Hlen Hbatches Hspt.
  destruct (augment_run self d out length move_rate scale w aug w0 moved mt)
    as (aug' & Hrun & Htimes & _); try done.
  exists aug'. eexists. split; [|done].
  unfold RecordingAugmentation.save_augment_recording, mbind.
  rewrite Hrun. cbn [ok]. by rewrite (load_run _ _ spt).
Qed.

End SaveRecording.

Lemma augment_writes_scaled_recording_witness :
  ∃ aug' w',
    RecordingAugmentation.augment Pipeline.stay Pipeline.augmentation
      Inputs.draws "out" 3 (1 # 2) 1000 Pipeline.built
    = ok ((aug',
           spikes_inside [(210, 0)]
             (RecordingBatchIterator.batch_time_samples
                (MeanWaveCalculator.batch_reader
                   (RecordingAugmentation.template_comp
                      Pipeline.augmentation))) 3), w')
    ∧ files w' !! "out"
      = Some (RecordingAugmentation.scale_int16 1000
                <$> take (Z.to_nat 3)
                      (RecordingBatchIterator.batches
                         (MeanWaveCalculator.batch_reader
                            (RecordingAugmentation.template_comp
                               Pipeline.augmentation))))
    ∧ cursor w' = Z.to_nat 3
    ∧ arrays w' = arrays Pipeline.built.
Proof.
  apply (augment_writes_scaled_recording Pipeline.stay Pipeline.augmentation
           Inputs.draws "out" 3 (1 # 2) 1000 Pipeline.built [(210, 0)]
           Pipeline.built [0; 0] [replicate 40 [1%Q]]).
  - vm_compute. reflexivity.
  - vm_compute. reflexivity.
  - lia.
  - vm_compute. lia.
Defined.

Lemma save_returns_original_then_augmented_witness :
  ∃ aug' w',
    RecordingAugmentation.save_augment_recording Pipeline.stay
      Pipeline.augmentation Inputs.draws "out" 3 (1 # 2) 1000 Pipeline.built
    = ok (Pipeline.train ++ aug', w')
    ∧ times aug' = times [(210, 0)].
Proof.
  apply (save_returns_original_then_augmented Pipeline.stay
           Pipeline.augmentation Inputs.draws "out" 3 (1 # 2) 1000
           Pipeline.built [(210, 0)] Pipeline.built [0; 0]
           [replicate 40 [1%Q]] Pipeline.train).
  - vm_compute. reflexivity.
  - vm_compute. reflexivity.
  - lia.
  - vm_compute. lia.
  - vm_compute. reflexivity.
Defined.

(** ** The relabeling of moved units *)

Section Relabel.

Variable moved : list Z.

Lemma relabel_label_notin units : ∀ nid x,
  x ∉ units → relabel_label moved units nid x = x.
Proof.
  induction units as [|u units IH]; intros nid x Hx; [done|].
  apply not_elem_of_cons in Hx as [Hne Hx]. simpl.
  destruct (moved !! Z.to_nat u) as [m|]; [|done].
  destruct (negb (m =? 0)); [|by apply IH].
  rewrite bool_decide_eq_false_2 by done. by apply IH.
Qed.

Lemma relabel_label_range units : ∀ nid x,
  relabel_label moved units nid x = x
  ∨ nid ≤ relabel_label moved units nid x < nid + Z.of_nat (length units).
Proof.
  induction units as [|u units IH]; intros nid x; [by left|]. simpl.
  destruct (moved !! Z.to_nat u) as [m|]; [|by left].
  destruct (negb (m =? 0)).
  - case_bool_decide; [right; lia|].
    destruct (IH (nid + 1) x) as [?|?]; [by left|right; lia].
  - destruct (IH nid x) as [?|?]; [by left|right; lia].
Qed.

Lemma relabel_label_unmoved units : ∀ nid x,
  0 ≤ x → moved !! Z.to_nat x = Some 0 →
  (∀ u, u ∈ units → 0 ≤ u) →
  relabel_label moved units nid x = x.
Proof.
  induction units as [|u units IH]; intros nid x Hx Hm Hu; [done|]. simpl.
  destruct (moved !! Z.to_nat u) as [m|] eqn:Hmu; [|done].
  assert (Hrest : ∀ v, v ∈ units → 0 ≤ v) by (intros v Hv; apply Hu; by right).
  destruct (Z.eqb_spec m 0) as [->|Hne]; simpl; [by apply IH|].
  rewrite bool_decide_eq_false_2; [by apply IH|].
  intros ->. rewrite Hm in Hmu. by injection Hmu as <-.
Qed.

Lemma relabel_label_moved units : ∀ nid x m,
  x ∈ units → moved !! Z.to_nat x = Some m → m ≠ 0 →
  (∀ u, u ∈ units → 0 ≤ u < Z.of_nat (length moved)) →
  nid ≤ relabel_label moved units nid x < nid + Z.of_nat (length units).
Proof.
  induction units as [|u units IH]; intros nid x m Hx Hm Hne Hu.
  - by apply not_elem_of_nil in Hx.
  - simpl.
    destruct (lookup_lt_is_Some_2 moved (Z.to_nat u)) as [mu Hmu].
    { specialize (Hu u (list_elem_of_here _ _)). lia. }
    rewrite Hmu.
    assert (Hrest : ∀ v, v ∈ units → 0 ≤ v < Z.of_nat (length moved))
      by (intros v Hv; apply Hu; by right).
    destruct (decide (x = u)) as [->|Hxu].
    + rewrite Hm in Hmu. injection Hmu as <-.
      destruct (Z.eqb_spec m 0); [done|]. simpl.
      rewrite bool_decide_eq_true_2 by done. lia.
    + apply elem_of_cons in Hx as [?|Hx]; [done|].
      destruct (negb (mu =? 0)).
      * rewrite bool_decide_eq_false_2 by done.
        specialize (IH (nid + 1) x m Hx Hm Hne Hrest). lia.
      * specialize (IH nid x m Hx Hm Hne Hrest). lia.
Qed.

Lemma relabel_label_inj units : ∀ nid x y,
  (∀ u, u ∈ units → u < nid) → x < nid → y < nid →
  relabel_label moved units nid x = relabel_label moved units nid y → x = y.
Proof.
  induction units as [|u units IH]; intros nid x y Hu Hx Hy; [done|]. simpl.
  destruct (moved !! Z.to_nat u) as [m|]; [|done].
  assert (Hrest : ∀ n, nid ≤ n → ∀ v, v ∈ units → v < n).
  { intros n Hn v Hv. specialize (Hu v). rewrite elem_of_cons in Hu.
    specialize (Hu (or_intror Hv)). lia. }
  destruct (negb (m =? 0)).
  - repeat case_bool_decide; subst; try done.
    + intros Heq.
      destruct (relabel_label_range units (nid + 1) y) as [E|E];
        rewrite <- Heq in E; lia.
    + intros Heq.
      destruct (relabel_label_range units (nid + 1) x) as [E|E];
        rewrite Heq in E; lia.
    + apply IH; [apply Hrest; lia|lia|lia].
  - apply IH; [apply Hrest; lia|done|done].
Qed.

Lemma relabel_loop_spec units : ∀ aug nid,
  (∀ u, u ∈ units → 0 ≤ u < Z.of_nat (length moved) ∧ u < nid) →
  RecordingAugmentation.relabel_loop moved units aug nid
  = ok ((fun r => (r.1, relabel_label moved units nid r.2)) <$> aug).
Proof.
  induction units as [|u units IH]; intros aug nid Hu.
  - simpl. f_equal. rewrite <- (list_fmap_id aug) at 1.
    apply list_fmap_ext. by intros _ [t x] _.
  - cbn [RecordingAugmentation.relabel_loop].
    destruct (index_run moved u) as (m & -> & Hm); [apply Hu; left|].
    cbn [rbind ok].
    assert (Hnid : nid ∉ units).
    { intros Hin. specialize (Hu nid). rewrite elem_of_cons in Hu.
      specialize (Hu (or_intror Hin)). lia. }
    destruct (negb (m =? 0)) eqn:Hneg.
    + rewrite IH.
      2:{ intros v Hv. specialize (Hu v). rewrite elem_of_cons in Hu.
          specialize (Hu (or_intror Hv)). lia. }
      f_equal. unfold col1_assign_where. rewrite <- list_fmap_compose.
      apply list_fmap_ext. intros _ [t x] _. simpl. rewrite Hm, Hneg.
      case_bool_decide; simpl; [|done].
      by rewrite relabel_label_notin.
    + rewrite IH.
      2:{ intros v Hv. apply Hu. by right. }
      f_equal. apply list_fmap_ext. intros _ [t x] _. simpl.
      by rewrite Hm, Hneg.
Qed.

(** X21: the relabeling at the end of [save_augment_recording] leaves the
    label of every unit whose entry in [moved] is 0 as it is, gives every
    unit whose entry is not 0 a label from [n_units] up to [2 * n_units - 1],
    and keeps different labels different. *)
Theorem relabel_is_fresh_and_injective (n_units : Z) (aug : spt_array) :
  Z.of_nat (length moved) = n_units →
  ∃ f : Z → Z,
    RecordingAugmentation.relabel_loop moved (Np.range n_units) aug n_units
    = ok ((fun r => (r.1, f r.2)) <$> aug)
    ∧ (∀ x, 0 ≤ x < n_units → moved !! Z.to_nat x = Some 0 → f x = x)
    ∧ (∀ x m, 0 ≤ x < n_units → moved !! Z.to_nat x = Some m → m ≠ 0 →
              n_units ≤ f x < n_units + n_units)
    ∧ (∀ x y, x < n_units → y < n_units → f x = f y → x = y).
Proof.
  intros Hlen. exists (relabel_label moved (Np.range n_units) n_units).
  assert (Hr : ∀ u, u ∈ Np.range n_units → 0 ≤ u < n_units).
  { intros u Hu. apply elem_of_seqZ in Hu. lia. }
  split; [|split; [|split]].
  - apply relabel_loop_spec. intros u Hu. apply Hr in Hu. lia.
  - intros x Hx Hm. apply relabel_label_unmoved; [lia|done|].
    intros u Hu. apply Hr in Hu. lia.
  - intros x m Hx Hm Hne.
    pose proof (relabel_label_moved (Np.range n_units) n_units x m) as Hb.
    assert (Hl : Z.of_nat (length (Np.range n_units)) = n_units)
      by (unfold Np.range; rewrite length_seqZ; lia).
    rewrite Hl in Hb. apply Hb; [|done|done|].
    + apply elem_of_seqZ. lia.
    + intros u Hu. apply Hr in Hu. lia.
  - intros x y Hx Hy. apply relabel_label_inj; [|done|done].
    intros u Hu. apply Hr in Hu. lia.
Qed.

End Relabel.

Lemma relabel_is_fresh_and_injective_witness :
  ∃ f : Z → Z,
    RecordingAugmentation.relabel_loop [0; 1; 0] (Np.range 3)
      [(210, 0); (300, 1); (400, 2)] 3
    = ok ((fun r => (r.1, f r.2)) <$> [(210, 0); (300, 1); (400, 2)])
    ∧ (∀ x, 0 ≤ x < 3 → [0; 1; 0] !! Z.to_nat x = Some 0 → f x = x)
    ∧ (∀ x m, 0 ≤ x < 3 → [0; 1; 0] !! Z.to_nat x = Some m → m ≠ 0 →
              3 ≤ f x < 3 + 3)
    ∧ (∀ x y, x < 3 → y < 3 → f x = f y → x = y).
Proof.
  apply (relabel_is_fresh_and_injective [0; 1; 0] 3
           [(210, 0); (300, 1); (400, 2)]).
  reflexivity.
Defined.

(** ** The constructor of [MeanWaveCalculator] *)

Section CalculatorInit.

Lemma accumulate_spike_lengths window ts st r :
  let st' := MeanWaveCalculator.accumulate_spike window ts st r in
  length (MeanWaveCalculator.acc_templates st')
  = length (MeanWaveCalculator.acc_templates st)
  ∧ length (MeanWaveCalculator.acc_counts st')
    = length (MeanWaveCalculator.acc_counts st).
Proof.
  unfold MeanWaveCalculator.accumulate_spike, MeanWaveCalculator.accumulate.
  destruct (Np.norm_index _ r.2) as [e|u]; simpl; [done|].
  destruct (Np.index (MeanWaveCalculator.acc_templates st) r.2)
    as [e|template]; simpl; [done|].
  destruct (Np.take ts _) as [e|snippet]; simpl; [done|].
  destruct (mat_add template snippet) as [e|summed]; simpl; [done|].
  destruct (Np.index (MeanWaveCalculator.acc_counts st) r.2) as [e|c];
    simpl; [done|].
  by rewrite !length_insert.
Qed.

Lemma accumulate_fold_lengths window ts spt : ∀ st,
  let st' := foldl (MeanWaveCalculator.accumulate_spike window ts) st spt in
  length (MeanWaveCalculator.acc_templates st')
  = length (MeanWaveCalculator.acc_templates st)
  ∧ length (MeanWaveCalculator.acc_counts st')
    = length (MeanWaveCalculator.acc_counts st).
Proof.
  induction spt as [|r spt IH]; intros st; simpl; [done|].
  destruct (accumulate_spike_lengths window ts st r) as [Ht Hc].
  destruct (IH (MeanWaveCalculator.accumulate_spike window ts st r))
    as [Ht' Hc'].
  split; congruence.
Qed.

Lemma batch_loop_lengths self a ids : ∀ st w st' w',
  MeanWaveCalculator.batch_loop self a ids st w = ok (st', w') →
  length (MeanWaveCalculator.acc_templates st')
  = length (MeanWaveCalculator.acc_templates st)
  ∧ length (MeanWaveCalculator.acc_counts st')
    = length (MeanWaveCalculator.acc_counts st).
Proof.
  induction ids as [|i ids IH]; intros st w st' w'.
  - by intros [= <- <-].
  - cbn [MeanWaveCalculator.batch_loop]. unfold mbind.
    destruct (RecordingBatchIterator.next_batch _ w) as [e|[ts w1]]; [done|].
    intros Hrun. apply IH in Hrun as [Ht Hc].
    destruct (accumulate_fold_lengths (MeanWaveCalculator.window self) ts
                (batch_spikes a (RecordingBatchIterator.batch_time_samples
                   (MeanWaveCalculator.batch_reader self)) i) st) as [Ht' Hc'].
    split; congruence.
Qed.

Lemma batch_loop_short self a ids : ∀ st w,
  ids ≠ [] →
  (length (RecordingBatchIterator.batches
             (MeanWaveCalculator.batch_reader self))
   < cursor w + length ids)%nat →
  MeanWaveCalculator.batch_loop self a ids st w = raise ValueError.
Proof.
  induction ids as [|i ids IH]; intros st w Hne Hshort; [done|].
  cbn [MeanWaveCalculator.batch_loop]. unfold mbind.
  unfold RecordingBatchIterator.next_batch.
  destruct (_ !! cursor w) as [ts|] eqn:Hts; [|done]. cbn [ok].
  apply lookup_lt_Some in Hts.
  apply IH; [|simpl in *; lia].
  intros ->. simpl in *. lia.
Qed.

Lemma max_shifted_labels (a : spt_array) (U : Z) :
  a ≠ [] → U < 2 ^ 63 → (∀ v, v ∈ labels a ↔ 0 ≤ v < U) →
  Np.max ((fun l => Np.wrap64 (l + 1)) <$> labels a) = ok U.
Proof.
  intros Ha HU Hl.
  assert (HU0 : 0 < U).
  { destruct a as [|[t x] a]; [done|].
    assert (x ∈ labels ((t, x) :: a)) as Hx by left. apply Hl in Hx. lia. }
  destruct (np_max_spec ((fun l => Np.wrap64 (l + 1)) <$> labels a)) as (-> & _).
  { destruct a; [done|discriminate]. }
  f_equal. apply max_of_unique.
  - apply list_elem_of_fmap. exists (U - 1). split.
    + rewrite wrap64_small by (unfold Np.int64; lia). lia.
    + apply Hl. lia.
  - intros x Hx. apply list_elem_of_fmap in Hx as (l & -> & Hin).
    apply Hl in Hin. rewrite wrap64_small by (unfold Np.int64; lia). lia.
Qed.

(** The constructor up to the call of [compute_templates]. *)
Lemma calculator_init_prefix (batch_reader : RecordingBatchIterator.t)
    (spike_train : positive) (w : world) (a : spt_array) :
  arrays w !! spike_train = Some a →
  a ≠ [] → Forall label_ok (labels a) →
  Z.of_nat (length a) < 2 ^ 63 →
  0 ≤ RecordingBatchIterator.n_chan batch_reader →
  let w1 := World (<[spike_train := clean_array a]> (arrays w))
              (cursor w) (files w) in
  ∃ templates,
    length templates = Z.to_nat (distinct a)
    ∧ 0 < distinct a
    ∧ MeanWaveCalculator.init batch_reader spike_train w
      = (let* '(self, status) :=
           MeanWaveCalculator.compute_templates
             (MeanWaveCalculator.Build batch_reader spike_train
                (Np.range2 (-10) 30) (distinct a) templates) 5 in
         mret self)%M w1.
Proof.
  intros Ha Hne Hok Hlen Hchan w1.
  pose proof (normalized_clean a Hne Hok) as [Hcne (U & HU & Hl)].
  assert (Hd : distinct (clean_array a) = U).
  { apply range_distinct; [|done].
    destruct (clean_array a) as [|[t x] a']; [done|].
    assert (x ∈ labels ((t, x) :: a')) as Hx by left. apply Hl in Hx. lia. }
  rewrite distinct_clean in Hd by done.
  assert (HUlen : U ≤ Z.of_nat (length a)).
  { rewrite <- Hd. unfold distinct, labels.
    pose proof (NoDup_remove_dups (snd <$> a)) as Hnd.
    assert (Hsub : remove_dups (snd <$> a) ⊆+ snd <$> a).
    { apply NoDup_submseteq; [done|]. intros x. by rewrite elem_of_remove_dups. }
    apply submseteq_length in Hsub. rewrite length_fmap in Hsub. lia. }
  assert (HU0 : 0 < U).
  { destruct (clean_array a) as [|[t x] a']; [done|].
    assert (x ∈ labels ((t, x) :: a')) as Hx by left. apply Hl in Hx. lia. }
  exists (replicate (Z.to_nat U)
            (replicate 40 (replicate
               (Z.to_nat (RecordingBatchIterator.n_chan batch_reader)) 0%Q))).
  rewrite Hd. split; [by rewrite length_replicate|]. split; [done|].
  unfold MeanWaveCalculator.init. unfold mbind at 1.
  rewrite (clean_spike_train_run _ _ a) by done. cbn [ok]. fold w1.
  unfold mbind at 1. rewrite (load_run _ _ (clean_array a))
    by (simpl; apply lookup_insert_eq). cbn [ok].
  unfold mbind at 1. rewrite (max_shifted_labels _ U) by (done || lia).
  unfold lift at 1. cbn [ok].
  unfold mbind at 1. unfold zeros_mat, Np.zeros.
  destruct (Z.ltb_spec (RecordingBatchIterator.n_chan batch_reader) 0); [lia|].
  cbn [rbind ok]. unfold lift at 1. cbn [ok].
  unfold mbind at 1.
  destruct (Z.ltb_spec U 0); [lia|]. unfold lift at 1. cbn [ok].
  reflexivity.
Qed.

(** X22: on a non-empty train with non-negative labels, over a recording
    that still holds five batches, the constructor of [MeanWaveCalculator]
    succeeds: it normalizes the caller's array in place, finds as many units
    as there are distinct labels, builds one template per unit over the
    window -10..29, and leaves the cursor five batches further. *)
Theorem calculator_init_reads_five_batches
    (batch_reader : RecordingBatchIterator.t) (spike_train : positive)
    (w : world) (a : spt_array) :
  arrays w !! spike_train = Some a →
  a ≠ [] → Forall label_ok (labels a) →
  Z.of_nat (length a) < 2 ^ 63 →
  0 ≤ RecordingBatchIterator.n_chan batch_reader →
  (cursor w + 5 ≤ length (RecordingBatchIterator.batches batch_reader))%nat →
  ∃ self w',
    MeanWaveCalculator.init batch_reader spike_train w = ok (self, w')
    ∧ MeanWaveCalculator.n_units self = distinct a
    ∧ length (MeanWaveCalculator.templates self) = Z.to_nat (distinct a)
    ∧ MeanWaveCalculator.window self = Np.range2 (-10) 30
    ∧ cursor w' = (cursor w + 5)%nat
    ∧ arrays w' = <[spike_train := clean_array a]> (arrays w).
Proof.
  intros Ha Hne Hok Hlen Hchan Hbatches.
  destruct (calculator_init_prefix batch_reader spike_train w a)
    as (templates & Htl & Hd & ->); try done.
  set (self0 := MeanWaveCalculator.Build batch_reader spike_train
                  (Np.range2 (-10) 30) (distinct a) templates).
  destruct (batch_loop_accounts self0 (clean_array a) (Np.range 5)
              (MeanWaveCalculator.Acc templates
                 (replicate (Z.to_nat (distinct a)) 0) 0)
              (World (<[spike_train := clean_array a]> (arrays w))
                 (cursor w) (files w)))
    as (st' & Hrun & _).
  { simpl. by rewrite length_replicate. }
  { simpl. lia. }
  destruct (batch_loop_lengths _ _ _ _ _ _ _ Hrun) as [Ht Hc].
  simpl in Ht, Hc. rewrite length_replicate in Hc.
  unfold mbind, MeanWaveCalculator.compute_templates,
    MeanWaveCalculator.accumulate_batches, mbind, lift, Np.zeros.
  cbn [MeanWaveCalculator.n_units MeanWaveCalculator.spike_train
       MeanWaveCalculator.templates self0].
  destruct (Z.ltb_spec (distinct a) 0); [lia|]. cbn [ok].
  rewrite (load_run _ _ (clean_array a)) by (simpl; apply lookup_insert_eq).
  cbn [ok]. fold self0. rewrite Hrun. cbn [ok]. unfold mret.
  eexists _, _. split; [reflexivity|]. simpl.
  split; [done|]. split; [|done].
  unfold MeanWaveCalculator.normalise. rewrite length_zip_with. lia.
Qed.

Lemma calculator_init_reads_five_batches_witness :
  ∃ self w',
    MeanWaveCalculator.init Inputs.ramp 1 Inputs.gappy = ok (self, w')
    ∧ MeanWaveCalculator.n_units self = distinct Inputs.gaps
    ∧ length (MeanWaveCalculator.templates self)
      = Z.to_nat (distinct Inputs.gaps)
    ∧ MeanWaveCalculator.window self = Np.range2 (-10) 30
    ∧ cursor w' = (cursor Inputs.gappy + 5)%nat
    ∧ arrays w' = <[1%positive := clean_array Inputs.gaps]>
                    (arrays Inputs.gappy).
Proof.
  apply (calculator_init_reads_five_batches Inputs.ramp 1 Inputs.gappy
           Inputs.gaps).
  - reflexivity.
  - discriminate.
  - repeat constructor; unfold label_ok; simpl; lia.
  - simpl. lia.
  - simpl. lia.
  - simpl. lia.
Defined.

(** X23: the constructor of [MeanWaveCalculator] always reads five batches:
    over a recording with fewer than five batches left it raises
    ValueError. *)
Theorem calculator_init_short_recording
    (batch_reader : RecordingBatchIterator.t) (spike_train : positive)
    (w : world) (a : spt_array) :
  arrays w !! spike_train = Some a →
  a ≠ [] → Forall label_ok (labels a) →
  Z.of_nat (length a) < 2 ^ 63 →
  0 ≤ RecordingBatchIterator.n_chan batch_reader →
  (length (RecordingBatchIterator.batches batch_reader) < cursor w + 5)%nat →
  MeanWaveCalculator.init batch_reader spike_train w = raise ValueError.
Proof.
  intros Ha Hne Hok Hlen Hchan Hbatches.
  destruct (calculator_init_prefix batch_reader spike_train w a)
    as (templates & Htl & Hd & ->); try done.
  set (self0 := MeanWaveCalculator.Build batch_reader spike_train
                  (Np.range2 (-10) 30) (distinct a) templates).
  unfold mbind, MeanWaveCalculator.compute_templates,
    MeanWaveCalculator.accumulate_batches, mbind, lift, Np.zeros.
  cbn [MeanWaveCalculator.n_units MeanWaveCalculator.spike_train
       MeanWaveCalculator.templates self0].
  destruct (Z.ltb_spec (distinct a) 0); [lia|]. cbn [ok].
  rewrite (load_run _ _ (clean_array a)) by (simpl; apply lookup_insert_eq).
  cbn [ok]. fold self0.
  rewrite batch_loop_short; [done|done|]. simpl. lia.
Qed.

Lemma calculator_init_short_recording_witness :
  MeanWaveCalculator.init
    (RecordingBatchIterator.Build 100 1 [(0%Q, 0%Q)]
       (replicate 4 (replicate 100 [1%Q])))
    1 Inputs.gappy
  = raise ValueError.
Proof.
  apply (calculator_init_short_recording _ 1 Inputs.gappy Inputs.gaps).
  - reflexivity.
  - discriminate.
  - repeat constructor; unfold label_ok; simpl; lia.
  - simpl. lia.
  - simpl. lia.
  - simpl. lia.
Defined.

End CalculatorInit.

(** ** The units chosen for relocation *)

Section ChooseMoved.

Variable move_spatial_trace : RecordingAugmentation.t → block Q → Z → block Q.

Lemma norm_index_run (len : nat) (u : Z) :
  0 ≤ u < Z.of_nat len → Np.norm_index len u = ok (Z.to_nat u).
Proof.
  intros Hu. unfold Np.norm_index.
  destruct (Z.ltb_spec u (- Z.of_nat len)); [lia|].
  destruct (Z.leb_spec (Z.of_nat len) u); [lia|]. simpl.
  by destruct (Z.ltb_spec u 0); [lia|].
Qed.

(** The loop over the drawn units: the unit at position [j] gets the entry
    [i + j] of [moved] and the relocated template at that index. *)
Lemma moved_loop_spec self d (orig : list (block Q)) (units : list Z) :
  ∀ (i : nat) (moved : list Z) (mt : list (block Q)),
  NoDup units →
  (∀ u, u ∈ units → 0 ≤ u < Z.of_nat (length moved)
                    ∧ u < Z.of_nat (length orig)) →
  (i + length units ≤ length mt)%nat →
  ∃ moved' mt',
    RecordingAugmentation.moved_loop move_spatial_trace self d orig
      (Z.of_nat i) units moved mt = ok (moved', mt')
    ∧ length moved' = length moved ∧ length mt' = length mt
    ∧ (∀ j u, units !! j = Some u →
         moved' !! Z.to_nat u = Some (Z.of_nat (i + j))
         ∧ ∃ tpl, orig !! Z.to_nat u = Some tpl
                  ∧ mt' !! (i + j)%nat
                    = Some (move_spatial_trace self tpl
                              (draw_dist d (Z.of_nat (i + j)))))
    ∧ (∀ p, Z.of_nat p ∉ units → moved' !! p = moved !! p)
    ∧ (∀ q, (q < i)%nat → mt' !! q = mt !! q).
Proof.
  induction units as [|u units IH]; intros i moved mt Hnd Hu Hlen.
  - exists moved, mt. simpl. repeat split; try done.
  - apply NoDup_cons in Hnd as [Hnotin Hnd].
    destruct (Hu u) as [Hu1 Hu2]; [left|].
    cbn [RecordingAugmentation.moved_loop].
    rewrite norm_index_run by done. cbn [rbind ok].
    destruct (index_run orig u) as (tpl & -> & Htpl); [lia|].
    cbn [rbind ok]. simpl in Hlen.
    rewrite norm_index_run by lia. cbn [rbind ok]. rewrite Nat2Z.id.
    replace (Z.of_nat i + 1) with (Z.of_nat (S i)) by lia.
    destruct (IH (S i) (<[Z.to_nat u := Z.of_nat i]> moved)
                (<[i := move_spatial_trace self tpl
                          (draw_dist d (Z.of_nat i))]> mt))
      as (moved' & mt' & -> & Hl1 & Hl2 & Hin & Hout & Hbefore).
    + done.
    + intros v Hv. rewrite length_insert. apply Hu. by right.
    + rewrite length_insert. lia.
    + rewrite length_insert in Hl1. rewrite length_insert in Hl2.
      exists moved', mt'. split; [done|]. split; [done|]. split; [done|].
      split; [|split].
      * intros [|j] v Hj.
        -- simpl in Hj. injection Hj as <-.
           rewrite Nat.add_0_r. split.
           ++ rewrite Hout by (rewrite Z2Nat.id by lia; done).
              apply list_lookup_insert_eq. lia.
           ++ exists tpl. split; [done|].
              rewrite Hbefore by lia. apply list_lookup_insert_eq. lia.
        -- simpl in Hj. destruct (Hin j v Hj) as [H1 (tpl' & H2 & H3)].
           replace (i + S j)%nat with (S i + j)%nat by lia. eauto.
      * intros p Hp. rewrite not_elem_of_cons in Hp. destruct Hp as [Hp1 Hp2].
        rewrite Hout by done. apply list_lookup_insert_ne. lia.
      * intros q Hq. rewrite Hbefore by lia.
        apply list_lookup_insert_ne. lia.
Qed.

Local Abbreviation calc self := (RecordingAugmentation.template_comp self).
Local Abbreviation drawn_of self d move_rate :=
  (draw_units d (MeanWaveCalculator.n_units (calc self))
     (py_int (move_rate * inject_Z (MeanWaveCalculator.n_units (calc self))))).

Lemma choose_moved_run self d move_rate :
  0 ≤ py_int (move_rate * inject_Z (MeanWaveCalculator.n_units (calc self)))
    ≤ MeanWaveCalculator.n_units (calc self) →
  length (MeanWaveCalculator.templates (calc self))
  = Z.to_nat (MeanWaveCalculator.n_units (calc self)) →
  0 ≤ RecordingBatchIterator.n_chan
        (MeanWaveCalculator.batch_reader (calc self)) →
  NoDup (drawn_of self d move_rate) →
  (∀ u, u ∈ drawn_of self d move_rate →
        0 ≤ u < MeanWaveCalculator.n_units (calc self)) →
  ∃ moved mt,
    RecordingAugmentation.choose_moved move_spatial_trace self d move_rate
    = ok (moved, mt)
    ∧ length moved = Z.to_nat (MeanWaveCalculator.n_units (calc self))
    ∧ length mt = length (drawn_of self d move_rate)
    ∧ (∀ i u, Np.sort (drawn_of self d move_rate) !! i = Some u →
         moved !! Z.to_nat u = Some (Z.of_nat i)
         ∧ ∃ tpl,
             MeanWaveCalculator.templates (calc self) !! Z.to_nat u = Some tpl
             ∧ mt !! i = Some (move_spatial_trace self tpl
                                 (draw_dist d (Z.of_nat i))))
    ∧ (∀ u, 0 ≤ u < MeanWaveCalculator.n_units (calc self) →
            u ∉ drawn_of self d move_rate → moved !! Z.to_nat u = Some 0).
Proof.
  intros Hk Htl Hchan Hnd Hrange.
  set (n := MeanWaveCalculator.n_units (calc self)) in *.
  assert (Hperm : ∀ l, Np.sort l ≡ₚ l)
    by (intros l; apply merge_sort_Permutation).
  unfold RecordingAugmentation.choose_moved. fold n.
  destruct (Z.ltb_spec (py_int (move_rate * inject_Z n)) 0); [lia|].
  destruct (Z.ltb_spec n (py_int (move_rate * inject_Z n))); [lia|].
  cbn [orb rbind ok].
  unfold zeros_mat, Np.zeros.
  destruct (Z.ltb_spec (RecordingBatchIterator.n_chan
              (MeanWaveCalculator.batch_reader (calc self))) 0); [lia|].
  cbn [rbind ok].
  destruct (Z.ltb_spec (Z.of_nat (length (MeanWaveCalculator.window
              (calc self)))) 0); [lia|].
  cbn [rbind ok].
  match goal with
  | |- context [Z.of_nat (length (Np.sort ?l)) <? 0] =>
      destruct (Z.ltb_spec (Z.of_nat (length (Np.sort l))) 0); [lia|]
  end.
  cbn [rbind ok].
  destruct (Z.ltb_spec n 0); [lia|]. cbn [rbind ok].
  match goal with
  | |- context [RecordingAugmentation.moved_loop _ _ _ ?o 0 ?us ?m ?t] =>
      destruct (moved_loop_spec self d o us 0 m t)
        as (moved & mt & Hrun & Hl1 & Hl2 & Hin & Hout & _)
  end.
  - by rewrite Hperm.
  - intros u Hu. rewrite Hperm in Hu. apply Hrange in Hu.
    rewrite length_replicate, Htl. lia.
  - rewrite length_replicate. lia.
  - change (Z.of_nat 0) with 0 in Hrun. rewrite Hrun.
    rewrite length_replicate in Hl1. rewrite length_replicate in Hl2.
    exists moved, mt. split; [done|]. split; [done|].
    split; [by rewrite Hl2, Nat2Z.id, Hperm|]. split.
    + intros i u Hi. apply (Hin i u Hi).
    + intros u Hu Hnotin. rewrite Hout.
      * apply lookup_replicate_2. lia.
      * rewrite Z2Nat.id by lia. by rewrite Hperm.
Qed.

(** X24: when the units drawn for relocation are distinct units of the
    train, the loop of [save_augment_recording] over the sorted draw
    succeeds: the unit at position [i] of the sorted draw gets the entry [i]
    of [moved] and its relocated template is stored at index [i]; a unit
    that was not drawn keeps the entry 0. *)
Theorem moved_holds_position_in_sorted_draw self d move_rate :
  0 ≤ py_int (move_rate * inject_Z (MeanWaveCalculator.n_units (calc self)))
    ≤ MeanWaveCalculator.n_units (calc self) →
  length (MeanWaveCalculator.templates (calc self))
  = Z.to_nat (MeanWaveCalculator.n_units (calc self)) →
  0 ≤ RecordingBatchIterator.n_chan
        (MeanWaveCalculator.batch_reader (calc self)) →
  NoDup (drawn_of self d move_rate) →
  (∀ u, u ∈ drawn_of self d move_rate →
        0 ≤ u < MeanWaveCalculator.n_units (calc self)) →
  ∃ moved mt,
    RecordingAugmentation.choose_moved move_spatial_trace self d move_rate
    = ok (moved, mt)
    ∧ length moved = Z.to_nat (MeanWaveCalculator.n_units (calc self))
    ∧ length mt = length (drawn_of self d move_rate)
    ∧ (∀ i u, Np.sort (drawn_of self d move_rate) !! i = Some u →
         moved !! Z.to_nat u = Some (Z.of_nat i)
         ∧ ∃ tpl,
             MeanWaveCalculator.templates (calc self) !! Z.to_nat u = Some tpl
             ∧ mt !! i = Some (move_spatial_trace self tpl
                                 (draw_dist d (Z.of_nat i))))
    ∧ (∀ u, 0 ≤ u < MeanWaveCalculator.n_units (calc self) →
            u ∉ drawn_of self d move_rate → moved !! Z.to_nat u = Some 0).
Proof. apply choose_moved_run. Qed.

Lemma sorted_head_least (l : list Z) (i : nat) (u : Z) :
  StronglySorted Z.le l → NoDup l → l !! i = Some u →
  (i ≠ 0%nat ↔ ∃ u', u' ∈ l ∧ u' < u).
Proof.
  intros Hs Hnd Hi. destruct l as [|h l]; [done|].
  apply StronglySorted_inv in Hs as [_ Hall].
  apply NoDup_cons in Hnd as [Hh _].
  rewrite Forall_forall in Hall.
  destruct i as [|i]; simpl in Hi.
  - injection Hi as <-. split; [done|].
    intros (u' & Hu' & Hlt). apply elem_of_cons in Hu' as [->|Hu']; [lia|].
    apply Hall in Hu'. lia.
  - split; [|done]. intros _. exists h. split; [left|].
    apply list_elem_of_lookup_2 in Hi.
    pose proof (Hall u Hi). assert (h ≠ u) by (intros ->; done). lia.
Qed.

Lemma sorted_draw_flags (moved drawn : list Z) (n : Z) :
  NoDup drawn →
  (∀ i u, Np.sort drawn !! i = Some u →
          moved !! Z.to_nat u = Some (Z.of_nat i)) →
  (∀ u, 0 ≤ u < n → u ∉ drawn → moved !! Z.to_nat u = Some 0) →
  ∀ u, 0 ≤ u < n →
    ∃ v, moved !! Z.to_nat u = Some v
         ∧ (v ≠ 0 ↔ u ∈ drawn ∧ ∃ u', u' ∈ drawn ∧ u' < u).
Proof.
  intros Hnd Hin Hout u Hu.
  assert (Hperm : Np.sort drawn ≡ₚ drawn) by apply merge_sort_Permutation.
  destruct (decide (u ∈ drawn)) as [Hd|Hd].
  - assert (Hs : u ∈ Np.sort drawn) by (by rewrite Hperm).
    apply list_elem_of_lookup_1 in Hs as [i Hi].
    exists (Z.of_nat i). split; [by apply Hin|].
    pose proof (sorted_head_least (Np.sort drawn) i u) as Hleast.
    destruct Hleast as [H1 H2].
    { apply StronglySorted_merge_sort; apply _. }
    { by rewrite Hperm. }
    { done. }
    split.
    + intros Hne. split; [done|].
      destruct H1 as (u' & Hu' & Hlt); [lia|].
      exists u'. split; [by rewrite <- Hperm|done].
    + intros [_ (u' & Hu' & Hlt)].
      assert (i ≠ 0%nat); [|lia].
      apply H2. exists u'. split; [by rewrite Hperm|done].
  - exists 0. split; [by apply Hout|]. split; [done|]. by intros [? _].
Qed.

(** X25: of the units drawn for relocation all but the smallest one are
    flagged in [moved]: the entry of a unit is not 0 exactly when the unit
    was drawn and a smaller unit was drawn too. *)
Theorem smallest_drawn_unit_is_not_flagged self d move_rate :
  0 ≤ py_int (move_rate * inject_Z (MeanWaveCalculator.n_units (calc self)))
    ≤ MeanWaveCalculator.n_units (calc self) →
  length (MeanWaveCalculator.templates (calc self))
  = Z.to_nat (MeanWaveCalculator.n_units (calc self)) →
  0 ≤ RecordingBatchIterator.n_chan
        (MeanWaveCalculator.batch_reader (calc self)) →
  NoDup (drawn_of self d move_rate) →
  (∀ u, u ∈ drawn_of self d move_rate →
        0 ≤ u < MeanWaveCalculator.n_units (calc self)) →
  ∃ moved mt,
    RecordingAugmentation.choose_moved move_spatial_trace self d move_rate
    = ok (moved, mt)
    ∧ ∀ u, 0 ≤ u < MeanWaveCalculator.n_units (calc self) →
        ∃ v, moved !! Z.to_nat u = Some v
             ∧ (v ≠ 0 ↔ u ∈ drawn_of self d move_rate
                        ∧ ∃ u', u' ∈ drawn_of self d move_rate ∧ u' < u).
Proof.
  intros Hk Htl Hchan Hnd Hrange.
  destruct (choose_moved_run self d move_rate)
    as (moved & mt & Hrun & _ & _ & Hin & Hout); try done.
  exists moved, mt. split; [done|].
  apply sorted_draw_flags; [done| |done].
  intros i u Hi. by apply Hin.
Qed.

(** X26: [save_augment_recording] as a whole, for any relocation function:
    the train returned is the caller's train followed by the synthetic
    spikes under a relabeling [f] of the units.  A unit that was not drawn
    for relocation, and the smallest unit drawn, keep their label; every
    other unit drawn gets a label from [n_units] up to [2 * n_units - 1]. *)
Theorem save_relabels_all_but_smallest_drawn self d out length move_rate
    scale w aug w0 spt :
  0 ≤ py_int (move_rate * inject_Z (MeanWaveCalculator.n_units (calc self)))
    ≤ MeanWaveCalculator.n_units (calc self) →
  List.length (MeanWaveCalculator.templates (calc self))
  = Z.to_nat (MeanWaveCalculator.n_units (calc self)) →
  0 ≤ RecordingBatchIterator.n_chan
        (MeanWaveCalculator.batch_reader (calc self)) →
  NoDup (drawn_of self d move_rate) →
  (∀ u, u ∈ drawn_of self d move_rate →
        0 ≤ u < MeanWaveCalculator.n_units (calc self)) →
  RecordingAugmentation.make_fake_spike_train self d (1 # 4) w = ok (aug, w0) →
  0 ≤ length →
  (Z.to_nat length
   ≤ List.length (RecordingBatchIterator.batches
                    (MeanWaveCalculator.batch_reader (calc self))))%nat →
  arrays w !! MeanWaveCalculator.spike_train (calc self) = Some spt →
  ∃ (f : Z → Z) w',
    RecordingAugmentation.save_augment_recording move_spatial_trace self d out
      length move_rate scale w
    = ok (spt ++ ((fun r => (r.1, f r.2)) <$> aug), w')
    ∧ (∀ u, 0 ≤ u < MeanWaveCalculator.n_units (calc self) →
            u ∉ drawn_of self d move_rate
            ∨ (∀ u', u' ∈ drawn_of self d move_rate → u ≤ u') →
            f u = u)
    ∧ (∀ u u', u ∈ drawn_of self d move_rate →
               u' ∈ drawn_of self d move_rate → u' < u →
               MeanWaveCalculator.n_units (calc self) ≤ f u
               < MeanWaveCalculator.n_units (calc self)
                 + MeanWaveCalculator.n_units (calc self)).
Proof.
  intros Hk Htl Hchan Hnd Hrange Hfake Hlen Hbatches Hspt.
  destruct (choose_moved_run self d move_rate)
    as (moved & mt & Hchoose & Hml & _ & Hin & Hout); try done.
  set (n := MeanWaveCalculator.n_units (calc self)) in *.
  assert (Hflags := sorted_draw_flags moved _ n Hnd
                      (fun i u Hi => proj1 (Hin i u Hi)) Hout).
  assert (Hr : ∀ u, u ∈ Np.range n → 0 ≤ u < n).
  { intros u Hu. apply elem_of_seqZ in Hu. lia. }
  destruct (augment_run move_spatial_trace self d out length move_rate scale
              w aug w0 moved mt) as (aug' & Hrun & _ & Hrel); try done.
  fold n in Hrel.
  rewrite (relabel_loop_spec moved) in Hrel.
  2:{ intros u Hu. apply Hr in Hu. lia. }
  injection Hrel as <-.
  exists (relabel_label moved (Np.range n) n). eexists.
  split; [|split].
  - unfold RecordingAugmentation.save_augment_recording, mbind.
    rewrite Hrun. cbn [ok]. by rewrite (load_run _ _ spt).
  - intros u Hu Hsmall.
    destruct (Hflags u Hu) as (v & Hv & Hiff).
    destruct (decide (v = 0)) as [->|Hne].
    + apply relabel_label_unmoved; [lia|done|].
      intros x Hx. apply Hr in Hx. lia.
    + apply Hiff in Hne as [Hd (u' & Hu' & Hlt)].
      destruct Hsmall as [Hs|Hs]; [done|]. apply Hs in Hu'. lia.
  - intros u u' Hu Hu' Hlt.
    pose proof (Hrange u Hu) as Hur.
    destruct (Hflags u Hur) as (v & Hv & Hiff).
    pose proof (relabel_label_moved moved (Np.range n) n u v) as Hb.
    assert (Hl : Z.of_nat (List.length (Np.range n)) = n)
      by (unfold Np.range; rewrite length_seqZ; lia).
    rewrite Hl in Hb. apply Hb; [|done| |].
    + apply elem_of_seqZ. lia.
    + apply Hiff. split; [done|]. by exists u'.
    + intros x Hx. apply Hr in Hx. lia.
Qed.

End ChooseMoved.

Lemma moved_holds_position_in_sorted_draw_witness :
  ∃ moved mt,
    RecordingAugmentation.choose_moved Pipeline.stay Relocation.augmentation
      Relocation.draws (2 # 3)
    = ok (moved, mt)
    ∧ length moved = Z.to_nat 3
    ∧ length mt = length [2; 0]
    ∧ (∀ i u, Np.sort [2; 0] !! i = Some u →
         moved !! Z.to_nat u = Some (Z.of_nat i)
         ∧ ∃ tpl,
             MeanWaveCalculator.templates Relocation.calculator
               !! Z.to_nat u = Some tpl
             ∧ mt !! i = Some (Pipeline.stay Relocation.augmentation tpl
                                 (draw_dist Relocation.draws (Z.of_nat i))))
    ∧ (∀ u, 0 ≤ u < 3 → u ∉ [2; 0] → moved !! Z.to_nat u = Some 0).
Proof.
  apply (moved_holds_position_in_sorted_draw Pipeline.stay
           Relocation.augmentation Relocation.draws (2 # 3)).
  - vm_compute. split; discriminate.
  - reflexivity.
  - simpl. lia.
  - simpl. apply NoDup_cons_2; [|apply NoDup_singleton].
    rewrite list_elem_of_singleton. lia.
  - simpl. intros u Hu. repeat (apply elem_of_cons in Hu as [->|Hu]; [lia|]).
    by apply not_elem_of_nil in Hu.
Defined.

Lemma smallest_drawn_unit_is_not_flagged_witness :
  ∃ moved mt,
    RecordingAugmentation.choose_moved Pipeline.stay Relocation.augmentation
      Relocation.draws (2 # 3)
    = ok (moved, mt)
    ∧ ∀ u, 0 ≤ u < 3 →
        ∃ v, moved !! Z.to_nat u = Some v
             ∧ (v ≠ 0 ↔ u ∈ [2; 0] ∧ ∃ u', u' ∈ [2; 0] ∧ u' < u).
Proof.
  apply (smallest_drawn_unit_is_not_flagged Pipeline.stay
           Relocation.augmentation Relocation.draws (2 # 3)).
  - vm_compute. split; discriminate.
  - reflexivity.
  - simpl. lia.
  - simpl. apply NoDup_cons_2; [|apply NoDup_singleton].
    rewrite list_elem_of_singleton. lia.
  - simpl. intros u Hu. repeat (apply elem_of_cons in Hu as [->|Hu]; [lia|]).
    by apply not_elem_of_nil in Hu.
Defined.

Lemma save_relabels_all_but_smallest_drawn_witness :
  ∃ (f : Z → Z) w',
    RecordingAugmentation.save_augment_recording Pipeline.stay
      Pipeline.augmentation draws_both "out" 3 1 1000 Pipeline.built
    = ok (Pipeline.train ++ ((fun r => (r.1, f r.2)) <$> [(210, 0)]), w')
    ∧ (∀ u,
         0 ≤ u < MeanWaveCalculator.n_units
                   (RecordingAugmentation.template_comp Pipeline.augmentation) →
         u ∉ draw_units draws_both
               (MeanWaveCalculator.n_units
                  (RecordingAugmentation.template_comp Pipeline.augmentation))
               (py_int (1 * inject_Z
                  (MeanWaveCalculator.n_units
                     (RecordingAugmentation.template_comp
                        Pipeline.augmentation))))
         ∨ (∀ u',
              u' ∈ draw_units draws_both
                     (MeanWaveCalculator.n_units
                        (RecordingAugmentation.template_comp
                           Pipeline.augmentation))
                     (py_int (1 * inject_Z
                        (MeanWaveCalculator.n_units
                           (RecordingAugmentation.template_comp
                              Pipeline.augmentation)))) →
              u ≤ u') →
         f u = u)
    ∧ (∀ u u',
         u ∈ draw_units draws_both
               (MeanWaveCalculator.n_units
                  (RecordingAugmentation.template_comp Pipeline.augmentation))
               (py_int (1 * inject_Z
                  (MeanWaveCalculator.n_units
                     (RecordingAugmentation.template_comp
                        Pipeline.augmentation)))) →
         u' ∈ draw_units draws_both
                (MeanWaveCalculator.n_units
                   (RecordingAugmentation.template_comp Pipeline.augmentation))
                (py_int (1 * inject_Z
                   (MeanWaveCalculator.n_units
                      (RecordingAugmentation.template_comp
                         Pipeline.augmentation)))) →
         u' < u →
         MeanWaveCalculator.n_units
           (RecordingAugmentation.template_comp Pipeline.augmentation)
         ≤ f u
         < MeanWaveCalculator.n_units
             (RecordingAugmentation.template_comp Pipeline.augmentation)
           + MeanWaveCalculator.n_units
               (RecordingAugmentation.template_comp Pipeline.augmentation)).
Proof.
  apply (save_relabels_all_but_smallest_drawn Pipeline.stay
           Pipeline.augmentation draws_both "out" 3 1 1000 Pipeline.built
           [(210, 0)] Pipeline.built Pipeline.train).
  - vm_compute. split; discriminate.
  - vm_compute. reflexivity.
  - vm_compute. discriminate.
  - simpl. apply NoDup_cons_2; [|apply NoDup_singleton].
    rewrite list_elem_of_singleton. lia.
  - intros u Hu.
    assert (Hn : MeanWaveCalculator.n_units
                   (RecordingAugmentation.template_comp
                      Pipeline.augmentation) = 2)
      by (vm_compute; reflexivity).
    rewrite Hn. change (u ∈ [1; 0]) in Hu.
    apply elem_of_cons in Hu as [->|Hu]; [lia|].
    apply list_elem_of_singleton in Hu as ->. lia.
  - vm_compute. reflexivity.
  - lia.
  - vm_compute. lia.
  - vm_compute. reflexivity.
Defined.

(** * Array objects that share their rows *)

(** ** Rows of a buffer *)

Section Rows.

Lemma rows_length v buf :
  Shared.fits v buf → length (Shared.rows v buf) = Shared.count v.
Proof.
  unfold Shared.fits, Shared.rows. intros Hf.
  rewrite length_take, length_drop. lia.
Qed.

Lemma write_length v buf new :
  Shared.fits v buf → length new = Shared.count v →
  length (Shared.write v buf new) = length buf.
Proof.
  unfold Shared.fits, Shared.write. intros Hf Hn.
  rewrite !length_app, length_take, length_drop. lia.
Qed.

Lemma fits_write v v' buf new :
  Shared.fits v buf → length new = Shared.count v → Shared.fits v' buf →
  Shared.fits v' (Shared.write v buf new).
Proof.
  intros Hf Hn Hf'. unfold Shared.fits. rewrite write_length by done. done.
Qed.

Lemma rows_write v buf new :
  Shared.fits v buf → length new = Shared.count v →
  Shared.rows v (Shared.write v buf new) = new.
Proof.
  unfold Shared.fits, Shared.rows, Shared.write. intros Hf Hn.
  rewrite drop_app_length' by (rewrite length_take; lia).
  by rewrite take_app_length'.
Qed.

Lemma write_rows v buf : Shared.write v buf (Shared.rows v buf) = buf.
Proof.
  unfold Shared.rows, Shared.write.
  transitivity (take (Shared.first v) buf ++ drop (Shared.first v) buf);
    [|apply take_drop].
  f_equal.
  transitivity (take (Shared.count v) (drop (Shared.first v) buf)
                ++ drop (Shared.count v) (drop (Shared.first v) buf));
    [|apply take_drop].
  f_equal. rewrite drop_drop, length_take, length_drop.
  destruct (decide (Shared.count v ≤ length buf - Shared.first v)%nat).
  - f_equal. lia.
  - rewrite !drop_ge by lia. done.
Qed.

Lemma write_write v buf x y :
  Shared.fits v buf → length x = Shared.count v → length y = Shared.count v →
  Shared.write v (Shared.write v buf x) y = Shared.write v buf y.
Proof.
  unfold Shared.fits. intros Hf Hx Hy. unfold Shared.write.
  rewrite take_app_length' by (rewrite length_take; lia).
  do 2 f_equal. rewrite app_assoc.
  rewrite drop_app_length' by (rewrite length_app, length_take; lia).
  f_equal. lia.
Qed.

Lemma lookup_write_outside v buf new (k : nat) :
  Shared.fits v buf → length new = Shared.count v →
  (k < Shared.first v ∨ Shared.first v + Shared.count v ≤ k)%nat →
  Shared.write v buf new !! k = buf !! k.
Proof.
  unfold Shared.fits, Shared.write, spt_array in *. intros Hf Hn [Hk|Hk].
  - rewrite lookup_app_l by (rewrite length_take; lia).
    by apply lookup_take_lt.
  - rewrite lookup_app_r by (rewrite length_take; lia).
    rewrite lookup_app_r by (rewrite length_take; lia).
    rewrite lookup_drop, length_take. f_equal. lia.
Qed.

Lemma lookup_rows v buf (k : nat) :
  Shared.rows v buf !! k
  = if decide (k < Shared.count v)%nat then buf !! (Shared.first v + k)%nat
    else None.
Proof.
  unfold Shared.rows, spt_array in *. by rewrite lookup_take, lookup_drop.
Qed.

(** Writing the rows of one array leaves the rows of an array apart from it
    as they are. *)
Lemma rows_write_apart v1 v2 buf new :
  Shared.fits v1 buf → length new = Shared.count v1 →
  (Shared.first v1 + Shared.count v1 ≤ Shared.first v2
   ∨ Shared.first v2 + Shared.count v2 ≤ Shared.first v1)%nat →
  Shared.rows v2 (Shared.write v1 buf new) = Shared.rows v2 buf.
Proof.
  intros Hf Hn Hapart. apply list_eq. intros k. rewrite !lookup_rows.
  destruct (decide (k < Shared.count v2)%nat); [|done].
  apply lookup_write_outside; [done|done|lia].
Qed.

Lemma times_write v buf new :
  times new = times (Shared.rows v buf) →
  times (Shared.write v buf new) = times buf.
Proof.
  intros Ht. rewrite <- (write_rows v buf) at 2.
  assert (Hl : length new = length (Shared.rows v buf)).
  { apply (f_equal length) in Ht. unfold times in Ht.
    by rewrite !length_fmap in Ht. }
  unfold Shared.write, times in *. rewrite !fmap_app, Ht, Hl. done.
Qed.

Lemma relabel_from_length units : ∀ i a,
  length (relabel_from i units a) = length a.
Proof.
  intros i a. pose proof (relabel_from_times units i a) as Ht.
  apply (f_equal length) in Ht. unfold times in Ht.
  by rewrite !length_fmap in Ht.
Qed.

Lemma clean_array_length a : length (clean_array a) = length a.
Proof.
  pose proof (clean_array_times a) as Ht.
  apply (f_equal length) in Ht. unfold times in Ht.
  by rewrite !length_fmap in Ht.
Qed.

End Rows.

(** ** [clean_spike_train] on rows of a buffer *)

Section SharedClean.

Variable layout : gmap positive Shared.view.

Lemma shared_load_run l w v buf :
  layout !! l = Some v → arrays w !! Shared.buffer v = Some buf →
  Shared.load layout l w = ok (Shared.rows v buf, w).
Proof. unfold Shared.load. by intros -> ->. Qed.

Lemma shared_update_run l f w v buf :
  layout !! l = Some v → arrays w !! Shared.buffer v = Some buf →
  Shared.update layout l f w
  = ok (tt, World (<[Shared.buffer v
                     := Shared.write v buf (f (Shared.rows v buf))]> (arrays w))
              (cursor w) (files w)).
Proof. unfold Shared.update. by intros -> ->. Qed.

Lemma shared_clean_loop_run l v units : ∀ i w buf,
  layout !! l = Some v → arrays w !! Shared.buffer v = Some buf →
  Shared.fits v buf →
  Shared.clean_loop layout l i units w
  = ok (tt, World (<[Shared.buffer v
                     := Shared.write v buf
                          (relabel_from i units (Shared.rows v buf))]>
                     (arrays w))
              (cursor w) (files w)).
Proof.
  induction units as [|u units IH]; intros i w buf Hl Hb Hf; simpl.
  - unfold mret. rewrite write_rows, insert_id by done. by rewrite world_eta.
  - unfold mbind. rewrite (shared_update_run _ _ _ v buf) by done. simpl.
    assert (Hlen : length (col1_assign_where u i (Shared.rows v buf))
                   = Shared.count v).
    { unfold col1_assign_where. rewrite length_fmap. by apply rows_length. }
    rewrite (IH _ _ (Shared.write v buf
                       (col1_assign_where u i (Shared.rows v buf)))); simpl.
    + rewrite insert_insert_eq, rows_write by done.
      rewrite write_write; [done|done|done|].
      by rewrite relabel_from_length.
    + done.
    + apply lookup_insert_eq.
    + by apply fits_write.
Qed.

(** The call overwrites the rows of its argument, in the buffer, by the
    normalized rows. *)
Lemma shared_clean_spike_train_run l w v buf :
  layout !! l = Some v → arrays w !! Shared.buffer v = Some buf →
  Shared.fits v buf →
  Shared.clean_spike_train layout l w
  = ok (l, World (<[Shared.buffer v
                    := Shared.write v buf (clean_array (Shared.rows v buf))]>
                    (arrays w))
             (cursor w) (files w)).
Proof.
  intros Hl Hb Hf. unfold Shared.clean_spike_train, mbind.
  rewrite (shared_load_run _ _ v buf) by done. simpl.
  rewrite (shared_update_run _ _ _ v buf) by done. simpl.
  set (n := Z.of_nat (length (Np.unique (labels (Shared.rows v buf))))).
  assert (Hlen : length (col1_add n (Shared.rows v buf)) = Shared.count v).
  { unfold col1_add. rewrite length_fmap. by apply rows_length. }
  erewrite (shared_clean_loop_run l v);
    [|done|simpl; apply lookup_insert_eq|by apply fits_write].
  simpl. unfold mret. rewrite insert_insert_eq, rows_write by done.
  rewrite write_write; [done|done|done|].
  by rewrite relabel_from_length.
Qed.

End SharedClean.

(** ** Array objects that own their rows *)

Section Owned.

Lemma rows_owner l a : Shared.rows (Shared.owner l (length a)) a = a.
Proof. unfold Shared.rows, Shared.owner. simpl. by rewrite take_ge. Qed.

Lemma write_owner l a new :
  length new = length a →
  Shared.write (Shared.owner l (length a)) a new = new.
Proof.
  intros Hn. unfold Shared.write, Shared.owner. simpl.
  rewrite drop_ge by lia. by rewrite app_nil_r.
Qed.

Lemma lookup_owners w l :
  Shared.owners w !! l
  = (fun a : spt_array => Shared.owner l (length a)) <$> arrays w !! l.
Proof.
  unfold Shared.owners. rewrite map_lookup_imap.
  destruct (arrays w !! l); reflexivity.
Qed.

Lemma owners_insert w l (a a' : spt_array) c f :
  arrays w !! l = Some a → length a' = length a →
  Shared.owners (World (<[l := a']> (arrays w)) c f) = Shared.owners w.
Proof.
  intros Ha Hlen. apply map_eq. intros k. rewrite !lookup_owners. simpl.
  destruct (decide (l = k)) as [<-|Hne].
  - rewrite lookup_insert_eq, Ha. simpl. by rewrite Hlen.
  - by rewrite lookup_insert_ne.
Qed.

Lemma shared_load_owned w0 w l :
  Shared.owners w0 = Shared.owners w →
  Shared.load (Shared.owners w0) l w = load l w.
Proof.
  intros ->. unfold Shared.load, load. rewrite lookup_owners.
  destruct (arrays w !! l) as [a|] eqn:Ha; simpl; [|done].
  by rewrite Ha, rows_owner.
Qed.

(** On an array object that owns its rows, [Shared.clean_spike_train] is
    [clean_spike_train]. *)
Lemma shared_clean_owned w0 w l :
  Shared.owners w0 = Shared.owners w →
  Shared.clean_spike_train (Shared.owners w0) l w = clean_spike_train l w.
Proof.
  intros ->. destruct (arrays w !! l) as [a|] eqn:Ha.
  - rewrite (shared_clean_spike_train_run _ l w
               (Shared.owner l (length a)) a).
    + rewrite (clean_spike_train_run l w a) by done. simpl.
      by rewrite rows_owner, write_owner by apply clean_array_length.
    + rewrite lookup_owners, Ha. done.
    + done.
    + unfold Shared.fits. simpl. lia.
  - unfold Shared.clean_spike_train, clean_spike_train, mbind,
      Shared.load, load.
    by rewrite lookup_owners, Ha.
Qed.

Lemma mbind_ext {A B} (m m' : M A) (k k' : A → M B) (w : world) :
  m w = m' w →
  (∀ a w', m' w = ok (a, w') → k a w' = k' a w') →
  mbind m k w = mbind m' k' w.
Proof.
  intros Hm Hk. unfold mbind. rewrite Hm.
  destruct (m' w) as [e|[a w']] eqn:Hrun; [done|]. by apply Hk.
Qed.

Lemma clean_keeps_owners l w x w1 :
  clean_spike_train l w = ok (x, w1) → Shared.owners w1 = Shared.owners w.
Proof.
  destruct (arrays w !! l) as [a|] eqn:Ha.
  - rewrite (clean_spike_train_run _ _ a) by done. intros [= _ <-].
    eapply owners_insert; [done|apply clean_array_length].
  - unfold clean_spike_train, mbind, load. by rewrite Ha.
Qed.

Lemma load_keeps_world l w a w1 : load l w = ok (a, w1) → w1 = w.
Proof.
  unfold load. destruct (arrays w !! l); [|done]. by intros [= _ <-].
Qed.

(** On array objects that own their rows the two constructors agree. *)
Lemma shared_init_fields_owned w spt_base spt :
  Shared.init_fields (Shared.owners w) spt_base spt w
  = SpikeSortingEvaluation.init_fields spt_base spt w.
Proof.
  unfold Shared.init_fields, SpikeSortingEvaluation.init_fields.
  apply mbind_ext; [by apply shared_clean_owned|].
  intros b w1 H1. apply clean_keeps_owners in H1.
  apply mbind_ext; [by apply shared_clean_owned|].
  intros s w2 H2. apply clean_keeps_owners in H2.
  apply mbind_ext; [apply shared_load_owned; congruence|].
  intros b' w3 H3. apply load_keeps_world in H3 as ->.
  apply mbind_ext; [apply shared_load_owned; congruence|].
  done.
Qed.

Lemma shared_init_owned w spt_base spt :
  Shared.init (Shared.owners w) spt_base spt w
  = SpikeSortingEvaluation.init spt_base spt w.
Proof.
  unfold Shared.init, SpikeSortingEvaluation.init.
  apply mbind_ext; [apply shared_init_fields_owned|done].
Qed.

End Owned.

(** ** The claims that depend on shared rows *)

Section SharedClaims.

Variable layout : gmap positive Shared.view.

(** C9, amended: [clean_spike_train] works in place.  It returns the array
    object it was given, and nothing but rows of that array is written: the
    other buffers, the rows of the buffer outside the array, the cursor and
    the files are as before, and so is the time column.  When the labels are
    not negative, the label column of the array is overwritten by the
    normalized labels (the rank of each label among the distinct labels),
    which are exactly [0 .. U-1] for [U] distinct labels; the memory of the
    caller is left as it was only if the labels were exactly [0 .. U-1]
    already. *)
Theorem clean_spike_train_in_place (w : world) (spt : positive)
    (v : Shared.view) (buf : spt_array) :
  layout !! spt = Some v →
  arrays w !! Shared.buffer v = Some buf →
  Shared.fits v buf →
  ∃ buf',
    Shared.clean_spike_train layout spt w
    = ok (spt, World (<[Shared.buffer v := buf']> (arrays w))
                 (cursor w) (files w))
    ∧ times buf' = times buf
    ∧ (∀ k : nat,
         (k < Shared.first v ∨ Shared.first v + Shared.count v ≤ k)%nat →
         buf' !! k = buf !! k)
    ∧ (Forall label_ok (labels (Shared.rows v buf)) →
       labels (Shared.rows v buf')
       = rank_label 0 (Np.unique (labels (Shared.rows v buf)))
           <$> labels (Shared.rows v buf)
       ∧ (∀ x, x ∈ labels (Shared.rows v buf')
               ↔ 0 ≤ x < distinct (Shared.rows v buf))
       ∧ (buf' = buf
          ↔ ∀ x, x ∈ labels (Shared.rows v buf)
                 ↔ 0 ≤ x < distinct (Shared.rows v buf))).
Proof.
  intros Hl Hb Hf.
  set (a := Shared.rows v buf).
  assert (Hlen : length (clean_array a) = Shared.count v).
  { rewrite clean_array_length. by apply rows_length. }
  exists (Shared.write v buf (clean_array a)).
  split; [by apply shared_clean_spike_train_run|].
  split; [apply times_write, clean_array_times|].
  split; [intros k Hk; by apply lookup_write_outside|].
  intros Hok. rewrite rows_write by done. fold a.
  assert (Hrange : ∀ x, x ∈ labels (clean_array a) ↔ 0 ≤ x < distinct a).
  { intros x. rewrite clean_array_range by done.
    unfold distinct. by rewrite unique_length. }
  split; [by apply clean_array_labels|]. split; [done|].
  split.
  - intros Heq x.
    assert (Hrows : clean_array a = a).
    { unfold a at 2. rewrite <- Heq at 1. by rewrite rows_write. }
    rewrite <- Hrows at 1. apply Hrange.
  - intros Hnorm.
    assert (Hclean : clean_array a = a).
    { destruct (decide (a = [])) as [->|Hne]; [done|].
      apply clean_array_normalized. split; [done|].
      exists (distinct a). split; [|done].
      unfold distinct. rewrite <- unique_length. by apply unique_bounded. }
    rewrite Hclean. apply write_rows.
Qed.

(** The two calls of [clean_spike_train] at the start of the constructor,
    on two arrays that denote the same rows or have no row in common. *)
Lemma shared_two_cleans (w : world) (spt_base spt : positive)
    (vb vs : Shared.view) (bufb bufs : spt_array) :
  layout !! spt_base = Some vb → layout !! spt = Some vs →
  arrays w !! Shared.buffer vb = Some bufb →
  arrays w !! Shared.buffer vs = Some bufs →
  Shared.fits vb bufb → Shared.fits vs bufs →
  Shared.rows vb bufb ≠ [] → Shared.rows vs bufs ≠ [] →
  Forall label_ok (labels (Shared.rows vb bufb)) →
  Forall label_ok (labels (Shared.rows vs bufs)) →
  Shared.same_or_apart vb vs →
  ∃ w1 w2,
    Shared.clean_spike_train layout spt_base w = ok (spt_base, w1)
    ∧ Shared.clean_spike_train layout spt w1 = ok (spt, w2)
    ∧ Shared.load layout spt_base w2
      = ok (clean_array (Shared.rows vb bufb), w2)
    ∧ Shared.load layout spt w2 = ok (clean_array (Shared.rows vs bufs), w2).
Proof.
  intros Hlb Hls Hb Hs Hfb Hfs Hbne Hsne Hbok Hsok Hsep.
  set (B := Shared.rows vb bufb). set (A := Shared.rows vs bufs).
  assert (HlenB : length (clean_array B) = Shared.count vb).
  { rewrite clean_array_length. by apply rows_length. }
  assert (HlenA : length (clean_array A) = Shared.count vs).
  { rewrite clean_array_length. by apply rows_length. }
  set (buf1 := Shared.write vb bufb (clean_array B)).
  set (w1 := World (<[Shared.buffer vb := buf1]> (arrays w))
               (cursor w) (files w)).
  assert (H1 : Shared.clean_spike_train layout spt_base w = ok (spt_base, w1))
    by by apply shared_clean_spike_train_run.
  destruct (decide (Shared.buffer vb = Shared.buffer vs)) as [Hsame|Hdiff].
  - (* one buffer *)
    assert (bufs = bufb) as -> by (rewrite Hsame in Hb; congruence).
    assert (Hs1 : arrays w1 !! Shared.buffer vs = Some buf1).
    { simpl. rewrite Hsame. apply lookup_insert_eq. }
    assert (Hfs1 : Shared.fits vs buf1) by by apply fits_write.
    assert (Hfb1 : Shared.fits vb buf1) by by apply fits_write.
    assert (Hrows : clean_array (Shared.rows vs buf1) = clean_array A
                    ∧ Shared.rows vb (Shared.write vs buf1 (clean_array A))
                      = clean_array B).
    { destruct Hsep as [->|[?|Hapart]]; [|done|].
      - fold B in A. subst A. unfold buf1. rewrite rows_write by done.
        split.
        + apply clean_array_normalized. by apply normalized_clean.
        + rewrite write_write by done. by rewrite rows_write.
      - unfold buf1 at 1. rewrite rows_write_apart by done. split; [done|].
        rewrite rows_write_apart by (done || lia).
        unfold buf1. by rewrite rows_write. }
    destruct Hrows as [HrA HrB].
    exists w1. eexists. split; [done|]. split.
    + rewrite (shared_clean_spike_train_run layout spt w1 vs buf1) by done.
      rewrite HrA. reflexivity.
    + split.
      * erewrite shared_load_run;
          [|done|simpl; rewrite Hsame; apply lookup_insert_eq].
        by rewrite HrB.
      * erewrite shared_load_run; [|done|simpl; apply lookup_insert_eq].
        by rewrite rows_write.
  - (* two buffers *)
    assert (Hs1 : arrays w1 !! Shared.buffer vs = Some bufs).
    { simpl. by rewrite lookup_insert_ne. }
    exists w1. eexists. split; [done|]. split.
    + rewrite (shared_clean_spike_train_run layout spt w1 vs bufs) by done.
      reflexivity.
    + split.
      * erewrite shared_load_run;
          [|done
           |simpl; rewrite lookup_insert_ne by done; apply lookup_insert_eq].
        unfold buf1. by rewrite rows_write.
      * erewrite shared_load_run; [|done|simpl; apply lookup_insert_eq].
        by rewrite rows_write.
Qed.

(** C10, as stated, fails when the candidate train shares rows with the
    reference train.  For a train [gt] with the labels 0, 1, 2 and the
    candidate [gt[1:2]], the second normalization turns the label 1 of [gt]
    into 0: unit 1 is left with no spike, its count is 0 and its
    true-positive rate is the outcome of a division by zero. *)
Lemma shared_rows_leave_zero_count :
  ∃ self w',
    Shared.load Shared.sliced 1 Shared.recorded
    = ok ([(100, 0); (500, 1); (1000, 2)], Shared.recorded)
    ∧ Shared.load Shared.sliced 2 Shared.recorded
      = ok ([(500, 1)], Shared.recorded)
    ∧ Shared.init Shared.sliced 1 2 Shared.recorded = ok (self, w')
    ∧ Shared.load Shared.sliced 1 w' = ok ([(100, 0); (500, 0); (1000, 2)], w')
    ∧ SpikeSortingEvaluation.n_units self = 3
    ∧ SpikeSortingEvaluation.spike_count_base self = [2; 0; 1]
    ∧ SpikeSortingEvaluation.true_positive self
      = [Fin (1 # 2); PosInf; Fin 1].
Proof.
  eexists _, _. split; [vm_compute; reflexivity|].
  split; [vm_compute; reflexivity|].
  split; [vm_compute; reflexivity|].
  split; [vm_compute; reflexivity|].
  repeat split.
Qed.

(** C10, amended: when the two trains given to the constructor (each
    non-empty, with labels that are not negative) are the same rows or have
    no row in common, the constructor gets through the counting; the labels
    of either train are then exactly [0 .. n-1] for its number [n] of units
    or clusters, the count vectors have one entry per label, the entry of a
    label is the number of spikes with that label, and every entry is
    positive.  Every divisor of [compute_accuracies] is such an entry: the
    rates it yields are finite. *)
Theorem spike_counts_positive (w : world) (spt_base spt : positive)
    (vb vs : Shared.view) (bufb bufs : spt_array) :
  layout !! spt_base = Some vb → layout !! spt = Some vs →
  arrays w !! Shared.buffer vb = Some bufb →
  arrays w !! Shared.buffer vs = Some bufs →
  Shared.fits vb bufb → Shared.fits vs bufs →
  Shared.rows vb bufb ≠ [] → Shared.rows vs bufs ≠ [] →
  Forall label_ok (labels (Shared.rows vb bufb)) →
  Forall label_ok (labels (Shared.rows vs bufs)) →
  Shared.same_or_apart vb vs →
  ∃ self w' b a,
    Shared.init_fields layout spt_base spt w = ok (self, w')
    ∧ Shared.load layout spt_base w' = ok (b, w')
    ∧ Shared.load layout spt w' = ok (a, w')
    ∧ (∀ x, x ∈ labels b ↔ 0 ≤ x < SpikeSortingEvaluation.n_units self)
    ∧ (∀ x, x ∈ labels a ↔ 0 ≤ x < SpikeSortingEvaluation.n_clusters self)
    ∧ SpikeSortingEvaluation.spike_count_base self
      = counts_of b (SpikeSortingEvaluation.n_units self)
    ∧ SpikeSortingEvaluation.spike_count_cluster self
      = counts_of a (SpikeSortingEvaluation.n_clusters self)
    ∧ length (SpikeSortingEvaluation.spike_count_base self)
      = Z.to_nat (SpikeSortingEvaluation.n_units self)
    ∧ length (SpikeSortingEvaluation.spike_count_cluster self)
      = Z.to_nat (SpikeSortingEvaluation.n_clusters self)
    ∧ Forall (fun c => 0 < c) (SpikeSortingEvaluation.spike_count_base self)
    ∧ Forall (fun c => 0 < c)
        (SpikeSortingEvaluation.spike_count_cluster self)
    ∧ ∀ self', SpikeSortingEvaluation.compute_accuracies self = ok self' →
        Forall is_finite (SpikeSortingEvaluation.true_positive self')
        ∧ Forall is_finite (SpikeSortingEvaluation.false_positive self').
Proof.
  intros Hlb Hls Hb Hs Hfb Hfs Hbne Hsne Hbok Hsok Hsep.
  destruct (shared_two_cleans w spt_base spt vb vs bufb bufs)
    as (w1 & w2 & H1 & H2 & HLb & HLs); try done.
  set (b := clean_array (Shared.rows vb bufb)) in *.
  set (a := clean_array (Shared.rows vs bufs)) in *.
  destruct (normalized_clean _ Hbne Hbok) as [Hb2ne (Ub & HUb & Hlab)].
  destruct (normalized_clean _ Hsne Hsok) as [Ha2ne (Ua & HUa & Hlaa)].
  fold b in Hb2ne, Hlab. fold a in Ha2ne, Hlaa.
  assert (HUb0 : 0 < Ub).
  { destruct b as [|[t x] b']; [done|].
    assert (x ∈ labels ((t, x) :: b')) as Hx by left. apply Hlab in Hx. lia. }
  assert (HUa0 : 0 < Ua).
  { destruct a as [|[t x] a']; [done|].
    assert (x ∈ labels ((t, x) :: a')) as Hx by left. apply Hlaa in Hx. lia. }
  pose proof (max_normalized _ _ Hb2ne Hlab) as Hmb.
  pose proof (max_normalized _ _ Ha2ne Hlaa) as Hma.
  pose proof (count_spikes_run _ _ Hb2ne Hlab) as Hcb.
  pose proof (count_spikes_run _ _ Ha2ne Hlaa) as Hcc.
  assert (Hrun : Shared.init_fields layout spt_base spt w
                 = ok (fields_of spt_base spt b a Ub Ua, w2)).
  { unfold Shared.init_fields, mbind.
    rewrite H1. cbn [ok]. rewrite H2. cbn [ok]. rewrite HLb. cbn [ok].
    rewrite HLs. cbn [ok]. unfold lift. rewrite Hmb, Hma. cbn [ok].
    replace (Ub - 1 + 1) with Ub by lia. replace (Ua - 1 + 1) with Ua by lia.
    rewrite Hcb, Hcc. cbn [ok]. unfold Np.zeros.
    destruct (Z.ltb_spec Ub 0) as [?|_]; [lia|]. reflexivity. }
  exists (fields_of spt_base spt b a Ub Ua), w2, b, a.
  split; [done|]. split; [done|]. split; [done|]. simpl.
  split; [done|]. split; [done|]. split; [done|]. split; [done|].
  split; [apply counts_of_length|]. split; [apply counts_of_length|].
  split; [by apply counts_of_positive|].
  split; [by apply counts_of_positive|].
  intros self' Hacc.
  eapply compute_accuracies_finite; [| |exact Hacc]; simpl;
    by apply counts_of_positive.
Qed.

End SharedClaims.

Lemma clean_spike_train_in_place_witness :
  ∃ buf',
    Shared.clean_spike_train Shared.tail_of_four 2 Shared.stored
    = ok (2%positive,
          World (<[1%positive := buf']> (arrays Shared.stored))
            (cursor Shared.stored) (files Shared.stored))
    ∧ times buf' = times Shared.four
    ∧ buf' !! 0%nat = Shared.four !! 0%nat
    ∧ labels (Shared.rows (Shared.View 1 1 3) buf') = [1; 0; 1]
    ∧ buf' ≠ Shared.four.
Proof.
  destruct (clean_spike_train_in_place Shared.tail_of_four Shared.stored 2
              (Shared.View 1 1 3) Shared.four)
    as (buf' & Hrun & Htimes & Hout & Hlab).
  - reflexivity.
  - reflexivity.
  - unfold Shared.fits. simpl. lia.
  - destruct Hlab as (Hlabels & _ & Hsame).
    { repeat constructor; unfold label_ok; simpl; lia. }
    exists buf'. split; [exact Hrun|]. split; [exact Htimes|].
    split; [apply Hout; simpl; lia|]. split; [exact Hlabels|].
    intros Heq. destruct Hsame as [Hsame _]. specialize (Hsame Heq 7).
    assert (Hd : distinct (Shared.rows (Shared.View 1 1 3) Shared.four) = 2)
      by (vm_compute; reflexivity).
    rewrite Hd in Hsame. destruct Hsame as [Hsame _].
    assert (0 ≤ 7 < 2); [|lia].
    apply Hsame. simpl. left.
Defined.

Lemma spike_counts_positive_witness :
  ∃ self w' b a,
    Shared.init_fields Shared.halves 1 2 Shared.kept = ok (self, w')
    ∧ Shared.load Shared.halves 1 w' = ok (b, w')
    ∧ Shared.load Shared.halves 2 w' = ok (a, w')
    ∧ (∀ x, x ∈ labels b ↔ 0 ≤ x < SpikeSortingEvaluation.n_units self)
    ∧ (∀ x, x ∈ labels a ↔ 0 ≤ x < SpikeSortingEvaluation.n_clusters self)
    ∧ SpikeSortingEvaluation.spike_count_base self
      = counts_of b (SpikeSortingEvaluation.n_units self)
    ∧ SpikeSortingEvaluation.spike_count_cluster self
      = counts_of a (SpikeSortingEvaluation.n_clusters self)
    ∧ length (SpikeSortingEvaluation.spike_count_base self)
      = Z.to_nat (SpikeSortingEvaluation.n_units self)
    ∧ length (SpikeSortingEvaluation.spike_count_cluster self)
      = Z.to_nat (SpikeSortingEvaluation.n_clusters self)
    ∧ Forall (fun c => 0 < c) (SpikeSortingEvaluation.spike_count_base self)
    ∧ Forall (fun c => 0 < c)
        (SpikeSortingEvaluation.spike_count_cluster self)
    ∧ ∀ self', SpikeSortingEvaluation.compute_accuracies self = ok self' →
        Forall is_finite (SpikeSortingEvaluation.true_positive self')
        ∧ Forall is_finite (SpikeSortingEvaluation.false_positive self').
Proof.
  apply (spike_counts_positive Shared.halves Shared.kept 1 2
           (Shared.View 1 0 3) (Shared.View 1 3 4)
           Shared.joined Shared.joined).
  - reflexivity.
  - reflexivity.
  - reflexivity.
  - reflexivity.
  - unfold Shared.fits. simpl. lia.
  - unfold Shared.fits. simpl. lia.
  - discriminate.
  - discriminate.
  - repeat constructor; unfold label_ok; simpl; lia.
  - repeat constructor; unfold label_ok; simpl; lia.
  - unfold Shared.same_or_apart. simpl. right. right. left. lia.
Defined.
